(** * The module loader of wave/core/moduleloader, embedded and verified

    Source: [wave/core/moduleloader/module_loader.hpp] and
    [module_loader.cpp] (the POSIX branch of every [#ifdef _WIN32]).

    The loader talks to code that is not its own: the dynamic linker
    ([dlopen], [dlsym], [dlclose], [dlerror]), the code of the loaded
    modules (factory, [initialize], [shutdown], [getName], [getVersion],
    destructor symbol) and the subscribed callbacks.  All of it is taken as
    a [Platform]: state transformers on an abstract world [W].  The loader
    itself is written in a small state-and-exception monad over a [System]:
    the world, the members of [ModuleLoaderSystem] and a trace of
    everything the loader did to the outside.  [loadModule] can come to a
    step the language gives no meaning: after [initialize] threw it asks
    the instance for its name when the instance has gone to the destructor
    symbol or its library has been closed, and after the factory threw it
    reads the text of the exception when the library that holds its class
    has been closed.  [loadModule] and [reloadModule] are therefore written
    in a second monad, in which a computation returns, throws, or has no
    defined result.

    What the model takes for granted: one thread calls the loader, and a
    callback does not call back into it (it would lock [CppModuleMutex],
    which its own broadcast holds); [getName] and [getVersion] of a live
    instance return; [dlerror] has a message after a failed [dlopen] or
    [dlclose]; an exception that is not a [std::exception] needs no code
    of the module.  A run of operations that comes to a step without
    defined result is continued by the model from the state of that step;
    what is proved of all runs holds of the runs of the program up to such
    a step.

    Contents: the data model; the loader, function by function; the
    vocabulary of the properties; two concrete platforms; the properties of
    each function; what every computation adds to the trace; the claims of
    the specification; further properties of the code (the steps of an
    unload, the exits of a load, the phases of a reload, pointers along a
    run, the order of the map, [std::cerr]); the claims and the further
    properties on the concrete platforms. *)

From stdpp Require Import gmap strings list fin_maps sorting.

#[local] Set Warnings "-clear-no-such-hyp".

(** ** Data model ([module_loader.hpp]) *)

(** [void*], [ILauncherModule*] and the two function pointers: an address,
    [nullptr] being 0. *)
Definition ptr := N.
Definition nullptr : ptr := 0%N.
Definition is_null (p : ptr) : bool := N.eqb p nullptr.

(** [struct ModuleInfo]; its constructor leaves the strings empty and sets
    both pointers to [nullptr]. *)
Record ModuleInfo := mkModuleInfo {
  name : string;
  version : string;
  path : string;
  libraryHandle : ptr;
  instance : ptr
}.

Definition ModuleInfo_default : ModuleInfo :=
  mkModuleInfo "" "" "" nullptr nullptr.

Definition set_name (n : string) (i : ModuleInfo) : ModuleInfo :=
  mkModuleInfo n (version i) (path i) (libraryHandle i) (instance i).
Definition set_path (p : string) (i : ModuleInfo) : ModuleInfo :=
  mkModuleInfo (name i) (version i) p (libraryHandle i) (instance i).
Definition set_libraryHandle (h : ptr) (i : ModuleInfo) : ModuleInfo :=
  mkModuleInfo (name i) (version i) (path i) h (instance i).
Definition set_instance (p : ptr) (i : ModuleInfo) : ModuleInfo :=
  mkModuleInfo (name i) (version i) (path i) (libraryHandle i) p.

(** [ModuleResult::Status] *)
Inductive Status := Success | NotFound | Error.

(** [struct ModuleResult].  The field [data] is left out: no constructor
    call of the loader passes it, so it is always [std::nullopt]. *)
Record ModuleResult := mkModuleResult {
  status : Status;
  message : string;
  module : option ModuleInfo
}.

(** [enum class ModuleEventType] *)
Inductive ModuleEventType :=
  Loaded | Unloaded | Reloaded | ErrorLoading | ErrorUnloading.

#[global] Instance ModuleEventType_eq_dec : EqDecision ModuleEventType.
Proof. solve_decision. Defined.

(** A subscribed [ModuleEventCallback], named by a number; what it does
    when called is the platform's business. *)
Definition Callback := nat.

Definition CREATE_MODULE_FUNC_NAME : string := "create_module_instance".
Definition DESTROY_MODULE_FUNC_NAME : string := "destroy_module_instance".

(** ** Foreign code *)

(** What a [catch] clause can tell apart: [catch (const std::exception& e)]
    sees [e.what()], [catch (...)] sees nothing.  A [std::exception] is of
    a class of the C++ runtime ([std::runtime_error] and the like), or of a
    class the module defines: then its [what()] is code of the module, and
    calling it is defined only while the library of the module is loaded.
    [UnknownException] is anything else that needs no code of the module
    (an [int], a string literal). *)
Inductive thrown :=
| StdException (what : string)
| ModuleException (what : string)
| UnknownException.

Inductive outcome (A : Type) := Returns (a : A) | Throws (e : thrown).
Arguments Returns {A} a.
Arguments Throws {A} e.

(** What an operation that can leave defined behaviour comes to: an
    outcome, or nothing the language defines (a call through a pointer to
    what has been released). *)
Inductive result (A : Type) := Defined (o : outcome A) | Undefined.
Arguments Defined {A} o.
Arguments Undefined {A}.
Coercion Defined : outcome >-> result.
#[local] Arguments pair {A B} & _ _.

(** The status an operation returned, if it returned. *)
Definition returned_status (r : outcome ModuleResult) : option Status :=
  match r with
  | Returns res => Some (status res)
  | Throws _ => None
  end.

(** Everything outside the loader.  C functions return; C++ entry points
    of a module and callbacks return or throw.  [getName] and [getVersion]
    are [const] accessors, read off the world; they are defined for an
    instance that has not been released.  A callback does not call back
    into the loader: every broadcast is made with [CppModuleMutex] held,
    the mutex is a [std::mutex] and every public function locks it, so a
    callback that subscribed (or loaded, or unloaded) would lock a mutex
    its own thread holds, which has no defined behaviour and in practice
    waits for ever; it would not return. *)
Class Platform (W : Type) := {
  dlopen : string -> W -> ptr * W;
  dlsym : ptr -> string -> W -> ptr * W;
  dlclose : ptr -> W -> Z * W;
  dlerror : W -> option string * W;
  call_create : ptr -> W -> outcome ptr * W;
  call_destroy : ptr -> ptr -> W -> outcome unit * W;
  module_initialize : ptr -> ptr -> W -> outcome unit * W;
  module_shutdown : ptr -> W -> outcome unit * W;
  module_getName : ptr -> W -> string;
  module_getVersion : ptr -> W -> string;
  call_callback :
    Callback -> ModuleEventType -> ModuleInfo -> string -> W -> outcome unit * W
}.

(** What the loader did to the outside, in order, with what came back. *)
Inductive Action :=
| ADlopen (p : string) (h : ptr)
| ADlsym (h : ptr) (symbol : string) (f : ptr)
| ADlclose (h : ptr) (rc : Z)
| ADlerror (e : option string)
| ACreate (f : ptr) (r : outcome ptr)
| AInitialize (inst core : ptr) (r : outcome unit)
| AShutdown (inst : ptr) (r : outcome unit)
| ADestroy (f inst : ptr) (r : outcome unit)
| AGetName (inst : ptr) (n : string)
| AGetVersion (inst : ptr) (v : string)
| ABroadcast (ty : ModuleEventType) (info : ModuleInfo) (msg : string)
| ACallback (cb : Callback) (ty : ModuleEventType) (info : ModuleInfo)
    (msg : string) (r : outcome unit)
| ACerr (line : string).

(** The lifecycle events of a trace: the calls of [broadcastEvent]. *)
Definition event_of (a : Action) : option (ModuleEventType * ModuleInfo * string) :=
  match a with
  | ABroadcast ty info msg => Some (ty, info, msg)
  | _ => None
  end.
Definition events_of (t : list Action) : list (ModuleEventType * ModuleInfo * string) :=
  omap event_of t.

(** The callbacks a trace ran, in order. *)
Definition callback_of (a : Action) : option Callback :=
  match a with
  | ACallback cb _ _ _ _ => Some cb
  | _ => None
  end.
Definition callbacks_of (t : list Action) : list Callback := omap callback_of t.

(** The calls that open, resolve, run or close code: the calls into the
    linker and into module code, [dlerror] apart, which only fetches the
    text of the last error. *)
Definition is_foreign (a : Action) : bool :=
  match a with
  | ABroadcast _ _ _ | ACallback _ _ _ _ _ | ACerr _ | ADlerror _ => false
  | _ => true
  end.
Definition foreign_of (t : list Action) : list Action := filter is_foreign t.

Definition count_events (ty : ModuleEventType) (t : list Action) : nat :=
  length (filter (fun e => e.1.1 = ty) (events_of t)).

(** ** The loader's state and monad *)

Section Loader.
Context {W : Type} {P : Platform W}.

(** The members of [ModuleLoaderSystem] ([CppModuleMutex] apart: one
    thread is modelled), the world, and the trace. *)
Record System := mkSystem {
  world : W;
  CppLoadedModules : gmap string ModuleInfo;
  CppEventCallbacks : list Callback;
  CppCoreAccess : ptr;
  trace : list Action
}.

Definition M (A : Type) : Type := System -> outcome A * System.

Definition ret {A} (a : A) : M A := fun s => (Returns a, s).
Definition bind {A B} (m : M A) (f : A -> M B) : M B :=
  fun s => match m s with
           | (Returns a, s') => f a s'
           | (Throws e, s') => (Throws e, s')
           end.
(** [try { m } catch ...]: the exception, if any, becomes a value. *)
Definition attempt {A} (m : M A) : M (outcome A) :=
  fun s => let '(r, s') := m s in (Returns r, s').

Notation "'let*' x ':=' m 'in' k" := (bind m (fun x => k))
  (at level 10, x name, m at level 100, k at level 200).

Definition gets {A} (f : System -> A) : M A := fun s => (Returns (f s), s).

(** [loadModule], and [reloadModule] through it, can come to a step the
    language gives no meaning.  They are written in [U]: a computation of
    [M] is one of [U], and after [undefined] nothing follows. *)
Definition U (A : Type) : Type := System -> result A * System.

Definition lift {A} (m : M A) : U A :=
  fun s => let '(r, s') := m s in (Defined r, s').
Coercion lift : M >-> U.

Definition bind_u {A B} (m : U A) (f : A -> U B) : U B :=
  fun s => match m s with
           | (Defined (Returns a), s') => f a s'
           | (Defined (Throws e), s') => (Defined (Throws e), s')
           | (Undefined, s') => (Undefined, s')
           end.
Definition undefined {A} : U A := fun s => (Undefined, s).

Notation "'let!' x ':=' m 'in' k" := (bind_u m (fun x => k))
  (at level 10, x name, m at level 100, k at level 200).

Definition log (a : Action) : M unit :=
  fun s => (Returns tt,
            mkSystem (world s) (CppLoadedModules s) (CppEventCallbacks s)
              (CppCoreAccess s) (trace s ++ [a])).

Definition set_modules (m : gmap string ModuleInfo) : M unit :=
  fun s => (Returns tt,
            mkSystem (world s) m (CppEventCallbacks s) (CppCoreAccess s) (trace s)).

(** A call of a C function of the linker. *)
Definition linker {A} (f : W -> A * W) (act : A -> Action) : M A :=
  fun s => let '(a, w) := f (world s) in
           (Returns a,
            mkSystem w (CppLoadedModules s) (CppEventCallbacks s)
              (CppCoreAccess s) (trace s ++ [act a])).

(** A call into module code: what it throws is thrown here. *)
Definition foreign {A} (f : W -> outcome A * W) (act : outcome A -> Action) : M A :=
  fun s => let '(r, w) := f (world s) in
           (r,
            mkSystem w (CppLoadedModules s) (CppEventCallbacks s)
              (CppCoreAccess s) (trace s ++ [act r])).

Definition os_dlopen (p : string) : M ptr := linker (dlopen p) (ADlopen p).
Definition os_dlsym (h : ptr) (symbol : string) : M ptr :=
  linker (dlsym h symbol) (ADlsym h symbol).
Definition os_dlclose (h : ptr) : M Z := linker (dlclose h) (ADlclose h).
Definition os_dlerror : M (option string) := linker dlerror ADlerror.
(** [std::string(dlerror())]: POSIX gives a message after a failed
    [dlopen] or [dlclose]; a null pointer there is read as no text. *)
Definition cstr (e : option string) : string := default "" e.

Definition createFunc_call (f : ptr) : M ptr := foreign (call_create f) (ACreate f).
Definition destroyFunc_call (f inst : ptr) : M unit :=
  foreign (call_destroy f inst) (ADestroy f inst).
Definition initialize (inst core : ptr) : M unit :=
  foreign (module_initialize inst core) (AInitialize inst core).
Definition shutdown (inst : ptr) : M unit :=
  foreign (module_shutdown inst) (AShutdown inst).
(** A [const] accessor of a module: it reads the world and returns. *)
Definition accessor {A} (f : W -> A) (act : A -> Action) : M A :=
  fun s => (Returns (f (world s)),
            mkSystem (world s) (CppLoadedModules s) (CppEventCallbacks s)
              (CppCoreAccess s) (trace s ++ [act (f (world s))])).
Definition getName (inst : ptr) : M string :=
  accessor (module_getName inst) (AGetName inst).
Definition getVersion (inst : ptr) : M string :=
  accessor (module_getVersion inst) (AGetVersion inst).

(** [callback(type, info, message)] *)
Definition callback_call (ty : ModuleEventType) (info : ModuleInfo) (msg : string)
    (callback : Callback) : M unit :=
  foreign (call_callback callback ty info msg) (ACallback callback ty info msg).

Definition cerr (line : string) : M unit := log (ACerr line).

(** A range-based [for] over a container that was copied out first. *)
Fixpoint for_each {A} (l : list A) (body : A -> M unit) : M unit :=
  match l with
  | [] => ret tt
  | x :: l' => let* _ := body x in for_each l' body
  end.

(** ** [std::map<std::string, ModuleInfo>] *)

(** Iteration order of the map: ascending keys. *)
Definition key_le (a b : string * ModuleInfo) : Prop := String.le a.1 b.1.
#[global] Instance key_le_dec : RelDecision key_le.
Proof. intros a b. unfold key_le. apply _. Defined.

Definition entries (m : gmap string ModuleInfo) : list (string * ModuleInfo) :=
  merge_sort key_le (map_to_list m).

(** ** [ModuleLoaderSystem::broadcastEvent] *)

(** The body of the loop: one callback inside its [try]. *)
Definition notify (ty : ModuleEventType) (info : ModuleInfo) (msg : string)
    (callback : Callback) : M unit :=
  let* r := attempt (callback_call ty info msg callback) in
  match r with
  | Returns _ => ret tt
  | Throws (StdException what) | Throws (ModuleException what) =>
      cerr ("Exception in ModuleEventCallback: " +:+ what)
  | Throws UnknownException =>
      cerr "Unknown exception in ModuleEventCallback."
  end.

Definition broadcastEvent (ty : ModuleEventType) (info : ModuleInfo) (msg : string)
    : M unit :=
  let* _ := log (ABroadcast ty info msg) in
  let* callbacks_copy := gets CppEventCallbacks in
  for_each callbacks_copy (notify ty info msg).

(** ** [ModuleLoaderSystem::loadModule] *)

(** The loop over [CppLoadedModules] at the head of [loadModule]. *)
Fixpoint find_path (modulePath : string) (l : list (string * ModuleInfo))
    : option ModuleInfo :=
  match l with
  | [] => None
  | entry :: l' =>
      if decide (path entry.2 = modulePath) then Some entry.2
      else find_path modulePath l'
  end.

(** [if (destroyFunc) { try { destroyFunc(moduleInstance); } catch(...) {} }] *)
Definition destroy_quietly (destroyFunc moduleInstance : ptr) : M unit :=
  if is_null destroyFunc then ret tt
  else let* _ := attempt (destroyFunc_call destroyFunc moduleInstance) in ret tt.

(** One failure exit of [loadModule]: broadcast, then return the error. *)
Definition fail_load (errorInfo : ModuleInfo) (errorMsg : string) : M ModuleResult :=
  let* _ := broadcastEvent ErrorLoading errorInfo errorMsg in
  ret (mkModuleResult Error errorMsg (Some errorInfo)).

(** When [initialize] throws, lines 133 to 162 release the instance and
    the library before they ask the instance for its name.  The instance
    was released if it went to the destructor symbol or if [dlclose]
    closed the library; [getName()] on it has no defined behaviour then.
    Likewise [e.what()] of an exception of a class of the module, read at
    line 100 after the [dlclose] of line 98, if that closed the library. *)
Definition released (destroyFunc : ptr) (rc : Z) : bool :=
  negb (is_null destroyFunc) || bool_decide (rc = 0%Z).

Definition loadModule (modulePath : string) : U ModuleResult :=
  let! loaded := gets CppLoadedModules in
  match find_path modulePath (entries loaded) with
  | Some info =>
      ret (mkModuleResult Error
             ("Module from this path is already loaded: " +:+ modulePath) (Some info))
  | None =>
  let! libHandle := os_dlopen modulePath in
  if is_null libHandle then
    let! e := os_dlerror in
    let errorMsg :=
      "Failed to load library: " +:+ modulePath +:+ " (Error: " +:+ cstr e +:+ ")" in
    fail_load (set_path modulePath ModuleInfo_default) errorMsg
  else
  let! createFunc := os_dlsym libHandle CREATE_MODULE_FUNC_NAME in
  let! destroyFunc := os_dlsym libHandle DESTROY_MODULE_FUNC_NAME in
  if is_null createFunc then
    let! dlsym_error := os_dlerror in
    let errorMsg :=
      "Failed to find '" +:+ CREATE_MODULE_FUNC_NAME +:+ "' in " +:+ modulePath +:+
      match dlsym_error with
      | Some e => " (dlsym Error: " +:+ e +:+ ")"
      | None => ""
      end in
    let! _ := os_dlclose libHandle in
    fail_load (set_path modulePath ModuleInfo_default) errorMsg
  else
  let! created := attempt (createFunc_call createFunc) in
  match created with
  | Throws (StdException what) =>
      let! _ := os_dlclose libHandle in
      fail_load (set_path modulePath ModuleInfo_default)
        (CREATE_MODULE_FUNC_NAME +:+ " threw an exception: " +:+ what)
  | Throws (ModuleException what) =>
      let! rc := os_dlclose libHandle in
      (* line 100: [e.what()], after the [dlclose] of line 98 *)
      if decide (rc = 0%Z) then undefined
      else
        fail_load (set_path modulePath ModuleInfo_default)
          (CREATE_MODULE_FUNC_NAME +:+ " threw an exception: " +:+ what)
  | Throws UnknownException =>
      let! _ := os_dlclose libHandle in
      fail_load (set_path modulePath ModuleInfo_default)
        (CREATE_MODULE_FUNC_NAME +:+ " threw an unknown exception.")
  | Returns moduleInstance =>
  if is_null moduleInstance then
    let! _ := os_dlclose libHandle in
    fail_load (set_path modulePath ModuleInfo_default)
      (CREATE_MODULE_FUNC_NAME +:+ " returned nullptr from " +:+ modulePath)
  else
  let! core := gets CppCoreAccess in
  let! initialized := attempt (initialize moduleInstance core) in
  match initialized with
  | Throws (StdException what) | Throws (ModuleException what) =>
      let! _ := destroy_quietly destroyFunc moduleInstance in
      let! rc := os_dlclose libHandle in
      (* line 150: [moduleInstance->getName()], after the destructor symbol
         of line 133 and the [dlclose] of line 148 *)
      if released destroyFunc rc then undefined
      else
        let! n := getName moduleInstance in
        let errorMsg := "Module " +:+ n +:+ " initialize() failed: " +:+ what in
        let! n' := getName moduleInstance in
        fail_load (set_name n' (set_path modulePath ModuleInfo_default)) errorMsg
  | Throws UnknownException =>
      let! _ := destroy_quietly destroyFunc moduleInstance in
      let! rc := os_dlclose libHandle in
      (* line 161: [moduleInstance->getName()], after lines 155 and 159 *)
      if released destroyFunc rc then undefined
      else
        let! n := getName moduleInstance in
        let errorMsg :=
          "Module " +:+ n +:+ " initialize() failed with unknown exception." in
        let! n' := getName moduleInstance in
        fail_load (set_name n' (set_path modulePath ModuleInfo_default)) errorMsg
  | Returns _ =>
  let! moduleName := getName moduleInstance in
  let! loaded := gets CppLoadedModules in
  if decide (is_Some (loaded !! moduleName)) then
    let! _ := destroy_quietly destroyFunc moduleInstance in
    let! _ := os_dlclose libHandle in
    let errorMsg :=
      "Module with name '" +:+ moduleName +:+
      "' already loaded. Module names must be unique." in
    fail_load (set_name moduleName (set_path modulePath ModuleInfo_default)) errorMsg
  else
  let! v := getVersion moduleInstance in
  let info := mkModuleInfo moduleName v modulePath libHandle moduleInstance in
  let! _ := set_modules (<[name info := info]> loaded) in
  let! _ := broadcastEvent Loaded info "Module loaded successfully." in
  ret (mkModuleResult Success "Module loaded successfully." (Some info))
  end end end.

(** ** [ModuleLoaderSystem::internalUnloadModule] *)

(** Lines 279 to 285: the library is closed (or there was none). *)
Definition finish_unload (moduleName : string) (isReloading : bool)
    (infoToUnload : ModuleInfo) : M ModuleResult :=
  let infoToUnload := set_libraryHandle nullptr infoToUnload in
  let* loaded := gets CppLoadedModules in
  let* _ := set_modules (delete moduleName loaded) in
  let* _ :=
    if negb isReloading
    then broadcastEvent Unloaded infoToUnload "Module unloaded successfully."
    else ret tt in
  ret (mkModuleResult Success "Module unloaded successfully." (Some infoToUnload)).

(** Lines 209 to 226: [shutdown()] inside its [try]; a fault is reported
    and the unload goes on. *)
Definition shutdown_instance (moduleName : string) (infoToUnload : ModuleInfo)
    : M unit :=
  let* stopped :=
    attempt (if is_null (instance infoToUnload) then ret tt
             else shutdown (instance infoToUnload)) in
  match stopped with
  | Returns _ => ret tt
  | Throws (StdException what) | Throws (ModuleException what) =>
      broadcastEvent ErrorUnloading infoToUnload
        ("Exception during " +:+ moduleName +:+ "->shutdown(): " +:+ what)
  | Throws UnknownException =>
      broadcastEvent ErrorUnloading infoToUnload
        ("Unknown exception during " +:+ moduleName +:+ "->shutdown().")
  end.

(** Lines 228 to 257: the destructor symbol is looked up again and, when
    there is one, called on the instance inside its [try]. *)
Definition destroy_instance (moduleName : string) (infoToUnload : ModuleInfo)
    : M unit :=
  let* destroyFunc :=
    if is_null (libraryHandle infoToUnload) then ret nullptr
    else os_dlsym (libraryHandle infoToUnload) DESTROY_MODULE_FUNC_NAME in
  if negb (is_null destroyFunc) && negb (is_null (instance infoToUnload)) then
    let* destroyed :=
      attempt (destroyFunc_call destroyFunc (instance infoToUnload)) in
    match destroyed with
    | Returns _ => ret tt
    | Throws (StdException what) | Throws (ModuleException what) =>
        broadcastEvent ErrorUnloading infoToUnload
          (DESTROY_MODULE_FUNC_NAME +:+ " threw an exception for module " +:+
           moduleName +:+ ": " +:+ what)
    | Throws UnknownException =>
        broadcastEvent ErrorUnloading infoToUnload
          (DESTROY_MODULE_FUNC_NAME +:+ " threw an unknown exception for module " +:+
           moduleName +:+ ".")
    end
  else ret tt.

(** Lines 260 to 285: close the library; on failure report and leave the
    map alone, otherwise finish. *)
Definition close_library (moduleName : string) (isReloading : bool)
    (infoToUnload : ModuleInfo) : M ModuleResult :=
  if is_null (libraryHandle infoToUnload) then
    finish_unload moduleName isReloading infoToUnload
  else
    let* rc := os_dlclose (libraryHandle infoToUnload) in
    if decide (rc <> 0%Z) then
      let* e := os_dlerror in
      let errorMsg :=
        "Failed to free library for module " +:+ moduleName +:+
        " (Error: " +:+ cstr e +:+ ")" in
      let* _ := broadcastEvent ErrorUnloading infoToUnload errorMsg in
      ret (mkModuleResult Error errorMsg (Some infoToUnload))
    else finish_unload moduleName isReloading infoToUnload.

Definition internalUnloadModule (moduleName : string) (isReloading : bool)
    : M ModuleResult :=
  let* loaded := gets CppLoadedModules in
  match loaded !! moduleName with
  | None =>
      let* _ :=
        if negb isReloading
        then broadcastEvent ErrorUnloading (set_name moduleName ModuleInfo_default)
               "Module not found for unloading."
        else ret tt in
      ret (mkModuleResult NotFound ("Module not found: " +:+ moduleName) None)
  | Some infoToUnload =>
      let* _ := shutdown_instance moduleName infoToUnload in
      let* _ := destroy_instance moduleName infoToUnload in
      (* line 258: [infoToUnload.instance = nullptr] *)
      close_library moduleName isReloading (set_instance nullptr infoToUnload)
  end.

(** ** [unloadModule], [reloadModule], [listModules], [subscribeToModuleEvents] *)

Definition unloadModule (moduleName : string) : M ModuleResult :=
  internalUnloadModule moduleName false.

(** Between the internal unload and [loadModule] the source unlocks the
    mutex and locks it again afterwards; with one thread nothing happens in
    between. *)
Definition reloadModule (moduleName : string) : U ModuleResult :=
  let! loaded := gets CppLoadedModules in
  match loaded !! moduleName with
  | None =>
      ret (mkModuleResult NotFound ("Module not found for reload: " +:+ moduleName)
             (Some (set_name moduleName ModuleInfo_default)))
  | Some found =>
  let modulePath := path found in
  let! unloadRes := internalUnloadModule moduleName true in
  match status unloadRes with
  | Success =>
      let! loadRes := loadModule modulePath in
      match status loadRes with
      | Success =>
          (* [loadRes.module.value()]: every successful load carries one *)
          let loadedInfo := default ModuleInfo_default (module loadRes) in
          let! _ := broadcastEvent Reloaded loadedInfo "Module reloaded successfully." in
          ret (mkModuleResult Success "Module reloaded successfully." (module loadRes))
      | _ =>
          let info := set_path modulePath (set_name moduleName ModuleInfo_default) in
          let! _ := broadcastEvent ErrorLoading info
                      ("Failed to load module during reload: " +:+ message loadRes) in
          ret (mkModuleResult Error
                 ("Reload failed during load phase: " +:+ message loadRes) (Some info))
      end
  | _ =>
      let info :=
        set_path modulePath
          (set_name moduleName (default ModuleInfo_default (module unloadRes))) in
      let! _ := broadcastEvent ErrorUnloading info
                  ("Failed to unload module during reload: " +:+ message unloadRes) in
      ret (mkModuleResult Error
             ("Reload failed during unload phase: " +:+ message unloadRes) (Some info))
  end
  end.

Definition listModules : M (list ModuleInfo) :=
  let* loaded := gets CppLoadedModules in
  ret ((entries loaded).*2).

Definition subscribeToModuleEvents (callback : Callback) : M unit :=
  fun s => (Returns tt,
            mkSystem (world s) (CppLoadedModules s) (CppEventCallbacks s ++ [callback])
              (CppCoreAccess s) (trace s)).

(** ** [ModuleLoaderSystem::~ModuleLoaderSystem] *)

(** The second loop of the destructor, over the copied keys. *)
Definition unload_each (moduleNames : list string) : M unit :=
  for_each moduleNames (fun name =>
    let* _ := internalUnloadModule name true in ret tt).

Definition destructor : M unit :=
  let* loaded := gets CppLoadedModules in
  let moduleNames := (entries loaded).*1 in
  let* _ := unload_each moduleNames in
  set_modules ∅.

(** ** Runs of the public interface *)

Inductive Op :=
| OpLoad (modulePath : string)
| OpUnload (moduleName : string)
| OpReload (moduleName : string)
| OpList
| OpSubscribe (callback : Callback).

Definition run_op (o : Op) (s : System) : System :=
  match o with
  | OpLoad p => (loadModule p s).2
  | OpUnload n => (unloadModule n s).2
  | OpReload n => (reloadModule n s).2
  | OpList => (listModules s).2
  | OpSubscribe cb => (subscribeToModuleEvents cb s).2
  end.

Definition run (ops : list Op) (s : System) : System := foldl (fun s o => run_op o s) s ops.

(** A freshly constructed [ModuleLoaderSystem(coreAccess)]. *)
Definition fresh (w : W) (coreAccess : ptr) : System :=
  mkSystem w ∅ [] coreAccess [].

(** The part of the trace an operation added. *)
Definition added (before after : System) : list Action :=
  drop (length (trace before)) (trace after).

(** * Vocabulary of the properties *)

(** Callback runs and lines on [std::cerr]: what a broadcast leaves in the
    trace after its own entry. *)
Definition is_noise (a : Action) : bool :=
  match a with
  | ACallback _ _ _ _ _ | ACerr _ => true
  | _ => false
  end.

(** What every operation does to the rest of the state: the pointer handed
    to the constructor stays, and the trace grows by [t]. *)
Definition frame (s s' : System) (t : list Action) : Prop :=
  CppCoreAccess s' = CppCoreAccess s /\ trace s' = trace s ++ t.

(** What the two tear-down stages may leave in the trace: calls of
    [shutdown], [dlsym] and the destructor symbol, and [ErrorUnloading]
    broadcasts with their callbacks. *)
Definition is_teardown (a : Action) : bool :=
  match a with
  | AShutdown _ _ | ADestroy _ _ _ | ADlsym _ _ _ | ACallback _ _ _ _ _ | ACerr _ => true
  | ABroadcast ErrorUnloading _ _ => true
  | _ => false
  end.

(** Some [dlclose] in the trace returned non-zero. *)
Definition close_failed (t : list Action) : bool :=
  existsb (fun a => match a with
                    | ADlclose _ rc => negb (rc =? 0)%Z
                    | _ => false
                    end) t.

(** [close_library] has two ways out, and the trace tells which. *)
Definition close_outcome (moduleName : string) (isReloading : bool)
    (info : ModuleInfo) (before after : gmap string ModuleInfo)
    (res : ModuleResult) (t : list Action) : Prop :=
  (close_failed t = true /\
   libraryHandle info <> nullptr /\
   after = before /\
   exists msg,
     res = mkModuleResult Error msg (Some info) /\
     events_of t = [(ErrorUnloading, info, msg)])
  \/
  (close_failed t = false /\
   after = delete moduleName before /\
   res = mkModuleResult Success "Module unloaded successfully."
           (Some (set_libraryHandle nullptr info)) /\
   events_of t =
     if isReloading then []
     else [(Unloaded, set_libraryHandle nullptr info, "Module unloaded successfully.")]).

(** The calls [destroy_quietly] makes: none without a destructor symbol,
    one otherwise, whatever it does. *)
Definition destroy_calls (destroyFunc moduleInstance : ptr) (t : list Action) : Prop :=
  if is_null destroyFunc then t = []
  else exists o, t = [ADestroy destroyFunc moduleInstance o].

(** [ModuleInfo errorInfo; errorInfo.path = modulePath;] *)
Definition error_info (modulePath : string) : ModuleInfo :=
  set_path modulePath ModuleInfo_default.

(** The messages of the failure exits of [loadModule]. *)
Definition dlsym_note (e : option string) : string :=
  match e with
  | Some e => " (dlsym Error: " +:+ e +:+ ")"
  | None => ""
  end.

Definition create_failure (modulePath : string) (r : outcome ptr) : string :=
  match r with
  | Throws (StdException what) | Throws (ModuleException what) =>
      CREATE_MODULE_FUNC_NAME +:+ " threw an exception: " +:+ what
  | Throws UnknownException =>
      CREATE_MODULE_FUNC_NAME +:+ " threw an unknown exception."
  | Returns _ =>
      CREATE_MODULE_FUNC_NAME +:+ " returned nullptr from " +:+ modulePath
  end.

Definition initialize_failure (n : string) (e : thrown) : string :=
  match e with
  | StdException what | ModuleException what =>
      "Module " +:+ n +:+ " initialize() failed: " +:+ what
  | UnknownException => "Module " +:+ n +:+ " initialize() failed with unknown exception."
  end.

(** The factory threw an exception of a class of the module and [dlclose]
    then closed the library: the text of the exception is out of reach. *)
Definition what_lost (r : outcome ptr) (rc : Z) : bool :=
  match r with
  | Throws (ModuleException _) => bool_decide (rc = 0%Z)
  | _ => false
  end.

(** Every way through [loadModule] to a result, once the path check has
    passed: the status, descriptor and message of the result, the map it
    leaves, and its calls into the linker and the module, in order. *)
Inductive load_path (p : string) (core : ptr) (m : gmap string ModuleInfo) :
    Status -> ModuleInfo -> string -> gmap string ModuleInfo -> list Action -> Prop :=
| path_open_failed e :
    load_path p core m Error (error_info p)
      ("Failed to load library: " +:+ p +:+ " (Error: " +:+ cstr e +:+ ")")
      m [ADlopen p nullptr]
| path_no_factory h d e rc :
    h <> nullptr ->
    load_path p core m Error (error_info p)
      ("Failed to find '" +:+ CREATE_MODULE_FUNC_NAME +:+ "' in " +:+ p +:+ dlsym_note e)
      m [ADlopen p h; ADlsym h CREATE_MODULE_FUNC_NAME nullptr;
         ADlsym h DESTROY_MODULE_FUNC_NAME d; ADlclose h rc]
| path_factory_failed h f d r rc :
    h <> nullptr -> f <> nullptr ->
    (forall inst, r = Returns inst -> inst = nullptr) ->
    what_lost r rc = false ->
    load_path p core m Error (error_info p) (create_failure p r)
      m [ADlopen p h; ADlsym h CREATE_MODULE_FUNC_NAME f;
         ADlsym h DESTROY_MODULE_FUNC_NAME d; ACreate f r; ADlclose h rc]
| path_initialize_threw h f d inst e td rc n :
    h <> nullptr -> f <> nullptr -> inst <> nullptr ->
    destroy_calls d inst td ->
    released d rc = false ->
    load_path p core m Error (set_name n (error_info p)) (initialize_failure n e)
      m ([ADlopen p h; ADlsym h CREATE_MODULE_FUNC_NAME f;
          ADlsym h DESTROY_MODULE_FUNC_NAME d; ACreate f (Returns inst);
          AInitialize inst core (Throws e)] ++ td ++
         [ADlclose h rc; AGetName inst n; AGetName inst n])
| path_duplicate_name h f d inst td rc n :
    h <> nullptr -> f <> nullptr -> inst <> nullptr ->
    destroy_calls d inst td ->
    is_Some (m !! n) ->
    load_path p core m Error (set_name n (error_info p))
      ("Module with name '" +:+ n +:+ "' already loaded. Module names must be unique.")
      m ([ADlopen p h; ADlsym h CREATE_MODULE_FUNC_NAME f;
          ADlsym h DESTROY_MODULE_FUNC_NAME d; ACreate f (Returns inst);
          AInitialize inst core (Returns tt); AGetName inst n] ++ td ++
         [ADlclose h rc])
| path_loaded h f d inst n v :
    h <> nullptr -> f <> nullptr -> inst <> nullptr ->
    m !! n = None ->
    load_path p core m Success (mkModuleInfo n v p h inst)
      "Module loaded successfully."
      (<[n := mkModuleInfo n v p h inst]> m)
      [ADlopen p h; ADlsym h CREATE_MODULE_FUNC_NAME f;
       ADlsym h DESTROY_MODULE_FUNC_NAME d; ACreate f (Returns inst);
       AInitialize inst core (Returns tt); AGetName inst n; AGetVersion inst v].

(** The two ways of [loadModule] to a step without defined behaviour, by
    the calls made until then. *)
Inductive load_stops (p : string) (core : ptr) : list Action -> Prop :=
| stops_at_what h f d what rc :
    h <> nullptr -> f <> nullptr -> rc = 0%Z ->
    load_stops p core
      [ADlopen p h; ADlsym h CREATE_MODULE_FUNC_NAME f;
       ADlsym h DESTROY_MODULE_FUNC_NAME d;
       ACreate f (Throws (ModuleException what)); ADlclose h rc]
| stops_at_getName h f d inst e td rc :
    h <> nullptr -> f <> nullptr -> inst <> nullptr ->
    destroy_calls d inst td ->
    released d rc = true ->
    load_stops p core
      ([ADlopen p h; ADlsym h CREATE_MODULE_FUNC_NAME f;
        ADlsym h DESTROY_MODULE_FUNC_NAME d; ACreate f (Returns inst);
        AInitialize inst core (Throws e)] ++ td ++ [ADlclose h rc]).

(** The one event a load past the path check broadcasts. *)
Definition load_event (st : Status) : ModuleEventType :=
  match st with Success => Loaded | _ => ErrorLoading end.

(** The invariant of the map: a descriptor is stored under its own name
    with both pointers set, and no two descriptors share a path. *)
Definition registry_ok (m : gmap string ModuleInfo) : Prop :=
  (forall k i, m !! k = Some i ->
     name i = k /\ libraryHandle i <> nullptr /\ instance i <> nullptr) /\
  (forall k1 k2 i1 i2,
     m !! k1 = Some i1 -> m !! k2 = Some i2 -> path i1 = path i2 -> k1 = k2).

(** * Vocabulary of the further properties *)

(** More projections of a trace: the handles [dlopen] returned, the
    handles passed to [dlclose], the instances whose [shutdown] was called,
    the instances passed to the destructor symbol, the lines written to
    [std::cerr]. *)
Definition dlopen_results (t : list Action) : list ptr :=
  omap (fun a => match a with ADlopen _ h => Some h | _ => None end) t.
Definition dlclose_calls (t : list Action) : list ptr :=
  omap (fun a => match a with ADlclose h _ => Some h | _ => None end) t.
Definition destroy_targets (t : list Action) : list ptr :=
  omap (fun a => match a with ADestroy _ inst _ => Some inst | _ => None end) t.
Definition cerr_of (t : list Action) : list string :=
  omap (fun a => match a with ACerr line => Some line | _ => None end) t.

(** The line [broadcastEvent] writes for what a callback did. *)
Definition fault_line (r : outcome unit) : option string :=
  match r with
  | Returns _ => None
  | Throws (StdException what) | Throws (ModuleException what) =>
      Some ("Exception in ModuleEventCallback: " +:+ what)
  | Throws UnknownException => Some "Unknown exception in ModuleEventCallback."
  end.
Definition reports_of (t : list Action) : list string :=
  omap (fun a => match a with ACallback _ _ _ _ r => fault_line r | _ => None end) t.

(** The factory did not deliver: it threw or returned [nullptr]. *)
Definition create_failed (r : outcome ptr) : bool :=
  match r with
  | Returns inst => is_null inst
  | Throws _ => true
  end.

(** A [shutdown] or a destructor symbol that threw. *)
Definition is_fault (a : Action) : bool :=
  match a with
  | AShutdown _ (Throws _) | ADestroy _ _ (Throws _) => true
  | _ => false
  end.
Definition faults (t : list Action) : nat := length (filter is_fault t).

(** The messages of [internalUnloadModule]. *)
Definition shutdown_fault (n : string) (e : thrown) : string :=
  match e with
  | StdException what | ModuleException what =>
      "Exception during " +:+ n +:+ "->shutdown(): " +:+ what
  | UnknownException => "Unknown exception during " +:+ n +:+ "->shutdown()."
  end.
Definition destroy_fault (n : string) (e : thrown) : string :=
  match e with
  | StdException what | ModuleException what =>
      DESTROY_MODULE_FUNC_NAME +:+ " threw an exception for module " +:+ n +:+ ": " +:+ what
  | UnknownException =>
      DESTROY_MODULE_FUNC_NAME +:+ " threw an unknown exception for module " +:+ n +:+ "."
  end.
Definition close_failure (n : string) (e : option string) : string :=
  "Failed to free library for module " +:+ n +:+ " (Error: " +:+ cstr e +:+ ")".

(** The [ErrorUnloading] event a fault of module code brings, if the call
    was made and threw. *)
Definition fault_report (msg : thrown -> string) (info : ModuleInfo)
    (o : option (outcome unit)) : list (ModuleEventType * ModuleInfo * string) :=
  match o with
  | Some (Throws e) => [(ErrorUnloading, info, msg e)]
  | _ => []
  end.

(** One call, if it was made. *)
Definition call_if {A} (o : option A) (act : A -> Action) : list Action :=
  match o with
  | Some r => [act r]
  | None => []
  end.

(** [internalUnloadModule] on a descriptor that is there, step by step:
    what [shutdown] did, what [dlsym] found, what the destructor symbol
    did, what [dlclose] returned and the text of [dlerror]; each counts
    only as far as the pointers of the descriptor let the step happen. *)
Record unload_steps := mkUnloadSteps {
  shutdown_did : outcome unit;
  dlsym_found : ptr;
  destroy_did : outcome unit;
  dlclose_gave : Z;
  dlerror_said : option string
}.

Section Steps.
Variables (n : string) (isReloading : bool) (info : ModuleInfo) (st : unload_steps).

Definition shutdown_step : option (outcome unit) :=
  if is_null (instance info) then None else Some (shutdown_did st).
Definition found_destroyFunc : ptr :=
  if is_null (libraryHandle info) then nullptr else dlsym_found st.
Definition destroy_step : option (outcome unit) :=
  if negb (is_null found_destroyFunc) && negb (is_null (instance info))
  then Some (destroy_did st) else None.
Definition close_step : option Z :=
  if is_null (libraryHandle info) then None else Some (dlclose_gave st).
Definition closed : bool :=
  match close_step with
  | Some rc => bool_decide (rc = 0%Z)
  | None => true
  end.
Definition unloaded_snapshot : ModuleInfo :=
  set_libraryHandle nullptr (set_instance nullptr info).

Definition unload_calls : list Action :=
  call_if shutdown_step (AShutdown (instance info)) ++
  (if is_null (libraryHandle info) then []
   else [ADlsym (libraryHandle info) DESTROY_MODULE_FUNC_NAME (dlsym_found st)]) ++
  call_if destroy_step (ADestroy found_destroyFunc (instance info)) ++
  call_if close_step (ADlclose (libraryHandle info)).

Definition unload_events : list (ModuleEventType * ModuleInfo * string) :=
  fault_report (shutdown_fault n) info shutdown_step ++
  fault_report (destroy_fault n) info destroy_step ++
  (if closed then
     if isReloading then []
     else [(Unloaded, unloaded_snapshot, "Module unloaded successfully.")]
   else [(ErrorUnloading, set_instance nullptr info, close_failure n (dlerror_said st))]).

Definition unload_result : ModuleResult :=
  if closed
  then mkModuleResult Success "Module unloaded successfully." (Some unloaded_snapshot)
  else mkModuleResult Error (close_failure n (dlerror_said st)) (Some (set_instance nullptr info)).

Definition unload_map (m : gmap string ModuleInfo) : gmap string ModuleInfo :=
  if closed then delete n m else m.

End Steps.

(** What [internalUnloadModule] broadcasts only when [isReloading] is
    false: the event that goes with its result. *)
Definition suppressed_events (n : string) (res : ModuleResult)
    : list (ModuleEventType * ModuleInfo * string) :=
  match status res with
  | Success =>
      [(Unloaded, default ModuleInfo_default (module res), "Module unloaded successfully.")]
  | NotFound =>
      [(ErrorUnloading, set_name n ModuleInfo_default, "Module not found for unloading.")]
  | Error => []
  end.

(** What [reloadModule] adds once its two phases have run: the event it
    broadcasts and the result it returns, from the result of the load. *)
Definition reload_event (n modulePath : string) (loadRes : ModuleResult)
    : ModuleEventType * ModuleInfo * string :=
  match status loadRes with
  | Success =>
      (Reloaded, default ModuleInfo_default (module loadRes),
       "Module reloaded successfully.")
  | _ =>
      (ErrorLoading, set_path modulePath (set_name n ModuleInfo_default),
       "Failed to load module during reload: " +:+ message loadRes)
  end.
Definition reload_result (n modulePath : string) (loadRes : ModuleResult)
    : ModuleResult :=
  match status loadRes with
  | Success => mkModuleResult Success "Module reloaded successfully." (module loadRes)
  | _ =>
      mkModuleResult Error ("Reload failed during load phase: " +:+ message loadRes)
        (Some (set_path modulePath (set_name n ModuleInfo_default)))
  end.

(** The pointers the loader was given and the pointers it used: what
    [dlsym] found, the functions it called, the instances the factory
    returned, the handles and instances it passed on, and the pointers it
    gave to [initialize]. *)
Definition symbols_found (t : list Action) : list ptr :=
  omap (fun a => match a with ADlsym _ _ f => Some f | _ => None end) t.
Definition functions_called (t : list Action) : list ptr :=
  omap (fun a => match a with
                 | ACreate f _ | ADestroy f _ _ => Some f
                 | _ => None
                 end) t.
Definition instances_made (t : list Action) : list ptr :=
  omap (fun a => match a with ACreate _ (Returns inst) => Some inst | _ => None end) t.
Definition handles_used (t : list Action) : list ptr :=
  omap (fun a => match a with
                 | ADlsym h _ _ | ADlclose h _ => Some h
                 | _ => None
                 end) t.
Definition instances_used (t : list Action) : list ptr :=
  omap (fun a => match a with
                 | AInitialize inst _ _ | AShutdown inst _ | ADestroy _ inst _
                 | AGetName inst _ | AGetVersion inst _ => Some inst
                 | _ => None
                 end) t.
Definition cores_given (t : list Action) : list ptr :=
  omap (fun a => match a with AInitialize _ core _ => Some core | _ => None end) t.

(** The steps the public operations are made of: a [loadModule], an
    [internalUnloadModule], or a step that neither touches the map nor
    calls the linker or a module. *)
Inductive basic : System -> System -> Prop :=
| basic_load p s res s' :
    loadModule p s = (res, s') -> basic s s'
| basic_unload n r s res s' :
    internalUnloadModule n r s = (res, s') -> basic s s'
| basic_silent s s' t :
    frame s s' t -> foreign_of t = [] ->
    CppLoadedModules s' = CppLoadedModules s -> basic s s'.

(** Every pointer an operation passed on or called through. *)
Definition pointers_used (t : list Action) : list ptr :=
  handles_used t ++ functions_called t ++ instances_used t.

(** The loader passes on only what it was given: handles [dlopen]
    returned, functions [dlsym] found, instances the factory returned, and
    to [initialize] the pointer of the constructor. *)
Definition given_only (coreAccess : ptr) (t : list Action) : Prop :=
  handles_used t ⊆ dlopen_results t /\
  functions_called t ⊆ symbols_found t /\
  instances_used t ⊆ instances_made t /\
  Forall (eq coreAccess) (cores_given t).

(** The handles of the descriptors in the map. *)
Definition handles_held (m : gmap string ModuleInfo) : list ptr :=
  libraryHandle <$> (entries m).*2.

(** An entry of the trace is what the platform answered: called in the
    world [w], the platform gave the result the entry shows and left the
    world [w'].  A broadcast and a line on [std::cerr] are the loader's own
    and leave the world alone. *)
Definition answered (a : Action) (w w' : W) : Prop :=
  match a with
  | ADlopen p h => dlopen p w = (h, w')
  | ADlsym h symbol f => dlsym h symbol w = (f, w')
  | ADlclose h rc => dlclose h w = (rc, w')
  | ADlerror e => dlerror w = (e, w')
  | ACreate f r => call_create f w = (r, w')
  | AInitialize inst core r => module_initialize inst core w = (r, w')
  | AShutdown inst r => module_shutdown inst w = (r, w')
  | ADestroy f inst r => call_destroy f inst w = (r, w')
  | AGetName inst n => module_getName inst w = n /\ w' = w
  | AGetVersion inst v => module_getVersion inst w = v /\ w' = w
  | ACallback cb ty info msg r => call_callback cb ty info msg w = (r, w')
  | ABroadcast _ _ _ | ACerr _ => w' = w
  end.

(** A trace is the record of what the platform answered, call after call,
    from the world [w] to the world [w']. *)
Fixpoint answers (w : W) (t : list Action) (w' : W) : Prop :=
  match t with
  | [] => w' = w
  | a :: t' => exists w1, answered a w w1 /\ answers w1 t' w'
  end.

(** What a computation adds to the trace, whatever the state it starts
    from, satisfies [Q] between the world before and the world after. *)
Definition emits (Q : W -> list Action -> W -> Prop) {R} (m : System -> R * System)
    : Prop :=
  forall s, exists t, trace (m s).2 = trace s ++ t /\ Q (world s) t (world (m s).2).

(** The loop of the destructor, module by module: the name, the
    descriptor and the steps of each internal unload; the calls and the
    events they add up to, and the names the loop erases, those whose
    library closed. *)
Definition teardown_calls (steps : list (string * ModuleInfo * unload_steps))
    : list Action :=
  concat ((fun x => unload_calls x.1.2 x.2) <$> steps).
Definition teardown_events (steps : list (string * ModuleInfo * unload_steps))
    : list (ModuleEventType * ModuleInfo * string) :=
  concat ((fun x => unload_events x.1.1 true x.1.2 x.2) <$> steps).
Definition teardown_gone (steps : list (string * ModuleInfo * unload_steps))
    : list string :=
  omap (fun x => if closed x.1.2 x.2 then Some x.1.1 else None) steps.

(** What the loop of [broadcastEvent] leaves for one callback: its run
    and, if it threw, the line on [std::cerr]. *)
Definition notified (cb : Callback) (ty : ModuleEventType) (info : ModuleInfo)
    (msg : string) (r : outcome unit) : list Action :=
  ACallback cb ty info msg r :: match fault_line r with
                                | Some line => [ACerr line]
                                | None => []
                                end.

(** What the loop of [broadcastEvent] leaves for the callbacks [l], given
    what each of them did. *)
Definition deliveries (ty : ModuleEventType) (info : ModuleInfo) (msg : string)
    (l : list Callback) (rs : list (outcome unit)) : list Action :=
  concat (zip_with (fun cb r => notified cb ty info msg r) l rs).

End Loader.

(** * A concrete platform

    Four libraries: ["/x/echo.so"] is well behaved and names itself
    ["Echo"], version ["1.0.0"]; ["/x/copy.so"] is another build that also
    names itself ["Echo"]; ["/x/stuck.so"] cannot be closed; the module of
    ["/x/morph.so"] names itself ["Morph"] the first time it is created and
    ["Morph2"] afterwards.  The world counts the factory calls made so far.
    Callback 1 throws a [std::exception], every other callback returns. *)
Module Toy.

Definition handle_of (p : string) : ptr :=
  if decide (p = "/x/echo.so") then 1%N
  else if decide (p = "/x/copy.so") then 2%N
  else if decide (p = "/x/stuck.so") then 3%N
  else if decide (p = "/x/morph.so") then 4%N
  else 0%N.

(** An instance remembers its library in its last decimal digit. *)
Definition library_of (inst : ptr) : N := (inst `mod` 10)%N.

Definition name_of (inst : ptr) : string :=
  match library_of inst with
  | 1 | 2 => "Echo"
  | 3 => "Stuck"
  | 4 => if decide (inst = 14%N) then "Morph" else "Morph2"
  | _ => ""
  end%N.

#[export] Instance platform : Platform nat := {|
  dlopen p w := (handle_of p, w);
  dlsym h symbol w :=
    (if decide (symbol = CREATE_MODULE_FUNC_NAME) then (100 + h)%N
     else if decide (symbol = DESTROY_MODULE_FUNC_NAME) then (200 + h)%N
     else 0%N, w);
  dlclose h w := (if decide (h = 3%N) then (-1)%Z else 0%Z, w);
  dlerror w := (Some "no such file", w);
  call_create f w := (Returns (10 * N.of_nat (S w) + (f - 100))%N, S w);
  call_destroy f inst w := (Returns tt, w);
  module_initialize inst core w := (Returns tt, w);
  module_shutdown inst w := (Returns tt, w);
  module_getName inst w := name_of inst;
  module_getVersion inst w := "1.0.0";
  call_callback cb ty info msg w :=
    (if decide (cb = 1) then Throws (StdException "boom") else Returns tt, w)
|}.

Definition start : System := fresh 0 77%N.

End Toy.

(** ** States of the concrete platform *)

Module Scenario.
Import Toy.

Definition echo_info : ModuleInfo :=
  mkModuleInfo "Echo" "1.0.0" "/x/echo.so" 1%N 11%N.
Definition stuck_info : ModuleInfo :=
  mkModuleInfo "Stuck" "1.0.0" "/x/stuck.so" 3%N 13%N.
Definition morph_info : ModuleInfo :=
  mkModuleInfo "Morph" "1.0.0" "/x/morph.so" 4%N 14%N.

Definition echo_loaded : System := run [OpLoad "/x/echo.so"] Toy.start.
Definition stuck_loaded : System := run [OpLoad "/x/stuck.so"] Toy.start.
Definition morph_loaded : System := run [OpLoad "/x/morph.so"] Toy.start.

End Scenario.

(** ** A platform with faults

    Seven libraries, none of which loads and unloads cleanly:
    ["/f/plain.so"] exports no factory symbol; the factory of
    ["/f/null.so"] returns [nullptr]; the factory of ["/f/throw.so"]
    throws a [std::runtime_error], that of ["/f/own.so"] an exception of a
    class of its own; the module of ["/f/init.so"] throws from [initialize]
    and calls itself ["Init"]; so does the module of ["/f/kept.so"],
    ["Kept"], a library without destructor symbol that does not close; the
    module of ["/f/stop.so"], ["Stop"], loads, but its [shutdown] and its
    destructor symbol both throw.  Nothing here has state. *)
Module Faulty.

Definition handle_of (p : string) : ptr :=
  if decide (p = "/f/plain.so") then 5%N
  else if decide (p = "/f/null.so") then 6%N
  else if decide (p = "/f/throw.so") then 7%N
  else if decide (p = "/f/init.so") then 8%N
  else if decide (p = "/f/stop.so") then 9%N
  else if decide (p = "/f/own.so") then 10%N
  else if decide (p = "/f/kept.so") then 11%N
  else 0%N.

Definition name_of (inst : ptr) : string :=
  if decide (inst = 18%N) then "Init"
  else if decide (inst = 19%N) then "Stop"
  else if decide (inst = 21%N) then "Kept"
  else "".

#[export] Instance platform : Platform unit := {|
  dlopen p w := (handle_of p, w);
  dlsym h symbol w :=
    (if decide (symbol = CREATE_MODULE_FUNC_NAME)
     then (if decide (h = 5%N) then 0 else 100 + h)%N
     else if decide (symbol = DESTROY_MODULE_FUNC_NAME)
     then (if decide (h = 11%N) then 0 else 200 + h)%N
     else 0%N, w);
  dlclose h w := (if decide (h = 11%N) then (-1)%Z else 0%Z, w);
  dlerror w := (Some "undefined symbol", w);
  call_create f w :=
    (if decide (f = 106%N) then Returns nullptr
     else if decide (f = 107%N) then Throws (StdException "out of memory")
     else if decide (f = 110%N) then Throws (ModuleException "bad plugin")
     else Returns (f - 90)%N, w);
  call_destroy f inst w :=
    (if decide (f = 209%N) then Throws UnknownException else Returns tt, w);
  module_initialize inst core w :=
    (if decide (inst = 18%N) then Throws (StdException "no configuration")
     else if decide (inst = 21%N) then Throws UnknownException
     else Returns tt, w);
  module_shutdown inst w :=
    (if decide (inst = 19%N) then Throws (StdException "busy") else Returns tt, w);
  module_getName inst w := name_of inst;
  module_getVersion inst w := "0.1";
  call_callback cb ty info msg w := (Returns tt, w)
|}.

Definition start : System := fresh tt 55%N.

Definition stop_info : ModuleInfo :=
  mkModuleInfo "Stop" "0.1" "/f/stop.so" 9%N 19%N.
Definition stop_loaded : System := run [OpLoad "/f/stop.so"] start.

End Faulty.

(** * Properties *)

Section Properties.
Context {W : Type} {P : Platform W}.
Implicit Types (s : @System W).

(** ** Pointers *)

Lemma is_null_false p : is_null p = false -> p <> nullptr.
Proof. unfold is_null. by intros ?%N.eqb_neq. Qed.

Lemma is_null_true p : is_null p = true -> p = nullptr.
Proof. unfold is_null. by intros ?%N.eqb_eq. Qed.

(** ** Traces *)

Lemma events_of_app t1 t2 : events_of (t1 ++ t2) = events_of t1 ++ events_of t2.
Proof. apply omap_app. Qed.

Lemma callbacks_of_app t1 t2 :
  callbacks_of (t1 ++ t2) = callbacks_of t1 ++ callbacks_of t2.
Proof. apply omap_app. Qed.

Lemma foreign_of_app t1 t2 : foreign_of (t1 ++ t2) = foreign_of t1 ++ foreign_of t2.
Proof. apply filter_app. Qed.

Lemma count_events_app ty t1 t2 :
  count_events ty (t1 ++ t2) = count_events ty t1 + count_events ty t2.
Proof. unfold count_events. by rewrite events_of_app, filter_app, length_app. Qed.

Lemma noise_events t : forallb is_noise t = true -> events_of t = [].
Proof.
  induction t as [|a t IH]; [done|]. simpl. intros [Ha Ht]%andb_true_iff.
  unfold events_of in *. destruct a; simpl in *; try done; by apply IH.
Qed.

Lemma noise_foreign t : forallb is_noise t = true -> foreign_of t = [].
Proof.
  induction t as [|a t IH]; [done|]. simpl. intros [Ha Ht]%andb_true_iff.
  unfold foreign_of in *.
  rewrite filter_cons_False; [by apply IH|].
  destruct a; simpl in *; try done; intros [].
Qed.

Lemma added_app s s' t : trace s' = trace s ++ t -> added s s' = t.
Proof. unfold added. intros ->. by rewrite drop_app_length. Qed.

(** ** [broadcastEvent] *)

Lemma notify_spec ty info msg cb s :
  exists s' t,
    notify ty info msg cb s = (Returns tt, s') /\
    CppLoadedModules s' = CppLoadedModules s /\
    CppCoreAccess s' = CppCoreAccess s /\
    trace s' = trace s ++ t /\
    forallb is_noise t = true /\
    callbacks_of t = [cb].
Proof.
  unfold notify, bind, attempt, callback_call, foreign.
  destruct (call_callback cb ty info msg (world s)) as [r w].
  destruct r as [[]|[what|what|]]; simpl.
  - eexists _, [_]. repeat split.
  - eexists _, [_; _]. split; [reflexivity|]. simpl.
    rewrite <- app_assoc. repeat split.
  - eexists _, [_; _]. split; [reflexivity|]. simpl.
    rewrite <- app_assoc. repeat split.
  - eexists _, [_; _]. split; [reflexivity|]. simpl.
    rewrite <- app_assoc. repeat split.
Qed.

Lemma for_each_notify_spec ty info msg l : forall s,
  exists s' t,
    for_each l (notify ty info msg) s = (Returns tt, s') /\
    CppLoadedModules s' = CppLoadedModules s /\
    CppCoreAccess s' = CppCoreAccess s /\
    trace s' = trace s ++ t /\
    forallb is_noise t = true /\
    callbacks_of t = l.
Proof.
  induction l as [|cb l IH]; intros s.
  - exists s, []. simpl. rewrite app_nil_r. by repeat split.
  - destruct (notify_spec ty info msg cb s) as (s1 & t1 & E1 & Hm1 & Hc1 & Ht1 & Hn1 & Hcb1).
    destruct (IH s1) as (s2 & t2 & E2 & Hm2 & Hc2 & Ht2 & Hn2 & Hcb2).
    exists s2, (t1 ++ t2). simpl. unfold bind at 1. rewrite E1, E2.
    split; [done|]. split; [congruence|]. split; [congruence|].
    split; [by rewrite Ht2, Ht1, app_assoc|].
    split; [by rewrite forallb_app, Hn1, Hn2|].
    by rewrite callbacks_of_app, Hcb1, Hcb2.
Qed.

Lemma broadcastEvent_spec ty info msg s :
  exists s' t,
    broadcastEvent ty info msg s = (Returns tt, s') /\
    CppLoadedModules s' = CppLoadedModules s /\
    CppCoreAccess s' = CppCoreAccess s /\
    trace s' = trace s ++ ABroadcast ty info msg :: t /\
    forallb is_noise t = true /\
    callbacks_of t = CppEventCallbacks s.
Proof.
  unfold broadcastEvent, bind, log, gets. simpl.
  match goal with |- context [for_each _ _ ?s0] =>
    destruct (for_each_notify_spec ty info msg (CppEventCallbacks s) s0)
      as (s' & t & E & Hm & Hc & Ht & Hn & Hcb) end.
  exists s', t. rewrite E. simpl in *.
  repeat split; try done. by rewrite Ht, <- app_assoc.
Qed.

(** ** Symbolic execution of the monad *)

Lemma frame_added s s' t : frame s s' t -> added s s' = t.
Proof. intros [_ H]. by apply added_app. Qed.

Ltac exec_broadcast :=
  match goal with
  | |- context [broadcastEvent ?ty ?i ?m ?s] =>
      let s' := fresh "s" in
      let t := fresh "t" in
      let E := fresh "E" in
      destruct (broadcastEvent_spec ty i m s) as (s' & t & E & ? & ? & ? & ? & _);
      rewrite E; clear E
  end.

Ltac exec_call :=
  match goal with
  | |- context [module_shutdown ?a ?w] =>
      destruct (module_shutdown a w) as [[[]|[?|?|]] ?] eqn:?
  | |- context [module_initialize ?a ?b ?w] =>
      destruct (module_initialize a b w) as [[[]|[?|?|]] ?] eqn:?
  | |- context [call_destroy ?a ?b ?w] =>
      destruct (call_destroy a b w) as [[[]|[?|?|]] ?] eqn:?
  | |- context [call_create ?a ?w] =>
      destruct (call_create a w) as [[?|[?|?|]] ?] eqn:?
  | |- context [dlopen ?a ?w] => destruct (dlopen a w) as [? ?] eqn:?
  | |- context [dlsym ?a ?b ?w] => destruct (dlsym a b w) as [? ?] eqn:?
  | |- context [dlclose ?a ?w] => destruct (dlclose a w) as [? ?] eqn:?
  | |- context [dlerror ?w] => destruct (dlerror w) as [? ?] eqn:?
  end.

Ltac exec_unfold :=
  progress (unfold bind_u, lift, undefined, bind, ret, gets, attempt, log, linker,
     foreign, accessor, set_modules, os_dlopen, os_dlsym, os_dlclose, os_dlerror, createFunc_call,
     destroyFunc_call, initialize, shutdown, getName, getVersion, cerr;
   cbn beta iota zeta delta
     [world CppLoadedModules CppEventCallbacks CppCoreAccess trace fst snd]).

Ltac exec := repeat first [exec_unfold | exec_broadcast | exec_call].

(** Bring the equations a broadcast left about its final state to the
    state the lemma started from. *)
Ltac settle :=
  unfold frame;
  cbn beta iota zeta delta
    [world CppLoadedModules CppEventCallbacks CppCoreAccess trace fst snd] in *;
  repeat match goal with
         | H : trace ?x = _ |- _ => is_var x; rewrite ?H in *; clear H
         | H : CppLoadedModules ?x = _ |- _ => is_var x; rewrite ?H in *; clear H
         | H : CppCoreAccess ?x = _ |- _ => is_var x; rewrite ?H in *; clear H
         end.

Ltac frame_done :=
  split; [reflexivity |
          first [ symmetry; apply app_nil_r | rewrite <- ?app_assoc; reflexivity ]].

(** ** The stages of [internalUnloadModule] *)

Lemma noise_teardown t : forallb is_noise t = true -> forallb is_teardown t = true.
Proof.
  induction t as [|a t IH]; [done|]. simpl. intros [Ha Ht]%andb_true_iff.
  rewrite IH by done. by destruct a.
Qed.

Lemma teardown_close_failed t : forallb is_teardown t = true -> close_failed t = false.
Proof.
  induction t as [|a t IH]; [done|]. simpl. intros [Ha Ht]%andb_true_iff.
  rewrite IH by done. by destruct a.
Qed.

Lemma noise_close_failed t : forallb is_noise t = true -> close_failed t = false.
Proof. intros. by apply teardown_close_failed, noise_teardown. Qed.

Lemma close_failed_app t1 t2 :
  close_failed (t1 ++ t2) = close_failed t1 || close_failed t2.
Proof. apply existsb_app. Qed.

Lemma teardown_count ty t :
  forallb is_teardown t = true -> ty <> ErrorUnloading -> count_events ty t = 0.
Proof.
  intros Ht Hty. induction t as [|a t IH]; [done|].
  simpl in Ht. apply andb_true_iff in Ht as [Ha Ht].
  change (a :: t) with ([a] ++ t). rewrite count_events_app, IH by done.
  destruct a as [| | | | | | | | | |[] ? ?| |]; try done.
  unfold count_events. simpl. rewrite filter_cons_False; [done|]. simpl. congruence.
Qed.

Lemma shutdown_instance_spec n info s :
  exists s' t,
    shutdown_instance n info s = (Returns tt, s') /\
    frame s s' t /\
    CppLoadedModules s' = CppLoadedModules s /\
    forallb is_teardown t = true /\
    (instance info <> nullptr -> exists o, AShutdown (instance info) o ∈ t).
Proof.
  unfold shutdown_instance.
  destruct (is_null (instance info)) eqn:Hi; exec;
    eexists _, _; (split; [reflexivity|]); settle; (split; [frame_done|]);
    (split; [reflexivity|]); (split; [cbn; auto using noise_teardown|]).
  - intros []. by apply is_null_true.
  - intros _. eexists. by left.
  - intros _. eexists. by left.
  - intros _. eexists. by left.
  - intros _. eexists. by left.
Qed.

Lemma destroy_instance_spec n info s :
  exists s' t,
    destroy_instance n info s = (Returns tt, s') /\
    frame s s' t /\
    CppLoadedModules s' = CppLoadedModules s /\
    forallb is_teardown t = true.
Proof.
  unfold destroy_instance.
  destruct (is_null (libraryHandle info)); exec;
    repeat match goal with
           | |- context [is_null ?x] => destruct (is_null x)
           end; cbn [negb andb]; exec;
    eexists _, _; (split; [reflexivity|]); settle; (split; [frame_done|]);
    (split; [reflexivity|]); cbn; auto using noise_teardown.
Qed.

(** ** Reading a trace piece by piece *)

Lemma events_of_cons a t :
  events_of (a :: t) =
    match event_of a with Some e => e :: events_of t | None => events_of t end.
Proof. reflexivity. Qed.

Lemma foreign_of_cons a t :
  foreign_of (a :: t) = if is_foreign a then a :: foreign_of t else foreign_of t.
Proof.
  unfold foreign_of. destruct (is_foreign a) eqn:E.
  - rewrite filter_cons_True; [done|]. rewrite E. exact I.
  - rewrite filter_cons_False; [done|]. rewrite E. intros [].
Qed.

Lemma close_failed_cons a t :
  close_failed (a :: t) =
    match a with ADlclose _ rc => negb (rc =? 0)%Z | _ => false end || close_failed t.
Proof. reflexivity. Qed.

Ltac read_trace :=
  repeat first
    [ rewrite events_of_app | rewrite foreign_of_app | rewrite close_failed_app
    | rewrite events_of_cons | rewrite foreign_of_cons | rewrite close_failed_cons
    | match goal with
      | H : forallb is_noise ?t = true |- context [events_of ?t] =>
          rewrite (noise_events t H)
      | H : forallb is_noise ?t = true |- context [foreign_of ?t] =>
          rewrite (noise_foreign t H)
      | H : forallb is_noise ?t = true |- context [close_failed ?t] =>
          rewrite (noise_close_failed t H)
      end
    | progress change (events_of []) with (@nil (ModuleEventType * ModuleInfo * string))
    | progress change (foreign_of []) with (@nil Action)
    | progress change (close_failed []) with false
    | rewrite app_nil_r
    | progress cbn [event_of is_foreign app orb negb] ].

Lemma close_library_spec n r info s :
  exists res s' t,
    close_library n r info s = (Returns res, s') /\
    frame s s' t /\
    close_outcome n r info (CppLoadedModules s) (CppLoadedModules s') res t.
Proof.
  unfold close_library, finish_unload.
  destruct (is_null (libraryHandle info)) eqn:Hh.
  - destruct r; cbn [negb]; exec;
      eexists _, _, _; (split; [reflexivity|]); settle; (split; [frame_done|]);
      right; read_trace; done.
  - exec. destruct (decide (z <> 0%Z)) as [Hz|Hz].
    + exec. eexists _, _, _; (split; [reflexivity|]); settle; (split; [frame_done|]).
      left. split; [|split; [by apply is_null_false|split; [done|]]].
      * read_trace. apply Z.eqb_neq in Hz. by rewrite Hz.
      * eexists. split; [reflexivity|]. by read_trace.
    + assert (z = 0%Z) as -> by (destruct (decide (z = 0%Z)); [done|contradiction]).
      destruct r; cbn [negb]; exec;
        eexists _, _, _; (split; [reflexivity|]); settle; (split; [frame_done|]);
        right; read_trace; done.
Qed.

(** ** [internalUnloadModule], whole *)

Lemma internalUnloadModule_absent n r s :
  CppLoadedModules s !! n = None ->
  exists s' t,
    internalUnloadModule n r s =
      (Returns (mkModuleResult NotFound ("Module not found: " +:+ n) None), s') /\
    frame s s' t /\
    CppLoadedModules s' = CppLoadedModules s /\
    foreign_of t = [] /\
    events_of t =
      if r then []
      else [(ErrorUnloading, set_name n ModuleInfo_default,
             "Module not found for unloading.")].
Proof.
  intros Hn. unfold internalUnloadModule. unfold bind at 1, gets at 1.
  rewrite Hn. destruct r; cbn [negb]; exec;
    eexists _, _; (split; [reflexivity|]); settle; (split; [frame_done|]);
    (split; [reflexivity|]); by read_trace.
Qed.

Lemma internalUnloadModule_present n r info s :
  CppLoadedModules s !! n = Some info ->
  exists res s' t1 t2,
    internalUnloadModule n r s = (Returns res, s') /\
    frame s s' (t1 ++ t2) /\
    forallb is_teardown t1 = true /\
    close_outcome n r (set_instance nullptr info)
      (CppLoadedModules s) (CppLoadedModules s') res t2.
Proof.
  intros Hn. unfold internalUnloadModule. unfold bind at 1, gets at 1.
  rewrite Hn.
  destruct (shutdown_instance_spec n info s)
    as (s1 & ta & E1 & [Hc1 Ht1] & Hm1 & Hta & _).
  destruct (destroy_instance_spec n info s1) as (s2 & tb & E2 & [Hc2 Ht2] & Hm2 & Htb).
  destruct (close_library_spec n r (set_instance nullptr info) s2)
    as (res & s3 & tc & E3 & [Hc3 Ht3] & Hout).
  unfold bind. rewrite E1, E2, E3.
  exists res, s3, (ta ++ tb), tc. split; [done|]. split; [|split].
  - split; [congruence|]. by rewrite Ht3, Ht2, Ht1, !app_assoc.
  - by rewrite forallb_app, Hta, Htb.
  - by rewrite <- Hm1, <- Hm2.
Qed.

(** ** [loadModule], path by path *)

Lemma destroy_quietly_spec d inst s :
  exists s' t,
    destroy_quietly d inst s = (Returns tt, s') /\
    frame s s' t /\
    CppLoadedModules s' = CppLoadedModules s /\
    destroy_calls d inst t.
Proof.
  unfold destroy_quietly, destroy_calls.
  destruct (is_null d); exec;
    eexists _, _; (split; [reflexivity|]); settle; (split; [frame_done|]);
    (split; [reflexivity|]); eauto.
Qed.

Lemma destroy_calls_events d inst t : destroy_calls d inst t -> events_of t = [].
Proof. unfold destroy_calls. destruct (is_null d); [by intros ->|by intros [o ->]]. Qed.

Lemma destroy_calls_foreign d inst t : destroy_calls d inst t -> foreign_of t = t.
Proof. unfold destroy_calls. destruct (is_null d); [by intros ->|by intros [o ->]]. Qed.

Lemma destroy_calls_close_failed d inst t :
  destroy_calls d inst t -> close_failed t = false.
Proof. unfold destroy_calls. destruct (is_null d); [by intros ->|by intros [o ->]]. Qed.

Ltac exec_if :=
  match goal with
  | |- context [if is_null ?x then _ else _] => destruct (is_null x) eqn:?
  | |- context [if decide ?P then _ else _] => destruct (decide P)
  | |- context [if released ?d ?rc then _ else _] => destruct (released d rc) eqn:?
  end.

Ltac exec_destroy :=
  match goal with
  | |- context [destroy_quietly ?d ?i ?s] =>
      let s' := fresh "s" in
      let t := fresh "td" in
      let E := fresh "E" in
      destruct (destroy_quietly_spec d i s) as (s' & t & E & [? ?] & ? & ?);
      rewrite E; clear E
  end.

Ltac read_load_trace :=
  repeat first
    [ progress read_trace
    | match goal with
      | H : destroy_calls _ _ ?t |- context [events_of ?t] =>
          rewrite (destroy_calls_events _ _ t H)
      | H : destroy_calls _ _ ?t |- context [foreign_of ?t] =>
          rewrite (destroy_calls_foreign _ _ t H)
      | H : destroy_calls _ _ ?t |- context [close_failed ?t] =>
          rewrite (destroy_calls_close_failed _ _ t H)
      end ].

Ltac exec_load :=
  repeat first [exec_unfold | exec_if | exec_destroy | exec_call | exec_broadcast].

Lemma loadModule_spec p s :
  match find_path p (entries (CppLoadedModules s)) with
  | Some info =>
      loadModule p s =
        (Returns (mkModuleResult Error
                    ("Module from this path is already loaded: " +:+ p) (Some info)), s)
  | None =>
      exists r s' t,
        loadModule p s = (r, s') /\
        frame s s' t /\
        ((exists st info msg,
            r = Returns (mkModuleResult st msg (Some info)) /\
            events_of t = [(load_event st, info, msg)] /\
            load_path p (CppCoreAccess s) (CppLoadedModules s) st info msg
              (CppLoadedModules s') (foreign_of t))
         \/
         (r = Undefined /\
          events_of t = [] /\
          CppLoadedModules s' = CppLoadedModules s /\
          load_stops p (CppCoreAccess s) (foreign_of t)))
  end.
Proof.
  destruct (find_path p (entries (CppLoadedModules s))) as [info|] eqn:Hfind;
    unfold loadModule; unfold bind_u at 1, lift at 1, gets at 1; cbn beta iota;
    rewrite Hfind; [done|].
  unfold fail_load. exec_load.
  all: eexists _, _, _; (split; [reflexivity|]); settle; (split; [frame_done|]).
  all: repeat match goal with
              | H : is_null _ = true |- _ => apply is_null_true in H; subst
              | H : is_null _ = false |- _ => apply is_null_false in H
              end.
  all: first [ left; eexists _, _, _; split; [reflexivity|]
             | right; split; [reflexivity|] ].
  all: split; [by read_load_trace|].
  all: try (split; [reflexivity|]).
  all: read_load_trace.
  all: try (econstructor; by eauto).
  all: lazymatch goal with
       | |- load_path _ _ _ _ _ _ _ [_; _; _; ACreate _ ?r; _] =>
           apply (path_factory_failed _ _ _ _ _ _ r); auto;
           first [ by intros ? [= <-] | by intros ? [=]
                 | by cbn; apply bool_decide_eq_false ]
       | |- load_path _ _ _ Success _ _ _ _ =>
           apply path_loaded; auto; by apply eq_None_not_Some
       | |- load_path _ _ _ _ _ _ _
              (_ :: _ :: _ :: _ :: AInitialize _ _ (Throws ?e) :: _) =>
           by apply (path_initialize_threw _ _ _ _ _ _ _ e)
       end.
Qed.

Lemma load_path_success p core m info msg m' calls :
  load_path p core m Success info msg m' calls ->
  msg = "Module loaded successfully." /\
  path info = p /\
  libraryHandle info <> nullptr /\
  instance info <> nullptr /\
  m !! name info = None /\
  m' = <[name info := info]> m /\
  AGetName (instance info) (name info) ∈ calls /\
  close_failed calls = false.
Proof.
  inversion 1; subst. repeat split; try done. cbn [instance name]. set_solver.
Qed.

Lemma load_path_failure p core m st info msg m' calls :
  load_path p core m st info msg m' calls -> st <> Success ->
  st = Error /\ m' = m /\ path info = p.
Proof. by inversion 1. Qed.

(** ** The map in key order *)

Lemma elem_of_entries (m : gmap string ModuleInfo) k i :
  (k, i) ∈ entries m <-> m !! k = Some i.
Proof.
  unfold entries. rewrite merge_sort_Permutation. apply elem_of_map_to_list.
Qed.

Lemma NoDup_entries_keys (m : gmap string ModuleInfo) : NoDup (entries m).*1.
Proof.
  unfold entries. rewrite merge_sort_Permutation. apply NoDup_fst_map_to_list.
Qed.

Lemma find_path_Some p l i :
  find_path p l = Some i -> path i = p /\ exists k, (k, i) ∈ l.
Proof.
  induction l as [|[k j] l IH]; [done|]. simpl.
  destruct (decide (path j = p)) as [Hj|Hj].
  - intros [= <-]. split; [done|]. exists k. left.
  - intros [? [k' ?]]%IH. split; [done|]. exists k'. by right.
Qed.

Lemma find_path_None p l :
  find_path p l = None -> forall k i, (k, i) ∈ l -> path i <> p.
Proof.
  induction l as [|[k j] l IH]; [by intros _ ?? ?%elem_of_nil|]. simpl.
  destruct (decide (path j = p)) as [Hj|Hj]; [done|].
  intros Hl k' i [[= -> ->]|Hin]%elem_of_cons; [done|]. by eapply IH.
Qed.

(** ** What every reachable map satisfies *)

Lemma registry_ok_empty : registry_ok ∅.
Proof. split; intros *; by rewrite lookup_empty. Qed.

Lemma registry_ok_delete n m : registry_ok m -> registry_ok (delete n m).
Proof.
  intros [Hk Hp]. split.
  - intros k i [_ H]%lookup_delete_Some. by apply Hk.
  - intros k1 k2 i1 i2 [_ H1]%lookup_delete_Some [_ H2]%lookup_delete_Some.
    by apply Hp.
Qed.

Lemma registry_ok_insert m info :
  registry_ok m ->
  libraryHandle info <> nullptr -> instance info <> nullptr ->
  (forall k i, m !! k = Some i -> path i <> path info) ->
  registry_ok (<[name info := info]> m).
Proof.
  intros [Hk Hp] Hh Hi Hfresh. split.
  - intros k i [[<- <-]|[_ H]]%lookup_insert_Some; [done|]. by apply Hk.
  - intros k1 k2 i1 i2 [[<- <-]|[? H1]]%lookup_insert_Some
      [[<- <-]|[? H2]]%lookup_insert_Some E; try done.
    + by destruct (Hfresh _ _ H2).
    + by destruct (Hfresh _ _ H1).
    + by eapply Hp.
Qed.

(** ** [reloadModule] *)

Lemma count_events_cons a t ty :
  count_events ty (a :: t) =
    match event_of a with
    | Some e => if decide (e.1.1 = ty) then S (count_events ty t) else count_events ty t
    | None => count_events ty t
    end.
Proof.
  unfold count_events. rewrite events_of_cons. destruct (event_of a) as [e|]; [|done].
  destruct (decide (e.1.1 = ty)).
  - by rewrite filter_cons_True.
  - by rewrite filter_cons_False.
Qed.

Lemma noise_count ty t : forallb is_noise t = true -> count_events ty t = 0.
Proof. intros H. unfold count_events. by rewrite noise_events. Qed.

Lemma count_events_last ty t info msg :
  last (events_of t) = Some (ty, info, msg) -> 0 < count_events ty t.
Proof.
  unfold count_events. intros H.
  destruct (events_of t) as [|e l] using rev_ind; [done|].
  rewrite last_snoc in H. injection H as ->.
  rewrite filter_app, length_app, filter_cons_True by done. simpl. lia.
Qed.

Lemma reloadModule_absent n s :
  CppLoadedModules s !! n = None ->
  reloadModule n s =
    (Returns (mkModuleResult NotFound ("Module not found for reload: " +:+ n)
                (Some (set_name n ModuleInfo_default))), s).
Proof.
  intros Hn. unfold reloadModule. unfold bind_u at 1, lift at 1, gets at 1.
  cbn beta iota. by rewrite Hn.
Qed.

Lemma close_failed_foreign t : close_failed (foreign_of t) = close_failed t.
Proof.
  induction t as [|a t IH]; [done|].
  rewrite foreign_of_cons. destruct a; cbn [is_foreign]; rewrite ?close_failed_cons;
    by rewrite IH.
Qed.

Lemma foreign_elem_of a t : a ∈ foreign_of t -> a ∈ t.
Proof. unfold foreign_of. by intros [_ ?]%list_elem_of_filter. Qed.

(** ** What [loadModule] comes to *)

Lemma loadModule_returned p s res s' :
  find_path p (entries (CppLoadedModules s)) = None ->
  loadModule p s = (Returns res, s') ->
  exists st info msg t,
    res = mkModuleResult st msg (Some info) /\
    frame s s' t /\
    events_of t = [(load_event st, info, msg)] /\
    load_path p (CppCoreAccess s) (CppLoadedModules s) st info msg
      (CppLoadedModules s') (foreign_of t).
Proof.
  intros Hfind Hrun. pose proof (loadModule_spec p s) as HL. rewrite Hfind in HL.
  destruct HL as (r & s1 & t & E & Hf & [(st & info & msg & -> & Hev & Hpath)|(-> & _)]);
    rewrite E in Hrun; [|discriminate Hrun].
  injection Hrun as <- <-. by exists st, info, msg, t.
Qed.

Lemma loadModule_result p s :
  (exists res s', loadModule p s = (Returns res, s')) \/
  (exists s', loadModule p s = (Undefined, s')).
Proof.
  pose proof (loadModule_spec p s) as HL.
  destruct (find_path p (entries (CppLoadedModules s))); [left; by eauto|].
  destruct HL as (r & s' & t & E & _ & [(st & info & msg & -> & _)|(-> & _)]);
    [left|right]; eauto.
Qed.

Lemma frame_refl s : frame s s [].
Proof. split; [done|]. by rewrite app_nil_r. Qed.

Lemma frame_trans s s1 s2 t1 t2 :
  frame s s1 t1 -> frame s1 s2 t2 -> frame s s2 (t1 ++ t2).
Proof.
  intros [Hc1 Ht1] [Hc2 Ht2]. split; [congruence|].
  by rewrite Ht2, Ht1, app_assoc.
Qed.

Lemma loadModule_frame p s r s' :
  loadModule p s = (r, s') -> exists t, frame s s' t.
Proof.
  intros Hrun. pose proof (loadModule_spec p s) as HL.
  destruct (find_path p (entries (CppLoadedModules s))).
  - rewrite HL in Hrun. injection Hrun as <- <-. exists []. apply frame_refl.
  - destruct HL as (r1 & s1 & t & E & Hf & _).
    rewrite E in Hrun. injection Hrun as <- <-. by exists t.
Qed.

Lemma internalUnloadModule_returns n r s :
  exists res s', internalUnloadModule n r s = (Returns res, s').
Proof.
  destruct (CppLoadedModules s !! n) as [info|] eqn:Hn.
  - destruct (internalUnloadModule_present n r info s Hn)
      as (res & s' & t1 & t2 & E & _). eauto.
  - destruct (internalUnloadModule_absent n r s Hn) as (s' & t & E & _). eauto.
Qed.

(** ** The phases of [reloadModule] *)

Lemma reloadModule_unload_failed n found s ures s1 :
  CppLoadedModules s !! n = Some found ->
  internalUnloadModule n true s = (Returns ures, s1) ->
  status ures <> Success ->
  let info :=
    set_path (path found) (set_name n (default ModuleInfo_default (module ures))) in
  exists s2 t,
    reloadModule n s =
      (Returns (mkModuleResult Error
                  ("Reload failed during unload phase: " +:+ message ures)
                  (Some info)), s2) /\
    CppLoadedModules s2 = CppLoadedModules s1 /\
    frame s1 s2
      (ABroadcast ErrorUnloading info
         ("Failed to unload module during reload: " +:+ message ures) :: t) /\
    forallb is_noise t = true.
Proof.
  intros Hn E1 Hst info. unfold reloadModule.
  unfold bind_u at 1, lift at 1, gets at 1. cbn beta iota. rewrite Hn.
  unfold bind_u at 1, lift at 1. rewrite E1. cbn beta iota.
  destruct (status ures); [done|..]; exec;
    eexists _, _; (split; [reflexivity|]); settle; by repeat split.
Qed.

Lemma reloadModule_unloaded n found s ures s1 lres s2 :
  CppLoadedModules s !! n = Some found ->
  internalUnloadModule n true s = (Returns ures, s1) ->
  status ures = Success ->
  loadModule (path found) s1 = (Returns lres, s2) ->
  exists s3 t,
    reloadModule n s = (Returns (reload_result n (path found) lres), s3) /\
    CppLoadedModules s3 = CppLoadedModules s2 /\
    frame s2 s3
      (ABroadcast (reload_event n (path found) lres).1.1
         (reload_event n (path found) lres).1.2
         (reload_event n (path found) lres).2 :: t) /\
    forallb is_noise t = true.
Proof.
  intros Hn E1 Hst E2. unfold reloadModule.
  unfold bind_u at 1, lift at 1, gets at 1. cbn beta iota. rewrite Hn.
  unfold bind_u at 1, lift at 1. rewrite E1. cbn beta iota. rewrite Hst.
  unfold bind_u at 1. rewrite E2. cbn beta iota.
  unfold reload_result, reload_event.
  destruct (status lres); exec;
    eexists _, _; (split; [reflexivity|]); settle; by repeat split.
Qed.

Lemma reloadModule_undefined n found s ures s1 s2 :
  CppLoadedModules s !! n = Some found ->
  internalUnloadModule n true s = (Returns ures, s1) ->
  status ures = Success ->
  loadModule (path found) s1 = (Undefined, s2) ->
  reloadModule n s = (Undefined, s2).
Proof.
  intros Hn E1 Hst E2. unfold reloadModule.
  unfold bind_u at 1, lift at 1, gets at 1. cbn beta iota. rewrite Hn.
  unfold bind_u at 1, lift at 1. rewrite E1. cbn beta iota. rewrite Hst.
  unfold bind_u at 1. by rewrite E2.
Qed.

(** ** The invariant along runs *)

Lemma loadModule_ok p s :
  registry_ok (CppLoadedModules s) -> registry_ok (CppLoadedModules (loadModule p s).2).
Proof.
  intros Hok. pose proof (loadModule_spec p s) as HL.
  destruct (find_path p (entries (CppLoadedModules s))) eqn:Hfind.
  - by rewrite HL.
  - destruct HL as (r & s' & t & -> & _ &
      [(st & info & msg & -> & _ & Hpath)|(-> & _ & E & _)]); cbn [snd];
      [|by rewrite E].
    destruct st.
    + destruct (load_path_success _ _ _ _ _ _ _ Hpath)
        as (_ & Hp & Hh & Hi & _ & E & _).
      rewrite E. apply registry_ok_insert; try done.
      intros k i Hki%elem_of_entries. rewrite Hp. by eapply find_path_None.
    + inversion Hpath.
    + destruct (load_path_failure _ _ _ _ _ _ _ _ Hpath) as (_ & E & _); [done|].
      by rewrite E.
Qed.

Lemma internalUnloadModule_ok n r s :
  registry_ok (CppLoadedModules s) ->
  registry_ok (CppLoadedModules (internalUnloadModule n r s).2).
Proof.
  intros Hok. destruct (CppLoadedModules s !! n) as [info|] eqn:Hn.
  - destruct (internalUnloadModule_present n r info s Hn)
      as (res & s' & t1 & t2 & -> & _ & _ & [(_ & _ & E & _)|(_ & E & _)]);
      cbn [snd]; rewrite E; [done|by apply registry_ok_delete].
  - destruct (internalUnloadModule_absent n r s Hn) as (s' & t & -> & _ & E & _).
    cbn [snd]. by rewrite E.
Qed.

Lemma reloadModule_ok n s :
  registry_ok (CppLoadedModules s) ->
  registry_ok (CppLoadedModules (reloadModule n s).2).
Proof.
  intros Hok. destruct (CppLoadedModules s !! n) as [found|] eqn:Hn;
    [|by rewrite reloadModule_absent].
  destruct (internalUnloadModule_returns n true s) as (ures & s1 & E1).
  pose proof (internalUnloadModule_ok n true s Hok) as Hok1.
  rewrite E1 in Hok1. cbn [snd] in Hok1.
  assert (status ures = Success \/ status ures <> Success) as [Hst|Hst]
    by (destruct (status ures); auto).
  - pose proof (loadModule_ok (path found) s1 Hok1) as Hok2.
    destruct (loadModule_result (path found) s1) as [(lres & s2 & E2)|(s2 & E2)];
      rewrite E2 in Hok2; cbn [snd] in Hok2.
    + destruct (reloadModule_unloaded n found s ures s1 lres s2 Hn E1 Hst E2)
        as (s3 & t & -> & Hm & _). cbn [snd]. by rewrite Hm.
    + by rewrite (reloadModule_undefined n found s ures s1 s2 Hn E1 Hst E2).
  - destruct (reloadModule_unload_failed n found s ures s1 Hn E1 Hst)
      as (s2 & t & -> & Hm & _). cbn [snd]. by rewrite Hm.
Qed.

Lemma run_op_ok o s :
  registry_ok (CppLoadedModules s) -> registry_ok (CppLoadedModules (run_op o s)).
Proof.
  destruct o; cbn [run_op]; auto using loadModule_ok, reloadModule_ok.
  apply internalUnloadModule_ok.
Qed.

Lemma run_ok ops : forall s,
  registry_ok (CppLoadedModules s) -> registry_ok (CppLoadedModules (run ops s)).
Proof.
  induction ops as [|o ops IH]; intros s Hok; [done|].
  cbn. apply IH. by apply run_op_ok.
Qed.

Lemma registry_ok_names (m : gmap string ModuleInfo) :
  registry_ok m -> name <$> (entries m).*2 = (entries m).*1.
Proof.
  intros [Hk _]. rewrite <- list_fmap_compose. apply Forall_fmap_ext, Forall_forall.
  intros [k i] Hki%elem_of_entries. by destruct (Hk k i Hki).
Qed.

Lemma registry_ok_paths (m : gmap string ModuleInfo) :
  registry_ok m -> NoDup (path <$> (entries m).*2).
Proof.
  intros [_ Hp]. rewrite <- list_fmap_compose. apply NoDup_fmap_2_strong.
  - intros [k1 i1] [k2 i2] H1%elem_of_entries H2%elem_of_entries E. cbn in E.
    assert (k1 = k2) as -> by eauto. congruence.
  - eapply NoDup_fmap_1, NoDup_entries_keys.
Qed.

(** ** [unloadModule] returns *)

Lemma unloadModule_returns n s : exists res s', unloadModule n s = (Returns res, s').
Proof.
  unfold unloadModule. destruct (CppLoadedModules s !! n) as [info|] eqn:Hn.
  - destruct (internalUnloadModule_present n false info s Hn)
      as (res & s' & t1 & t2 & E & _). eauto.
  - destruct (internalUnloadModule_absent n false s Hn) as (s' & t & E & _). eauto.
Qed.

(** ** Lists of descriptors, traces, and the destructor's loop *)

Lemma filter_path_none (l : list ModuleInfo) p :
  p ∉ path <$> l -> filter (fun i => path i = p) l = [].
Proof.
  induction l as [|x l IH]; [done|]. rewrite fmap_cons, not_elem_of_cons.
  intros [Hx Hl]. rewrite filter_cons_False by done. by apply IH.
Qed.

Lemma filter_path_unique (l : list ModuleInfo) info :
  NoDup (path <$> l) -> info ∈ l -> filter (fun i => path i = path info) l = [info].
Proof.
  induction l as [|x l IH]; [by intros _ ?%elem_of_nil|].
  rewrite fmap_cons, NoDup_cons. intros [Hx Hnd] [->|Hin]%elem_of_cons.
  - rewrite filter_cons_True by done. by rewrite filter_path_none.
  - rewrite filter_cons_False; [by apply IH|].
    intros E. apply Hx. rewrite E. by apply list_elem_of_fmap_2.
Qed.

Lemma elem_of_foreign a t : a ∈ t -> is_foreign a = true -> a ∈ foreign_of t.
Proof.
  intros Ha Hf. unfold foreign_of. apply list_elem_of_filter. split; [|done].
  by rewrite Hf.
Qed.

Lemma teardown_events_nil t :
  forallb is_teardown t = true -> count_events ErrorUnloading t = 0 -> events_of t = [].
Proof.
  induction t as [|a t IH]; [done|]. cbn [forallb].
  intros [Ha Ht]%andb_true_iff. rewrite count_events_cons, events_of_cons.
  destruct a as [| | | | | | | | | |[] ? ?| |]; cbn in Ha |- *; try done; auto.
Qed.

Lemma internalUnloadModule_others n r s :
  exists res s' t,
    internalUnloadModule n r s = (Returns res, s') /\
    frame s s' t /\
    (r = true -> count_events Unloaded t = 0) /\
    (forall k, k <> n -> CppLoadedModules s' !! k = CppLoadedModules s !! k) /\
    (forall info, CppLoadedModules s !! n = Some info -> instance info <> nullptr ->
       exists o, AShutdown (instance info) o ∈ t).
Proof.
  destruct (CppLoadedModules s !! n) as [info|] eqn:Hn.
  - unfold internalUnloadModule. unfold bind at 1, gets at 1. rewrite Hn.
    destruct (shutdown_instance_spec n info s)
      as (s1 & ta & E1 & [Hc1 Ht1] & Hm1 & Hta & Hshut).
    destruct (destroy_instance_spec n info s1) as (s2 & tb & E2 & [Hc2 Ht2] & Hm2 & Htb).
    destruct (close_library_spec n r (set_instance nullptr info) s2)
      as (res & s3 & tc & E3 & [Hc3 Ht3] & Hout).
    unfold bind. rewrite E1, E2, E3.
    exists res, s3, (ta ++ tb ++ tc). split; [done|]. split; [|split; [|split]].
    + split; [congruence|]. by rewrite Ht3, Ht2, Ht1, !app_assoc.
    + intros ->. rewrite !count_events_app, !teardown_count by done.
      unfold count_events.
      destruct Hout as [(_ & _ & _ & msg & _ & ->)|(_ & _ & _ & ->)]; done.
    + intros k Hk.
      destruct Hout as [(_ & _ & -> & _)|(_ & -> & _)]; rewrite ?lookup_delete_ne by done;
        congruence.
    + intros ? [= <-] Hi. destruct (Hshut Hi) as [o Ho]. exists o. set_solver.
  - destruct (internalUnloadModule_absent n r s Hn) as (s' & t & E & Hf & Hm & _ & Hev).
    eexists _, s', t. split; [done|]. split; [done|]. split; [|split; [|done]].
    + intros ->. unfold count_events. by rewrite Hev.
    + intros k _. by rewrite Hm.
Qed.

Lemma unload_each_spec names : NoDup names -> forall s,
  exists s' t,
    unload_each names s = (Returns tt, s') /\
    frame s s' t /\
    count_events Unloaded t = 0 /\
    (forall k, k ∉ names -> CppLoadedModules s' !! k = CppLoadedModules s !! k) /\
    (forall n info, n ∈ names -> CppLoadedModules s !! n = Some info ->
       instance info <> nullptr -> exists o, AShutdown (instance info) o ∈ t).
Proof.
  induction 1 as [|n names Hn Hnd IH]; intros s.
  - exists s, []. split; [done|]. split; [split; [done|by rewrite app_nil_r]|].
    split; [done|]. split; [done|]. by intros ?? ?%elem_of_nil.
  - destruct (internalUnloadModule_others n true s)
      as (res & s1 & t1 & E1 & [Hc1 Ht1] & Hcount1 & Hother1 & Hshut1).
    destruct (IH s1) as (s2 & t2 & E2 & [Hc2 Ht2] & Hcount2 & Hother2 & Hshut2).
    exists s2, (t1 ++ t2). unfold unload_each in *. cbn [for_each].
    unfold bind at 1. unfold bind at 1. rewrite E1. unfold ret at 1. rewrite E2.
    split; [done|]. split; [|split; [|split]].
    + split; [congruence|]. by rewrite Ht2, Ht1, app_assoc.
    + rewrite count_events_app, Hcount1, Hcount2; done.
    + intros k [Hk1 Hk2]%not_elem_of_cons. by rewrite Hother2, Hother1.
    + intros n' info [->|Hin]%elem_of_cons Hlook Hi.
      * destruct (Hshut1 info Hlook Hi) as [o Ho]. exists o. set_solver.
      * assert (n' <> n) by (intros ->; done).
        destruct (Hshut2 n' info Hin) as [o Ho]; [by rewrite Hother1|done|].
        exists o. set_solver.
Qed.

(** ** [internalUnloadModule], step by step *)

Lemma shutdown_instance_exact n info s :
  exists s' t r,
    shutdown_instance n info s = (Returns tt, s') /\
    frame s s' t /\
    CppLoadedModules s' = CppLoadedModules s /\
    let o := if is_null (instance info) then None else Some r in
    foreign_of t = call_if o (AShutdown (instance info)) /\
    events_of t = fault_report (shutdown_fault n) info o.
Proof.
  unfold shutdown_instance.
  destruct (is_null (instance info)) eqn:Hi.
  - exec. exists s, [], (Returns tt). split; [done|]. split; [frame_done|]. done.
  - exec; eexists _, _, _; (split; [reflexivity|]); settle; (split; [frame_done|]);
      (split; [reflexivity|]); cbn zeta; split; read_trace; reflexivity.
Qed.

Lemma destroy_instance_exact n info s :
  exists s' t d r,
    destroy_instance n info s = (Returns tt, s') /\
    frame s s' t /\
    CppLoadedModules s' = CppLoadedModules s /\
    let d' := if is_null (libraryHandle info) then nullptr else d in
    let o := if negb (is_null d') && negb (is_null (instance info))
             then Some r else None in
    foreign_of t =
      (if is_null (libraryHandle info) then []
       else [ADlsym (libraryHandle info) DESTROY_MODULE_FUNC_NAME d]) ++
      call_if o (ADestroy d' (instance info)) /\
    events_of t = fault_report (destroy_fault n) info o.
Proof.
  unfold destroy_instance.
  destruct (is_null (libraryHandle info)) eqn:Hh.
  - exec. change (is_null nullptr) with true. cbn [negb andb].
    exists s, [], nullptr, (Returns tt). split; [done|]. split; [frame_done|]. done.
  - exec.
    destruct (is_null p) eqn:Hd; cbn [negb andb].
    + exec. eexists _, _, p, (Returns tt). split; [reflexivity|]. settle.
      split; [frame_done|]. split; [reflexivity|]. cbn zeta. rewrite Hd. cbn [negb andb].
      split; read_trace; reflexivity.
    + destruct (is_null (instance info)) eqn:Hi; cbn [negb andb].
      * exec. eexists _, _, p, (Returns tt). split; [reflexivity|]. settle.
        split; [frame_done|]. split; [reflexivity|]. cbn zeta. rewrite Hd. cbn [negb andb].
        split; read_trace; reflexivity.
      * exec; eexists _, _, p, _; (split; [reflexivity|]); settle;
          (split; [frame_done|]); (split; [reflexivity|]); cbn zeta; rewrite Hd;
          cbn [negb andb]; split; read_trace; reflexivity.
Qed.

Lemma close_library_exact n r info s :
  exists res s' t rc e,
    close_library n r info s = (Returns res, s') /\
    frame s s' t /\
    let closed :=
      if is_null (libraryHandle info) then true else bool_decide (rc = 0%Z) in
    foreign_of t =
      (if is_null (libraryHandle info) then [] else [ADlclose (libraryHandle info) rc]) /\
    events_of t =
      (if closed then
         if r then []
         else [(Unloaded, set_libraryHandle nullptr info, "Module unloaded successfully.")]
       else [(ErrorUnloading, info, close_failure n e)]) /\
    res =
      (if closed
       then mkModuleResult Success "Module unloaded successfully."
              (Some (set_libraryHandle nullptr info))
       else mkModuleResult Error (close_failure n e) (Some info)) /\
    CppLoadedModules s' =
      (if closed then delete n (CppLoadedModules s) else CppLoadedModules s).
Proof.
  unfold close_library, finish_unload.
  destruct (is_null (libraryHandle info)) eqn:Hh.
  - destruct r; cbn [negb]; exec;
      eexists _, _, _, 0%Z, None; (split; [reflexivity|]); settle;
      (split; [frame_done|]); cbn zeta; repeat split; read_trace; reflexivity.
  - exec. destruct (decide (z <> 0%Z)) as [Hz|Hz].
    + exec. eexists _, _, _, z, _. split; [reflexivity|]. settle.
      split; [frame_done|]. cbn zeta. rewrite bool_decide_eq_false_2 by done.
      repeat split; read_trace; reflexivity.
    + assert (z = 0%Z) as -> by (destruct (decide (z = 0%Z)); [done|contradiction]).
      destruct r; cbn [negb]; exec;
        eexists _, _, _, 0%Z, None; (split; [reflexivity|]); settle;
        (split; [frame_done|]); cbn zeta; repeat split; read_trace; reflexivity.
Qed.

Lemma internalUnloadModule_exact n r info s :
  CppLoadedModules s !! n = Some info ->
  exists st s' t,
    internalUnloadModule n r s = (Returns (unload_result n info st), s') /\
    frame s s' t /\
    foreign_of t = unload_calls info st /\
    events_of t = unload_events n r info st /\
    CppLoadedModules s' = unload_map n info st (CppLoadedModules s).
Proof.
  intros Hn. unfold internalUnloadModule. unfold bind at 1, gets at 1.
  rewrite Hn.
  destruct (shutdown_instance_exact n info s)
    as (s1 & ta & rsv & E1 & [Hc1 Ht1] & Hm1 & Hfa & Hea).
  destruct (destroy_instance_exact n info s1)
    as (s2 & tb & dv & rdv & E2 & [Hc2 Ht2] & Hm2 & Hfb & Heb).
  destruct (close_library_exact n r (set_instance nullptr info) s2)
    as (res & s3 & tc & rcv & ev & E3 & [Hc3 Ht3] & Hfc & Hec & Hres & Hm3).
  unfold bind. rewrite E1, E2, E3.
  exists (mkUnloadSteps rsv dv rdv rcv ev), s3, (ta ++ tb ++ tc).
  cbn [libraryHandle set_instance] in Hfc, Hec, Hres, Hm3.
  assert (res = unload_result n info (mkUnloadSteps rsv dv rdv rcv ev)) as ->.
  { rewrite Hres. unfold unload_result, closed, close_step. cbn.
    by destruct (is_null (libraryHandle info)). }
  split; [done|]. split; [|split; [|split]].
  - split; [congruence|]. by rewrite Ht3, Ht2, Ht1, !app_assoc.
  - rewrite !foreign_of_app, Hfa, Hfb, Hfc.
    unfold unload_calls, shutdown_step, destroy_step, found_destroyFunc, close_step.
    cbn. rewrite <- app_assoc. by destruct (is_null (libraryHandle info)).
  - rewrite !events_of_app, Hea, Heb, Hec.
    unfold unload_events, shutdown_step, destroy_step, found_destroyFunc, closed,
      close_step. cbn.
    by destruct (is_null (libraryHandle info)).
  - rewrite Hm3, Hm2, Hm1. unfold unload_map, closed, close_step. cbn.
    by destruct (is_null (libraryHandle info)).
Qed.

Lemma omap_foreign {A} (f : Action -> option A) t :
  (forall a, is_foreign a = false -> f a = None) ->
  omap f (foreign_of t) = omap f t.
Proof.
  intros Hf. induction t as [|a t IH]; [done|].
  rewrite foreign_of_cons. destruct (is_foreign a) eqn:Ha; cbn; rewrite IH; [done|].
  by rewrite (Hf a Ha).
Qed.

Lemma faults_foreign t : faults (foreign_of t) = faults t.
Proof.
  unfold faults. induction t as [|a t IH]; [done|].
  rewrite foreign_of_cons. destruct (is_foreign a) eqn:Ha.
  - destruct (is_fault a) eqn:Hf.
    + rewrite !filter_cons_True by (rewrite Hf; exact I). cbn. by rewrite IH.
    + rewrite !filter_cons_False by (rewrite Hf; intros []). done.
  - rewrite (filter_cons_False _ a); [done|]. destruct a; try done; intros [].
Qed.


Lemma internalUnloadModule_frame n r s res s' :
  internalUnloadModule n r s = (res, s') -> exists t, frame s s' t.
Proof.
  intros Hrun. destruct (CppLoadedModules s !! n) as [info|] eqn:Hn.
  - destruct (internalUnloadModule_exact n r info s Hn) as (st & s1 & t & E & Hf & _).
    rewrite E in Hrun. injection Hrun as <- <-. by exists t.
  - destruct (internalUnloadModule_absent n r s Hn) as (s1 & t & E & Hf & _).
    rewrite E in Hrun. injection Hrun as <- <-. by exists t.
Qed.

(** ** What every computation of the loader adds to the trace *)

Section Emits.
Variable Q : W -> list Action -> W -> Prop.
Hypothesis Q_nil : forall w, Q w [] w.
Hypothesis Q_app :
  forall w t1 w1 t2 w2, Q w t1 w1 -> Q w1 t2 w2 -> Q w (t1 ++ t2) w2.
Hypothesis Q_one :
  forall a w w', is_noise a = false -> answered a w w' -> Q w [a] w'.
Hypothesis Q_notified :
  forall cb ty info msg r w w',
    call_callback cb ty info msg w = (r, w') -> Q w (notified cb ty info msg r) w'.

Lemma emits_ret {A} (a : A) : emits (W:=W) Q (ret a).
Proof. intros s. exists []. split; [by rewrite app_nil_r|apply Q_nil]. Qed.

Lemma emits_bind {A B} (m : M A) (k : A -> M B) :
  emits (W:=W) Q m -> (forall a, emits (W:=W) Q (k a)) -> emits (W:=W) Q (bind m k).
Proof.
  intros Hm Hk s. unfold bind. destruct (Hm s) as (t1 & Ht1 & HQ1).
  destruct (m s) as [[a|e] s1]; cbn [snd] in *.
  - destruct (Hk a s1) as (t2 & Ht2 & HQ2). exists (t1 ++ t2).
    split; [by rewrite Ht2, Ht1, app_assoc|by eapply Q_app].
  - by exists t1.
Qed.

Lemma emits_attempt {A} (m : M A) : emits (W:=W) Q m -> emits (W:=W) Q (attempt m).
Proof.
  intros Hm s. unfold attempt. destruct (Hm s) as (t & Ht & HQ).
  destruct (m s) as [r s1]. by exists t.
Qed.

Lemma emits_lift {A} (m : M A) : emits (W:=W) Q m -> emits (W:=W) Q (lift m).
Proof.
  intros Hm s. unfold lift. destruct (Hm s) as (t & Ht & HQ).
  destruct (m s) as [r s1]. by exists t.
Qed.

Lemma emits_bind_u {A B} (m : U A) (k : A -> U B) :
  emits (W:=W) Q m -> (forall a, emits (W:=W) Q (k a)) -> emits (W:=W) Q (bind_u m k).
Proof.
  intros Hm Hk s. unfold bind_u. destruct (Hm s) as (t1 & Ht1 & HQ1).
  destruct (m s) as [[[a|e]|] s1]; cbn [snd] in *.
  - destruct (Hk a s1) as (t2 & Ht2 & HQ2). exists (t1 ++ t2).
    split; [by rewrite Ht2, Ht1, app_assoc|by eapply Q_app].
  - by exists t1.
  - by exists t1.
Qed.

Lemma emits_undefined {A} : emits (W:=W) Q (undefined (A:=A)).
Proof. intros s. exists []. split; [by rewrite app_nil_r|apply Q_nil]. Qed.

Lemma emits_gets {A} (f : @System W -> A) : emits (W:=W) Q (gets f).
Proof. intros s. exists []. split; [by rewrite app_nil_r|apply Q_nil]. Qed.

Lemma emits_set_modules m : emits (W:=W) Q (set_modules m).
Proof. intros s. exists []. split; [by rewrite app_nil_r|apply Q_nil]. Qed.

Lemma emits_log a :
  is_noise a = false -> (forall w, answered a w w) -> emits (W:=W) Q (log a).
Proof. intros Ha Hw s. exists [a]. split; [done|by apply Q_one]. Qed.

Lemma emits_linker {A} (f : W -> A * W) (act : A -> Action) :
  (forall a, is_noise (act a) = false) ->
  (forall w a w', f w = (a, w') -> answered (act a) w w') ->
  emits (W:=W) Q (linker f act).
Proof.
  intros Ha Hw s. unfold linker. destruct (f (world s)) as [a w] eqn:E.
  exists [act a]. split; [done|]. apply Q_one; [done|]. by apply Hw.
Qed.

Lemma emits_foreign {A} (f : W -> outcome A * W) (act : outcome A -> Action) :
  (forall r, is_noise (act r) = false) ->
  (forall w r w', f w = (r, w') -> answered (act r) w w') ->
  emits (W:=W) Q (foreign f act).
Proof.
  intros Ha Hw s. unfold foreign. destruct (f (world s)) as [r w] eqn:E.
  exists [act r]. split; [done|]. apply Q_one; [done|]. by apply Hw.
Qed.

Lemma emits_accessor {A} (f : W -> A) (act : A -> Action) :
  (forall a, is_noise (act a) = false) ->
  (forall w, answered (act (f w)) w w) ->
  emits (W:=W) Q (accessor f act).
Proof.
  intros Ha Hw s. exists [act (f (world s))]. split; [done|]. by apply Q_one.
Qed.

Lemma emits_for_each {A} (l : list A) (body : A -> M unit) :
  (forall x, emits (W:=W) Q (body x)) -> emits (W:=W) Q (for_each l body).
Proof.
  intros Hbody. induction l as [|x l IH]; cbn [for_each].
  - apply emits_ret.
  - apply emits_bind; [apply Hbody|by intros _].
Qed.

Lemma emits_notify ty info msg cb : emits (W:=W) Q (notify ty info msg cb).
Proof.
  intros s. unfold notify, bind, attempt, callback_call, foreign.
  destruct (call_callback cb ty info msg (world s)) as [r w] eqn:E.
  pose proof (Q_notified _ _ _ _ _ _ _ E) as HQ. unfold notified in HQ.
  destruct r as [[]|[what|what|]]; cbn in *; eexists;
    (split; [by rewrite <- ?app_assoc|exact HQ]).
Qed.

Lemma emits_broadcastEvent ty info msg : emits (W:=W) Q (broadcastEvent ty info msg).
Proof.
  unfold broadcastEvent. apply emits_bind; [by apply emits_log|intros _].
  apply emits_bind; [apply emits_gets|intros l].
  apply emits_for_each. intros cb. apply emits_notify.
Qed.

(** One step through a computation of the loader. *)
Ltac emit_step :=
  cbv beta zeta;
  lazymatch goal with
  | |- emits _ (ret _) => apply emits_ret
  | |- emits _ undefined => apply emits_undefined
  | |- emits _ (gets _) => apply emits_gets
  | |- emits _ (set_modules _) => apply emits_set_modules
  | |- emits _ (broadcastEvent _ _ _) => apply emits_broadcastEvent
  | |- emits _ (attempt _) => apply emits_attempt
  | |- emits _ (lift _) => apply emits_lift
  | |- emits _ (linker _ _) => apply emits_linker; by intros
  | |- emits _ (foreign _ _) => apply emits_foreign; by intros
  | |- emits _ (accessor _ _) => apply emits_accessor; [by intros|by intros; split]
  | |- emits _ (bind _ _) => apply emits_bind; [|intros ?]
  | |- emits _ (bind_u _ _) => apply emits_bind_u; [|intros ?]
  | |- emits _ (if ?c then _ else _) => destruct c
  | |- emits _ (match ?x with _ => _ end) => destruct x
  end.
Ltac emit := repeat emit_step.

Lemma emits_loadModule p : emits (W:=W) Q (loadModule p).
Proof.
  unfold loadModule, fail_load, destroy_quietly, os_dlopen, os_dlsym, os_dlclose,
    os_dlerror, createFunc_call, destroyFunc_call, initialize, getName, getVersion.
  emit.
Qed.

Lemma emits_internalUnloadModule n r : emits (W:=W) Q (internalUnloadModule n r).
Proof.
  unfold internalUnloadModule, shutdown_instance, destroy_instance, close_library,
    finish_unload, os_dlsym, os_dlclose, os_dlerror, destroyFunc_call, shutdown.
  emit.
Qed.

Lemma emits_reloadModule n : emits (W:=W) Q (reloadModule n).
Proof.
  unfold reloadModule.
  apply emits_bind_u; [apply emits_lift, emits_gets|intros loaded].
  destruct (loaded !! n); [|apply emits_lift, emits_ret].
  apply emits_bind_u; [apply emits_lift, emits_internalUnloadModule|intros ures].
  destruct (status ures); emit_step; try apply emits_loadModule; emit.
Qed.

Lemma emits_destructor : emits (W:=W) Q destructor.
Proof.
  unfold destructor, unload_each.
  apply emits_bind; [apply emits_gets|intros loaded].
  apply emits_bind; [|intros _; apply emits_set_modules].
  apply emits_for_each. intros n.
  apply emits_bind; [apply emits_internalUnloadModule|intros _; apply emits_ret].
Qed.

Lemma emits_added {R} (m : System -> R * System) s :
  emits (W:=W) Q m -> Q (world s) (added s (m s).2) (world (m s).2).
Proof. intros Hm. destruct (Hm s) as (t & Ht & HQ). by rewrite (added_app _ _ t). Qed.

Lemma emits_run_op o s : Q (world s) (added s (run_op o s)) (world (run_op o s)).
Proof.
  destruct o; cbn [run_op].
  - apply emits_added, emits_loadModule.
  - apply emits_added, emits_internalUnloadModule.
  - apply emits_added, emits_reloadModule.
  - unfold added. cbn. rewrite drop_all. apply Q_nil.
  - unfold added. cbn. rewrite drop_all. apply Q_nil.
Qed.

End Emits.

Lemma cerr_of_app t1 t2 : cerr_of (t1 ++ t2) = cerr_of t1 ++ cerr_of t2.
Proof. apply omap_app. Qed.
Lemma reports_of_app t1 t2 : reports_of (t1 ++ t2) = reports_of t1 ++ reports_of t2.
Proof. apply omap_app. Qed.

(** ** The trace is what the platform answered *)

Lemma answers_app w t1 w1 t2 w2 :
  answers w t1 w1 -> answers w1 t2 w2 -> answers w (t1 ++ t2) w2.
Proof.
  revert w. induction t1 as [|a t1 IH]; intros w; cbn.
  - by intros ->.
  - intros (w0 & Ha & H1) H2. exists w0. split; [done|]. by apply IH.
Qed.

Lemma answers_one a w w' : answered a w w' -> answers w [a] w'.
Proof. intros Ha. by exists w'. Qed.

Lemma answers_notified cb ty info msg r w w' :
  call_callback cb ty info msg w = (r, w') ->
  answers w (notified cb ty info msg r) w'.
Proof.
  intros E. unfold notified. exists w'. split; [done|].
  destruct (fault_line r); [by exists w'|done].
Qed.

Lemma loadModule_answers p s :
  answers (world s) (added s (loadModule p s).2) (world (loadModule p s).2).
Proof.
  apply (emits_added answers).
  apply emits_loadModule; [done|apply answers_app|by intros; apply answers_one|
    apply answers_notified].
Qed.

(** ** [broadcastEvent], callback by callback *)

Lemma notify_exact ty info msg cb s :
  exists r s',
    notify ty info msg cb s = (Returns tt, s') /\
    trace s' = trace s ++ notified cb ty info msg r /\
    call_callback cb ty info msg (world s) = (r, world s') /\
    CppLoadedModules s' = CppLoadedModules s /\
    CppEventCallbacks s' = CppEventCallbacks s /\
    CppCoreAccess s' = CppCoreAccess s.
Proof.
  unfold notify, bind, attempt, callback_call, foreign, notified.
  destruct (call_callback cb ty info msg (world s)) as [r w].
  exists r. destruct r as [[]|[what|what|]]; cbn; eexists;
    (split; [reflexivity|]); cbn; rewrite <- ?app_assoc; by repeat split.
Qed.

Lemma for_each_notify_exact ty info msg l : forall s,
  exists rs s',
    length rs = length l /\
    for_each l (notify ty info msg) s = (Returns tt, s') /\
    trace s' = trace s ++ deliveries ty info msg l rs /\
    answers (world s) (deliveries ty info msg l rs) (world s') /\
    CppLoadedModules s' = CppLoadedModules s /\
    CppEventCallbacks s' = CppEventCallbacks s /\
    CppCoreAccess s' = CppCoreAccess s.
Proof.
  induction l as [|cb l IH]; intros s.
  - exists [], s. cbn. rewrite app_nil_r. by repeat split.
  - destruct (notify_exact ty info msg cb s) as (r & s1 & E1 & Ht1 & Hw1 & Hm1 & Hl1 & Hc1).
    destruct (IH s1) as (rs & s2 & Hlen & E2 & Ht2 & Hw2 & Hm2 & Hl2 & Hc2).
    exists (r :: rs), s2. cbn [for_each length]. unfold bind at 1. rewrite E1, E2.
    unfold deliveries in *. cbn [zip_with concat].
    split; [by rewrite Hlen|]. split; [done|].
    split; [by rewrite Ht2, Ht1, app_assoc|].
    split; [eapply answers_app; [by apply answers_notified|done]|].
    split; [congruence|]. split; congruence.
Qed.

Lemma callbacks_of_notified cb ty info msg r :
  callbacks_of (notified cb ty info msg r) = [cb].
Proof. unfold notified. by destruct (fault_line r). Qed.

Lemma callbacks_of_deliveries ty info msg l : forall rs,
  length rs = length l -> callbacks_of (deliveries ty info msg l rs) = l.
Proof.
  unfold deliveries. induction l as [|cb l IH]; intros [|r rs] Hlen; try done.
  cbn [zip_with concat]. rewrite callbacks_of_app, callbacks_of_notified, IH; [done|].
  cbn in Hlen. lia.
Qed.

Lemma events_of_deliveries ty info msg l rs :
  events_of (deliveries ty info msg l rs) = [].
Proof.
  unfold deliveries. revert rs. induction l as [|cb l IH]; intros [|r rs]; try done.
  cbn [zip_with concat]. rewrite events_of_app, IH, app_nil_r.
  unfold notified. by destruct (fault_line r).
Qed.

Lemma broadcastEvent_exact ty info msg s :
  exists rs s',
    broadcastEvent ty info msg s = (Returns tt, s') /\
    length rs = length (CppEventCallbacks s) /\
    trace s' =
      trace s ++
      ABroadcast ty info msg :: deliveries ty info msg (CppEventCallbacks s) rs /\
    answers (world s) (deliveries ty info msg (CppEventCallbacks s) rs) (world s') /\
    CppLoadedModules s' = CppLoadedModules s /\
    CppEventCallbacks s' = CppEventCallbacks s /\
    CppCoreAccess s' = CppCoreAccess s.
Proof.
  destruct (for_each_notify_exact ty info msg (CppEventCallbacks s)
              (mkSystem (world s) (CppLoadedModules s) (CppEventCallbacks s)
                 (CppCoreAccess s) (trace s ++ [ABroadcast ty info msg])))
    as (rs & s' & Hlen & E & Ht & Hans & Hm & Hl & Hc).
  exists rs, s'. cbn [trace world CppLoadedModules CppEventCallbacks CppCoreAccess] in *.
  rewrite <- app_assoc in Ht. by repeat split.
Qed.

(** ** The loop of the destructor, module by module *)

Lemma foldr_delete_commute n l (m : gmap string ModuleInfo) :
  foldr delete (delete n m) l = delete n (foldr delete m l).
Proof.
  induction l as [|k l IH]; [done|]. cbn. by rewrite IH, delete_delete.
Qed.

Lemma lookup_foldr_delete_not_in k l (m : gmap string ModuleInfo) :
  k ∉ l -> foldr delete m l !! k = m !! k.
Proof.
  induction l as [|k' l IH]; [done|]. intros [Hk Hl]%not_elem_of_cons. cbn.
  rewrite lookup_delete_ne by done. by apply IH.
Qed.

Lemma teardown_gone_names es sts k :
  k ∈ teardown_gone (zip es sts) -> k ∈ es.*1.
Proof.
  unfold teardown_gone. intros ([[n info] st] & Hin & Hk)%list_elem_of_omap.
  cbn in Hk. destruct (closed info st); [|done]. injection Hk as <-.
  apply elem_of_zip_l in Hin. apply list_elem_of_fmap. by exists (n, info).
Qed.

Lemma unload_each_exact (es : list (string * ModuleInfo)) :
  NoDup es.*1 -> forall s,
  (forall k i, (k, i) ∈ es -> CppLoadedModules s !! k = Some i) ->
  exists sts s' t,
    length sts = length es /\
    unload_each es.*1 s = (Returns tt, s') /\
    frame s s' t /\
    foreign_of t = teardown_calls (zip es sts) /\
    events_of t = teardown_events (zip es sts) /\
    CppLoadedModules s' =
      foldr delete (CppLoadedModules s) (teardown_gone (zip es sts)) /\
    (forall n info st, (n, info, st) ∈ zip es sts -> closed info st = false ->
       CppLoadedModules s' !! n = Some info).
Proof.
  induction es as [|[n info] es IH]; intros Hnd s Hes.
  - exists [], s, []. split; [done|]. split; [done|]. split; [apply frame_refl|].
    repeat split; try done. by intros ??? ?%elem_of_nil.
  - cbn [fmap list_fmap fst snd] in Hnd |- *. apply NoDup_cons in Hnd as [Hn Hnd].
    destruct (internalUnloadModule_exact n true info s)
      as (st & s1 & t1 & E1 & Hf1 & Hc1 & He1 & Hm1).
    { apply Hes. by left. }
    destruct (IH Hnd s1) as (sts & s2 & t2 & Hlen & E2 & Hf2 & Hc2 & He2 & Hm2 & Hk2).
    { intros k i Hki. rewrite Hm1. unfold unload_map.
      assert (k <> n).
      { intros ->. apply Hn. apply list_elem_of_fmap. by exists (n, i). }
      destruct (closed info st); [rewrite lookup_delete_ne by done|];
        apply Hes; by right. }
    exists (st :: sts), s2, (t1 ++ t2). unfold unload_each in *. cbn [for_each].
    unfold bind at 1. unfold bind at 1. rewrite E1. unfold ret at 1. rewrite E2.
    split; [cbn; by rewrite Hlen|]. split; [done|]. split; [by eapply frame_trans|].
    unfold teardown_calls, teardown_events, teardown_gone in *.
    cbn [zip zip_with fmap list_fmap concat omap list_omap fst snd].
    split; [by rewrite foreign_of_app, Hc1, Hc2|].
    split; [by rewrite events_of_app, He1, He2|].
    split.
    + rewrite Hm2, Hm1. unfold unload_map. destruct (closed info st); [|done].
      cbn. apply foldr_delete_commute.
    + intros k i st' [[= -> -> ->]|Hin]%elem_of_cons Hcl; [|by eapply Hk2].
      rewrite Hm2, lookup_foldr_delete_not_in.
      * rewrite Hm1. unfold unload_map. rewrite Hcl. apply Hes. by left.
      * intros Hk. apply Hn. by eapply teardown_gone_names.
Qed.

(** * The claims *)

(** C1, uniqueness.  Whatever sequence of [loadModule], [unloadModule] and
    [reloadModule] calls (and of [listModules] and subscriptions) is made on
    a freshly constructed loader, in whatever world, the descriptors in the
    map afterwards have pairwise different names and pairwise different
    paths. *)
Theorem registry_uniqueness (ops : list Op) (w : W) (coreAccess : ptr) :
  let descriptors := (entries (CppLoadedModules (run ops (fresh w coreAccess)))).*2 in
  NoDup (name <$> descriptors) /\ NoDup (path <$> descriptors).
Proof.
  assert (registry_ok (CppLoadedModules (run ops (fresh w coreAccess)))) as Hok
    by apply run_ok, registry_ok_empty.
  cbn zeta. split.
  - rewrite registry_ok_names by done. apply NoDup_entries_keys.
  - by apply registry_ok_paths.
Qed.

(** C2, round trip.  If [loadModule p] succeeds with a descriptor named
    [n] and [unloadModule n] follows at once, its [dlclose] returning 0,
    then the unload returns [Success] and the map is the one from before
    the load. *)
Theorem load_unload_round_trip p s res s1 info r2 s2 :
  loadModule p s = (Returns res, s1) ->
  status res = Success ->
  module res = Some info ->
  unloadModule (name info) s1 = (r2, s2) ->
  close_failed (added s1 s2) = false ->
  (exists res2, r2 = Returns res2 /\ status res2 = Success) /\
  CppLoadedModules s2 = CppLoadedModules s.
Proof.
  intros Hload Hst Hmod Hunload Hclose.
  pose proof (loadModule_spec p s) as HL.
  destruct (find_path p (entries (CppLoadedModules s))) eqn:Hfind.
  { rewrite HL in Hload. injection Hload as <- <-. done. }
  destruct (loadModule_returned p s res s1 Hfind Hload)
    as (st & info' & msg & t & -> & _ & _ & Hpath).
  cbn in Hst, Hmod. subst st. injection Hmod as ->.
  destruct (load_path_success _ _ _ _ _ _ _ Hpath) as (_ & _ & _ & _ & Hfresh & Hm1 & _).
  unfold unloadModule in Hunload.
  destruct (internalUnloadModule_present (name info) false info s1)
    as (res2 & s2' & t1 & t2 & E2 & Hf & Htd & Hout).
  { rewrite Hm1. apply lookup_insert_eq. }
  rewrite E2 in Hunload. injection Hunload as <- <-.
  rewrite (frame_added _ _ _ Hf), close_failed_app in Hclose.
  apply orb_false_iff in Hclose as [_ Hclose].
  destruct Hout as [(Hbad & _)|(_ & Hm2 & -> & _)]; [congruence|].
  split; [by eexists|].
  by rewrite Hm2, Hm1, delete_insert_eq, delete_id.
Qed.

(** C3, a library that does not close.  If [n] is loaded and the [dlclose]
    of [unloadModule n] returns non-zero, the result is [Error] (with the
    descriptor, its instance nulled), the last event broadcast is
    [ErrorUnloading] with the same descriptor and message, and the map is
    what it was: the descriptor is still there. *)
Theorem unload_close_failure n info s r s' :
  CppLoadedModules s !! n = Some info ->
  unloadModule n s = (r, s') ->
  close_failed (added s s') = true ->
  exists msg,
    r = Returns (mkModuleResult Error msg (Some (set_instance nullptr info))) /\
    last (events_of (added s s')) =
      Some (ErrorUnloading, set_instance nullptr info, msg) /\
    CppLoadedModules s' = CppLoadedModules s /\
    CppLoadedModules s' !! n = Some info.
Proof.
  intros Hn Hrun Hfail. unfold unloadModule in Hrun.
  destruct (internalUnloadModule_present n false info s Hn)
    as (res & s1 & t1 & t2 & E & Hf & Htd & Hout).
  rewrite E in Hrun. injection Hrun as <- <-.
  rewrite (frame_added _ _ _ Hf) in *.
  rewrite close_failed_app, (teardown_close_failed t1 Htd) in Hfail.
  destruct Hout as [(_ & _ & Hm & msg & -> & Hev)|(Hok & _)];
    [|cbn in Hfail; congruence].
  exists msg. split; [done|]. split; [|split; congruence].
  rewrite events_of_app, Hev. apply last_snoc.
Qed.

(** C5, the same path twice.  In any state reached from a fresh loader, if
    a descriptor with path [p] is in the map, [loadModule p] returns
    [Error] with the message of the path check and that descriptor, and
    the state it leaves is the state it found: nothing was broadcast, and
    the map still holds exactly one descriptor with path [p]. *)
Theorem load_same_path_rejected (ops : list Op) (w : W) (coreAccess : ptr) n info p :
  let s := run ops (fresh w coreAccess) in
  CppLoadedModules s !! n = Some info ->
  path info = p ->
  exists s',
    loadModule p s =
      (Returns (mkModuleResult Error
                  ("Module from this path is already loaded: " +:+ p) (Some info)), s') /\
    s' = s /\
    events_of (added s s') = [] /\
    filter (fun i => path i = p) (entries (CppLoadedModules s')).*2 = [info].
Proof.
  intros s Hn Hp.
  assert (registry_ok (CppLoadedModules s)) as Hok by apply run_ok, registry_ok_empty.
  pose proof (loadModule_spec p s) as HL.
  destruct (find_path p (entries (CppLoadedModules s))) as [other|] eqn:Hfind.
  - apply find_path_Some in Hfind as (Ho & k & Hk%elem_of_entries).
    assert (k = n) as -> by (destruct Hok as [_ Hu]; eapply Hu; eauto; congruence).
    assert (other = info) as -> by congruence.
    exists s. split; [done|]. split; [done|]. split.
    { unfold added. by rewrite drop_all. }
    rewrite <- Hp. apply filter_path_unique; [by apply registry_ok_paths|].
    apply list_elem_of_fmap. exists (n, info). split; [done|]. by apply elem_of_entries.
  - exfalso. eapply find_path_None; [done| |done]. by apply elem_of_entries.
Qed.

(** C6, a name that is taken.  If during [loadModule p] the module's
    [initialize] returned and its [getName] reported a name [n] that is in
    the map, then the calls of the load are, in order: [dlopen], the two
    [dlsym], the factory, [initialize], [getName], the destructor symbol on
    the instance if [dlsym] found one (and no such call otherwise), and
    [dlclose] of the library; each entry of the trace is what the platform
    answered to that call, in the world the calls before it left, so the
    destructor symbol and [dlclose] did run; exactly one event is
    broadcast, an [ErrorLoading] with the message of the name check; the
    result is [Error]; and the map is unchanged. *)
Theorem load_duplicate_name_unwinds p s r s' inst core n :
  loadModule p s = (r, s') ->
  AInitialize inst core (Returns tt) ∈ added s s' ->
  AGetName inst n ∈ added s s' ->
  is_Some (CppLoadedModules s !! n) ->
  exists h f d td rc,
    let msg :=
      "Module with name '" +:+ n +:+ "' already loaded. Module names must be unique." in
    let errorInfo := mkModuleInfo n "" p nullptr nullptr in
    r = Returns (mkModuleResult Error msg (Some errorInfo)) /\
    events_of (added s s') = [(ErrorLoading, errorInfo, msg)] /\
    foreign_of (added s s') =
      [ADlopen p h; ADlsym h CREATE_MODULE_FUNC_NAME f;
       ADlsym h DESTROY_MODULE_FUNC_NAME d; ACreate f (Returns inst);
       AInitialize inst core (Returns tt); AGetName inst n] ++ td ++ [ADlclose h rc] /\
    destroy_calls d inst td /\
    answers (world s) (added s s') (world s') /\
    CppLoadedModules s' = CppLoadedModules s.
Proof.
  intros Hrun Hinit Hname Htaken.
  pose proof (loadModule_answers p s) as Hans. rewrite Hrun in Hans. cbn [snd] in Hans.
  pose proof (loadModule_spec p s) as HL.
  destruct (find_path p (entries (CppLoadedModules s))).
  { rewrite HL in Hrun. injection Hrun as <- <-.
    unfold added in Hinit. rewrite drop_all in Hinit. by apply elem_of_nil in Hinit. }
  destruct HL as (r1 & s1 & t & E & Hf &
    [(st & info & msg & -> & Hev & Hpath)|(-> & Hev & Hm & Hstop)]);
    rewrite E in Hrun; injection Hrun as <- <-;
    rewrite (frame_added _ _ _ Hf) in *;
    (apply elem_of_foreign in Hinit; [|done]);
    (apply elem_of_foreign in Hname; [|done]).
  2: { inversion Hstop as [ h f d what rc ? ? ? | h f d i e td rc ? ? ? Htd ? ]; subst;
         match goal with H : _ = foreign_of t |- _ => rewrite <- H in * end;
         try (unfold destroy_calls in Htd;
              destruct (is_null d) eqn:Hd; [subst td | destruct Htd as [o ->]]);
         set_unfold; naive_solver. }
  inversion Hpath as
    [ e | h d e rc ? | h f d r0 rc ? ? ? ? | h f d i e td rc n0 ? ? ? Htd ?
    | h f d i td rc n0 ? ? ? Htd Hn0 | h f d i n0 v ? ? ? Hn0 ]; subst;
    match goal with H : _ = foreign_of t |- _ => rewrite <- H in * end;
    try (assert (Htd' := Htd); unfold destroy_calls in Htd';
         destruct (is_null d) eqn:Hd; [subst td | destruct Htd' as [o ->]]);
    try solve [set_unfold; naive_solver].
  all: assert (AGetName inst n = AGetName i n0) as [= -> ->]
         by (clear Hinit Hans; set_unfold; naive_solver).
  all: try (destruct Htaken as [? Htaken]; congruence).
  all: assert (core = CppCoreAccess s) as ->
         by (clear Hname Hans; set_unfold; naive_solver).
  all: eexists h, f, d, _, rc; cbn zeta; split; [reflexivity|].
  all: split; [done|]; split; [reflexivity|]; by split.
Qed.

(** C7, teardown, as the code has it.  The destructor runs the internal
    unload, events suppressed, on every name of the map, in the order of
    the names: the calls and the events of its loop are those of one
    internal unload per stored descriptor, each with its own steps,
    whatever happened to the modules before it, and every entry of the
    trace is what the platform answered.  The loop erases the names whose
    library closed and keeps under its name, untouched, every descriptor
    whose [dlclose] failed.  Then the map is cleared: after the destructor
    no descriptor is left, whether its library closed or not.  Every stored
    module with an instance has had its [shutdown] called, and no
    [Unloaded] event is broadcast. *)
Theorem destructor_unloads_all_then_clears s :
  exists sts s1 s',
    let steps := zip (entries (CppLoadedModules s)) sts in
    length sts = length (entries (CppLoadedModules s)) /\
    unload_each (entries (CppLoadedModules s)).*1 s = (Returns tt, s1) /\
    foreign_of (added s s1) = teardown_calls steps /\
    events_of (added s s1) = teardown_events steps /\
    CppLoadedModules s1 = foldr delete (CppLoadedModules s) (teardown_gone steps) /\
    (forall n info st, (n, info, st) ∈ steps -> closed info st = false ->
       CppLoadedModules s1 !! n = Some info) /\
    destructor s = (Returns tt, s') /\
    s' = mkSystem (world s1) ∅ (CppEventCallbacks s1) (CppCoreAccess s1) (trace s1) /\
    answers (world s) (added s s') (world s') /\
    CppLoadedModules s' = ∅ /\
    count_events Unloaded (added s s') = 0 /\
    (forall n info, CppLoadedModules s !! n = Some info -> instance info <> nullptr ->
       exists o, AShutdown (instance info) o ∈ added s s').
Proof.
  destruct (unload_each_exact (entries (CppLoadedModules s)) (NoDup_entries_keys _) s)
    as (sts & s1 & t & Hlen & E & Hf & Hcalls & Hevents & Hmap & Hkept).
  { intros k i Hki. by apply elem_of_entries. }
  destruct (unload_each_spec (entries (CppLoadedModules s)).*1
              (NoDup_entries_keys _) s)
    as (s1' & t' & E' & Hf' & Hcount & _ & Hshut).
  rewrite E in E'. injection E' as <-.
  rewrite <- (frame_added _ _ _ Hf') in Hcount, Hshut.
  rewrite <- (frame_added _ _ _ Hf) in Hcalls, Hevents.
  assert (destructor s =
            (Returns tt, mkSystem (world s1) ∅ (CppEventCallbacks s1) (CppCoreAccess s1)
                           (trace s1))) as Hd.
  { unfold destructor. unfold bind at 1, gets at 1. cbn beta iota zeta.
    unfold bind. by rewrite E. }
  pose proof (emits_added answers destructor s) as Hans. rewrite Hd in Hans.
  cbn [snd] in Hans.
  assert (added s (mkSystem (world s1) ∅ (CppEventCallbacks s1) (CppCoreAccess s1)
                     (trace s1)) = added s s1) as Hadd by done.
  exists sts, s1, (mkSystem (world s1) ∅ (CppEventCallbacks s1) (CppCoreAccess s1)
                    (trace s1)).
  cbn zeta. rewrite Hadd in *. repeat (split; [done|]).
  split.
  { apply Hans. apply emits_destructor; [done|apply answers_app|
      by intros; apply answers_one|apply answers_notified]. }
  split; [done|]. split; [done|].
  intros n info Hn Hi. apply (Hshut n info); [|done..].
  apply list_elem_of_fmap. exists (n, info). split; [done|]. by apply elem_of_entries.
Qed.

(** C8, unloading what is not there.  If no descriptor is stored under
    [n], [unloadModule n] returns [NotFound], broadcasts one
    [ErrorUnloading] event, calls neither the linker nor any module, and
    leaves the map as it was. *)
Theorem unload_absent_not_found n s :
  CppLoadedModules s !! n = None ->
  exists s',
    unloadModule n s =
      (Returns (mkModuleResult NotFound ("Module not found: " +:+ n) None), s') /\
    CppLoadedModules s' = CppLoadedModules s /\
    events_of (added s s') =
      [(ErrorUnloading, set_name n ModuleInfo_default, "Module not found for unloading.")] /\
    foreign_of (added s s') = [].
Proof.
  intros Hn. unfold unloadModule.
  destruct (internalUnloadModule_absent n false s Hn) as (s' & t & E & Hf & Hm & Hfo & Hev).
  exists s'. by rewrite (frame_added _ _ _ Hf).
Qed.

(** C9, fault isolation in [broadcastEvent].  A callback returns or
    throws; one that calls back into the loader does neither, it waits for
    the mutex its own broadcast holds.  Whatever the subscribed callbacks
    do when called (return, throw a [std::exception], throw anything
    else), the broadcast returns normally, and what it adds to the trace is
    its own entry and then, for each callback of [CppEventCallbacks] as it
    was on entry, once and in order, the run of that callback on the
    arguments of the broadcast, as the platform answered it, followed by one
    line on [std::cerr] if it threw: a fault of one callback does not keep
    the later ones from running, and the broadcast is the only lifecycle
    event of the call.  The list walked is the copy taken before the loop:
    the loop runs the list it is handed, whatever the list of the state it
    runs in.  Neither the map nor the list of callbacks is touched. *)
Theorem broadcast_isolates_callback_faults ty info msg s :
  exists rs s',
    broadcastEvent ty info msg s = (Returns tt, s') /\
    length rs = length (CppEventCallbacks s) /\
    added s s' =
      ABroadcast ty info msg :: deliveries ty info msg (CppEventCallbacks s) rs /\
    answers (world s) (added s s') (world s') /\
    callbacks_of (added s s') = CppEventCallbacks s /\
    events_of (added s s') = [(ty, info, msg)] /\
    CppLoadedModules s' = CppLoadedModules s /\
    CppEventCallbacks s' = CppEventCallbacks s /\
    (forall callbacks_copy s0, exists rs0 s1,
       for_each callbacks_copy (notify ty info msg) s0 = (Returns tt, s1) /\
       length rs0 = length callbacks_copy /\
       added s0 s1 = deliveries ty info msg callbacks_copy rs0).
Proof.
  destruct (broadcastEvent_exact ty info msg s)
    as (rs & s' & E & Hlen & Ht & Hans & Hm & Hl & Hc).
  exists rs, s'. rewrite (added_app _ _ _ Ht).
  split; [done|]. split; [done|]. split; [done|].
  split; [by exists (world s)|].
  split; [by apply callbacks_of_deliveries|].
  split; [by rewrite events_of_cons, events_of_deliveries|].
  split; [done|]. split; [done|].
  intros l s0.
  destruct (for_each_notify_exact ty info msg l s0)
    as (rs0 & s1 & Hlen0 & E0 & Ht0 & _). exists rs0, s1.
  split; [done|]. split; [done|]. by apply added_app.
Qed.

(** C10, the snapshot of a successful unload.  If [n] is loaded with
    descriptor [info] and [unloadModule n] returns [Success], the
    descriptor in the result is the one in the last event, which is the
    one [Unloaded] event; its [instance] and [libraryHandle] are
    [nullptr], its name, version and path are those of [info]; and [info]
    is gone from the map. *)
Theorem unload_success_snapshot n info s res s' :
  CppLoadedModules s !! n = Some info ->
  unloadModule n s = (Returns res, s') ->
  status res = Success ->
  exists snapshot,
    module res = Some snapshot /\
    last (events_of (added s s')) =
      Some (Unloaded, snapshot, "Module unloaded successfully.") /\
    count_events Unloaded (added s s') = 1 /\
    instance snapshot = nullptr /\
    libraryHandle snapshot = nullptr /\
    name snapshot = name info /\
    version snapshot = version info /\
    path snapshot = path info /\
    CppLoadedModules s' = delete n (CppLoadedModules s).
Proof.
  intros Hn Hrun Hst. unfold unloadModule in Hrun.
  destruct (internalUnloadModule_present n false info s Hn)
    as (res1 & s1 & t1 & t2 & E & Hf & Htd & Hout).
  rewrite E in Hrun. injection Hrun as <- <-.
  rewrite (frame_added _ _ _ Hf).
  destruct Hout as [(_ & _ & _ & msg & -> & _)|(_ & Hm & -> & Hev)]; [done|].
  eexists. split; [reflexivity|]. split; [|split; [|by repeat split]].
  - rewrite events_of_app, Hev. apply last_snoc.
  - rewrite count_events_app, teardown_count by done.
    unfold count_events. by rewrite Hev.
Qed.

(** * Further properties *)

(** ** The steps of an unload *)


Lemma count_events_events ty t :
  count_events ty t = length (filter (fun e => e.1.1 = ty) (events_of t)).
Proof. reflexivity. Qed.

(** X2, every fault is reported.  When [unloadModule n] runs on a loaded
    module, the number of [ErrorUnloading] events it broadcasts is the
    number of faults of module code ([shutdown] or the destructor symbol
    throwing), plus one if [dlclose] failed. *)
Theorem unload_reports_every_fault n info s r s' :
  CppLoadedModules s !! n = Some info ->
  unloadModule n s = (r, s') ->
  count_events ErrorUnloading (added s s') =
    faults (added s s') + (if close_failed (added s s') then 1 else 0).
Proof.
  intros Hn Hrun.
  destruct (internalUnloadModule_exact n false info s Hn)
    as (st & s1 & t & E & Hf & Hcalls & Hev & _).
  unfold unloadModule in Hrun. rewrite E in Hrun. injection Hrun as <- <-.
  rewrite (frame_added _ _ _ Hf).
  rewrite count_events_events, Hev, <- faults_foreign, <- close_failed_foreign, Hcalls.
  unfold unload_events, unload_calls, closed, shutdown_step, destroy_step,
    found_destroyFunc, close_step, faults.
  destruct st as [rs d rd rc e]. cbn [shutdown_did dlsym_found destroy_did dlclose_gave].
  destruct (is_null (instance info)), (is_null (libraryHandle info));
    cbn [negb andb call_if fault_report app];
    try change (is_null nullptr) with true; cbn [negb andb call_if fault_report app];
    try destruct (is_null d); cbn [negb andb call_if fault_report app];
    try destruct rs as [[]|[]]; try destruct rd as [[]|[]];
    try (case_bool_decide; subst);
    cbn; try done.
  all: try (destruct (rc =? 0)%Z eqn:Hrc; [apply Z.eqb_eq in Hrc; done|]); cbn; done.
Qed.

Lemma close_library_flag n info s :
  exists res sT sF tT tF,
    close_library n true info s = (Returns res, sT) /\
    close_library n false info s = (Returns res, sF) /\
    frame s sT tT /\ frame s sF tF /\
    CppLoadedModules sT = CppLoadedModules sF /\
    foreign_of tT = foreign_of tF /\
    events_of tF = events_of tT ++ suppressed_events n res /\
    status res <> NotFound.
Proof.
  unfold close_library, finish_unload.
  destruct (is_null (libraryHandle info)) eqn:Hh.
  - cbn [negb]. exec.
    eexists _, _, _, _, _. split; [reflexivity|]. split; [reflexivity|]. settle.
    split; [frame_done|]. split; [frame_done|]. split; [done|].
    split; [by read_trace|]. split; [by read_trace|]. done.
  - exec. destruct (decide (z <> 0%Z)) as [Hz|Hz].
    + exec. eexists _, _, _, _, _. split; [reflexivity|]. split; [reflexivity|]. settle.
      split; [frame_done|]. split; [frame_done|]. split; [done|].
      split; [done|]. split; [|done]. unfold suppressed_events. cbn [status].
      by rewrite app_nil_r.
    + cbn [negb]. exec.
      eexists _, _, _, _, _. split; [reflexivity|]. split; [reflexivity|]. settle.
      split; [frame_done|]. split; [frame_done|]. split; [done|].
      split; [by read_trace|]. split; [by read_trace|]. done.
Qed.

Lemma internalUnloadModule_stages n r info s s1 s2 :
  CppLoadedModules s !! n = Some info ->
  shutdown_instance n info s = (Returns tt, s1) ->
  destroy_instance n info s1 = (Returns tt, s2) ->
  internalUnloadModule n r s = close_library n r (set_instance nullptr info) s2.
Proof.
  intros Hn E1 E2. unfold internalUnloadModule. unfold bind at 1, gets at 1.
  rewrite Hn. unfold bind. by rewrite E1, E2.
Qed.

(** X3, what the flag suppresses.  From the same state, the internal
    unload with [isReloading] set and [unloadModule] return the same
    result, make the same calls into the linker and the module and leave
    the same map.  They differ only in events: the public one broadcasts,
    after everything else, the [Unloaded] event of a success or the
    [ErrorUnloading] event of a missing name.  Faults and a failed
    [dlclose] are reported by both. *)
Theorem suppression_changes_events_only n s :
  exists res sT sF,
    internalUnloadModule n true s = (Returns res, sT) /\
    unloadModule n s = (Returns res, sF) /\
    CppLoadedModules sT = CppLoadedModules sF /\
    foreign_of (added s sT) = foreign_of (added s sF) /\
    events_of (added s sF) = events_of (added s sT) ++ suppressed_events n res.
Proof.
  unfold unloadModule. destruct (CppLoadedModules s !! n) as [info|] eqn:Hn.
  - destruct (shutdown_instance_exact n info s)
      as (s1 & ta & rsv & E1 & [Hc1 Ht1] & Hm1 & _).
    destruct (destroy_instance_exact n info s1)
      as (s2 & tb & dv & rdv & E2 & [Hc2 Ht2] & Hm2 & _).
    destruct (close_library_flag n (set_instance nullptr info) s2)
      as (res & sT & sF & tT & tF & ET & EF & [HcT HtT] & [HcF HtF] & Hm & Hfo & Hev & _).
    rewrite !(internalUnloadModule_stages n _ info s s1 s2 Hn E1 E2), ET, EF.
    exists res, sT, sF. split; [done|]. split; [done|]. split; [done|].
    rewrite (added_app s sT (ta ++ tb ++ tT)), (added_app s sF (ta ++ tb ++ tF)).
    + rewrite !foreign_of_app, !events_of_app, Hfo, Hev, !app_assoc. done.
    + by rewrite HtF, Ht2, Ht1, !app_assoc.
    + by rewrite HtT, Ht2, Ht1, !app_assoc.
  - destruct (internalUnloadModule_absent n true s Hn) as (sT & tT & ET & HfT & HmT & HoT & HeT).
    destruct (internalUnloadModule_absent n false s Hn) as (sF & tF & EF & HfF & HmF & HoF & HeF).
    eexists _, sT, sF. split; [done|]. split; [done|].
    rewrite (frame_added _ _ _ HfT), (frame_added _ _ _ HfF).
    split; [congruence|]. split; [congruence|]. by rewrite HeT, HeF.
Qed.

(** ** The exits of [loadModule] *)

(** Every way through [loadModule], for a hypothesis [H] that it ran:
    [H : loadModule p s = (r, s')] becomes the facts of one path, with the
    calls in [Hcalls], the events in [Hev] and the map in [Hmap]. *)
Ltac load_paths H :=
  let HL := fresh "HL" in
  let Hfind := fresh "Hfind" in
  let Hpath := fresh "Hpath" in
  let Hf := fresh "Hf" in
  let Hev := fresh "Hev" in
  let Hcalls := fresh "Hcalls" in
  let Hmap := fresh "Hmap" in
  let E := fresh "E" in
  match type of H with
  | loadModule ?p ?s = _ =>
      pose proof (loadModule_spec p s) as HL;
      destruct (find_path p (entries (CppLoadedModules s))) as [?found|] eqn:Hfind;
      [ rewrite HL in H; injection H as <- <-; clear HL;
        try (unfold added in *; rewrite drop_all in * )
      | destruct HL as (?r1 & ?s1 & ?t & E & Hf &
          [(?st & ?info & ?msg & -> & Hev & Hpath)|(-> & Hev & Hmap & Hpath)]);
        rewrite E in H;
        [ injection H as <- <-;
          rewrite ?(frame_added _ _ _ Hf) in *;
          inversion Hpath as
            [ ?e | ?h ?d ?e ?rc ? | ?h ?f ?d ?o ?rc ? ? ? ?Hkept
            | ?h ?f ?d ?inst ?e ?td ?rc ?n ? ? ? ?Htd ?Hkept
            | ?h ?f ?d ?inst ?td ?rc ?n ? ? ? ?Htd ?Htaken
            | ?h ?f ?d ?inst ?n ?v ? ? ? ?Hfree ]; subst;
          match goal with Hc : _ = foreign_of _ |- _ =>
            rename Hc into Hcalls; symmetry in Hcalls end;
          match goal with Hm : _ = CppLoadedModules _ |- _ =>
            rename Hm into Hmap; symmetry in Hmap end;
          cbn [load_event] in Hev;
          clear Hpath E
        | first
            [ discriminate H
            | injection H as <- <-;
              rewrite ?(frame_added _ _ _ Hf) in *;
              inversion Hpath as
                [ ?h ?f ?d ?what ?rc ? ? ?Hgone
                | ?h ?f ?d ?inst ?e ?td ?rc ? ? ? ?Htd ?Hgone ]; subst;
              match goal with Hc : _ = foreign_of _ |- _ =>
                rename Hc into Hcalls; symmetry in Hcalls end;
              clear Hpath E ] ] ]
  end.

Lemma destroy_calls_cases d inst td :
  destroy_calls d inst td ->
  (is_null d = true /\ td = []) \/
  (is_null d = false /\ exists o, td = [ADestroy d inst o]).
Proof.
  unfold destroy_calls. destruct (is_null d); [by left|by right].
Qed.

(** X4, a load that fails.  Whenever [loadModule p] returns a result
    that is not [Success], the result is [Error] with a descriptor whose
    path is [p], and the map is what it was.  If the path check stopped it,
    the descriptor is the one already loaded and nothing is broadcast;
    otherwise the descriptor carries no pointers and exactly one event is
    broadcast, an [ErrorLoading] with the descriptor and message of the
    result. *)
Theorem failed_load_leaves_no_entry p s res s' :
  loadModule p s = (Returns res, s') ->
  status res <> Success ->
  exists msg info,
    res = mkModuleResult Error msg (Some info) /\
    path info = p /\
    CppLoadedModules s' = CppLoadedModules s /\
    match find_path p (entries (CppLoadedModules s)) with
    | Some found => info = found /\ events_of (added s s') = []
    | None =>
        libraryHandle info = nullptr /\ instance info = nullptr /\
        events_of (added s s') = [(ErrorLoading, info, msg)]
    end.
Proof.
  intros Hrun Hst. load_paths Hrun; try rewrite Hfind; try (by destruct Hst).
  - apply find_path_Some in Hfind as [Hp _]. by eexists _, _.
  - by eexists _, _.
  - by eexists _, _.
  - by eexists _, _.
  - by eexists _, _.
  - by eexists _, _.
Qed.

Lemma dlclose_calls_foreign t : dlclose_calls (foreign_of t) = dlclose_calls t.
Proof. apply omap_foreign. by intros []. Qed.

Lemma dlopen_results_foreign t : dlopen_results (foreign_of t) = dlopen_results t.
Proof. apply omap_foreign. by intros []. Qed.


Lemma destroy_targets_foreign t : destroy_targets (foreign_of t) = destroy_targets t.
Proof. apply omap_foreign. by intros []. Qed.

(** X5, no library is left open without a descriptor.  A [loadModule]
    that succeeds closes nothing: the handle [dlopen] returned is the one
    in the descriptor.  A [loadModule] that fails passes to [dlclose]
    exactly the handle it got from [dlopen], once, if it got one; it never
    closes anything else. *)
Theorem load_closes_what_it_opened p s res s' :
  loadModule p s = (Returns res, s') ->
  match status res with
  | Success =>
      dlclose_calls (added s s') = [] /\
      libraryHandle <$> module res = head (dlopen_results (added s s'))
  | _ =>
      dlclose_calls (added s s') =
        filter (fun h => h <> nullptr) (dlopen_results (added s s'))
  end.
Proof.
  intros Hrun. load_paths Hrun; cbn [status module]; [done|..];
    rewrite <- (dlclose_calls_foreign t), <- (dlopen_results_foreign t), Hcalls;
    try (apply destroy_calls_cases in Htd as [[_ ->]|[_ [o ->]]]);
    cbn; try case_decide; done.
Qed.

(** X6, a file that does not open.  If no module of the path [p] is
    loaded and [dlopen] returns no handle, [loadModule p] asks [dlerror]
    next and calls nothing else: it returns [Error] with, in the message,
    the text [dlerror] gave in the world [dlopen] left, and broadcasts one
    [ErrorLoading] event with the same message to the callbacks; the map
    is as it was. *)
Theorem load_open_failure p s w1 e w2 :
  find_path p (entries (CppLoadedModules s)) = None ->
  dlopen p (world s) = (nullptr, w1) ->
  dlerror w1 = (e, w2) ->
  exists rs s',
    let msg := "Failed to load library: " +:+ p +:+ " (Error: " +:+ cstr e +:+ ")" in
    loadModule p s = (Returns (mkModuleResult Error msg (Some (error_info p))), s') /\
    length rs = length (CppEventCallbacks s) /\
    added s s' =
      [ADlopen p nullptr; ADlerror e; ABroadcast ErrorLoading (error_info p) msg] ++
      deliveries ErrorLoading (error_info p) msg (CppEventCallbacks s) rs /\
    answers w2 (deliveries ErrorLoading (error_info p) msg (CppEventCallbacks s) rs)
      (world s') /\
    CppLoadedModules s' = CppLoadedModules s.
Proof.
  intros Hfind Hopen Herr. cbn zeta.
  destruct (broadcastEvent_exact ErrorLoading (error_info p)
              ("Failed to load library: " +:+ p +:+ " (Error: " +:+ cstr e +:+ ")")
              (mkSystem w2 (CppLoadedModules s) (CppEventCallbacks s) (CppCoreAccess s)
                 ((trace s ++ [ADlopen p nullptr]) ++ [ADlerror e])))
    as (rs & s' & E & Hlen & Ht & Hans & Hm & Hl & Hc).
  cbn [trace world CppLoadedModules CppEventCallbacks CppCoreAccess] in *.
  exists rs, s'. split; [|split; [done|split; [|done]]].
  - unfold loadModule. unfold bind_u at 1, lift at 1, gets at 1. cbn beta iota.
    rewrite Hfind.
    unfold bind_u at 1, lift at 1, os_dlopen, linker at 1. rewrite Hopen.
    cbn beta iota. change (is_null nullptr) with true. cbn iota.
    unfold bind_u at 1, lift at 1, os_dlerror, linker at 1.
    cbn [world]. rewrite Herr. cbn beta iota zeta.
    cbn [CppLoadedModules CppEventCallbacks CppCoreAccess trace].
    unfold lift, fail_load, bind, error_info in *. by rewrite E.
  - apply added_app. by rewrite Ht, <- !app_assoc.
Qed.

Lemma symbols_differ : CREATE_MODULE_FUNC_NAME <> DESTROY_MODULE_FUNC_NAME.
Proof. discriminate. Qed.

(** X7, a library without the factory symbol.  If no module of the path
    [p] is loaded, [dlopen] gives a handle and [dlsym] does not find
    [create_module_instance], [loadModule p] has by then also looked up
    the destructor symbol; it asks [dlerror], closes the library and calls
    nothing else.  The result is [Error]; its message names the symbol and
    the path and ends with the text [dlerror] gave after the two lookups,
    if it gave one; one [ErrorLoading] event with the same message goes to
    the callbacks, and the map is as it was. *)
Theorem load_missing_factory p s h w1 w2 d w3 e w4 rc w5 :
  find_path p (entries (CppLoadedModules s)) = None ->
  dlopen p (world s) = (h, w1) ->
  h <> nullptr ->
  dlsym h CREATE_MODULE_FUNC_NAME w1 = (nullptr, w2) ->
  dlsym h DESTROY_MODULE_FUNC_NAME w2 = (d, w3) ->
  dlerror w3 = (e, w4) ->
  dlclose h w4 = (rc, w5) ->
  exists rs s',
    let msg :=
      "Failed to find '" +:+ CREATE_MODULE_FUNC_NAME +:+ "' in " +:+ p +:+ dlsym_note e in
    loadModule p s = (Returns (mkModuleResult Error msg (Some (error_info p))), s') /\
    length rs = length (CppEventCallbacks s) /\
    added s s' =
      [ADlopen p h; ADlsym h CREATE_MODULE_FUNC_NAME nullptr;
       ADlsym h DESTROY_MODULE_FUNC_NAME d; ADlerror e; ADlclose h rc;
       ABroadcast ErrorLoading (error_info p) msg] ++
      deliveries ErrorLoading (error_info p) msg (CppEventCallbacks s) rs /\
    answers w5 (deliveries ErrorLoading (error_info p) msg (CppEventCallbacks s) rs)
      (world s') /\
    CppLoadedModules s' = CppLoadedModules s.
Proof.
  intros Hfind Hopen Hh Hcreate Hdestroy Herr Hclose. cbn zeta.
  destruct (broadcastEvent_exact ErrorLoading (error_info p)
              ("Failed to find '" +:+ CREATE_MODULE_FUNC_NAME +:+ "' in " +:+ p +:+
               dlsym_note e)
              (mkSystem w5 (CppLoadedModules s) (CppEventCallbacks s) (CppCoreAccess s)
                 (((((trace s ++ [ADlopen p h]) ++
                     [ADlsym h CREATE_MODULE_FUNC_NAME nullptr]) ++
                    [ADlsym h DESTROY_MODULE_FUNC_NAME d]) ++ [ADlerror e]) ++
                  [ADlclose h rc])))
    as (rs & s' & E & Hlen & Ht & Hans & Hm & Hl & Hc).
  cbn [trace world CppLoadedModules CppEventCallbacks CppCoreAccess] in *.
  assert (is_null h = false) as Hnull by (by apply N.eqb_neq).
  exists rs, s'. split; [|split; [done|split; [|done]]].
  - unfold loadModule. unfold bind_u at 1, lift at 1, gets at 1. cbn beta iota.
    rewrite Hfind.
    unfold bind_u at 1, lift at 1, os_dlopen, linker at 1. rewrite Hopen.
    cbn beta iota. rewrite Hnull.
    unfold bind_u at 1, lift at 1, os_dlsym at 1, linker at 1.
    cbn [world]. rewrite Hcreate. cbn beta iota.
    unfold bind_u at 1, lift at 1, os_dlsym at 1, linker at 1.
    cbn [world]. rewrite Hdestroy. cbn beta iota.
    change (is_null nullptr) with true. cbn iota.
    unfold bind_u at 1, lift at 1, os_dlerror, linker at 1.
    cbn [world]. rewrite Herr. cbn beta iota zeta.
    unfold bind_u at 1, lift at 1, os_dlclose, linker at 1.
    cbn [world]. rewrite Hclose. cbn beta iota zeta.
    cbn [CppLoadedModules CppEventCallbacks CppCoreAccess trace].
    unfold lift, fail_load, bind, error_info, dlsym_note in *. by rewrite E.
  - apply added_app. by rewrite Ht, <- !app_assoc.
Qed.

(** Reading a hypothesis [a ∈ added s s'] about a call against the calls of
    the path. *)
Ltac among_calls H :=
  (apply elem_of_foreign in H; [|done]);
  match goal with Hcalls : foreign_of _ = _ |- _ => rewrite Hcalls in H end;
  try match goal with Htd : destroy_calls _ _ _ |- _ =>
        let Htd' := fresh Htd in
        pose proof Htd as Htd';
        apply destroy_calls_cases in Htd' as [[_ ->]|[_ [? ->]]] end;
  cbn [app] in H;
  repeat (apply elem_of_cons in H as [H|H]; [try discriminate H|]);
  try (by apply elem_of_nil in H).

(** X8, a factory that does not deliver.  If the factory symbol throws or
    returns [nullptr], [loadModule p] closes the library and calls nothing
    else, the destructor symbol included though it was looked up: no
    instance exists.  Every entry of the trace is what the platform
    answered.  If the factory threw an exception of a class of the module
    and [dlclose] closed the library, the load then reads the text of that
    exception out of the closed library: it has no defined result, and no
    event is broadcast.  Otherwise the result is [Error] with the message
    of the fault, one [ErrorLoading] event carries the same message, and
    the map is as it was. *)
Theorem load_factory_fault p s r s' f o :
  loadModule p s = (r, s') ->
  ACreate f o ∈ added s s' ->
  create_failed o = true ->
  exists h d rc,
    foreign_of (added s s') =
      [ADlopen p h; ADlsym h CREATE_MODULE_FUNC_NAME f;
       ADlsym h DESTROY_MODULE_FUNC_NAME d; ACreate f o; ADlclose h rc] /\
    answers (world s) (added s s') (world s') /\
    (if what_lost o rc then
       r = Undefined /\ events_of (added s s') = []
     else
       r = Returns (mkModuleResult Error (create_failure p o) (Some (error_info p))) /\
       events_of (added s s') = [(ErrorLoading, error_info p, create_failure p o)]) /\
    CppLoadedModules s' = CppLoadedModules s.
Proof.
  intros Hrun Hin Ho.
  pose proof (loadModule_answers p s) as Hans. rewrite Hrun in Hans. cbn [snd] in Hans.
  load_paths Hrun; [by apply elem_of_nil in Hin|..]; among_calls Hin;
    try (injection Hin as -> ->; cbn [create_failed] in Ho;
         by apply is_null_true in Ho).
  - injection Hin as -> ->. exists h, d, rc. rewrite Hkept. by repeat split.
  - injection Hin as -> ->. exists h, d, 0%Z. by repeat split.
Qed.

(** X9, an [initialize] that throws.  [loadModule p] then hands the
    instance to the destructor symbol if the library has one, and closes
    the library; every entry of the trace is what the platform answered,
    and [initialize] was given the pointer the loader was constructed
    with.  Only afterwards does the load ask the instance for its name.  If
    the instance went to the destructor symbol or the library closed, that
    call has no defined result: the load makes no further call and
    broadcasts nothing.  Otherwise it asks twice, for the message and for
    the descriptor of the one [ErrorLoading] event, and returns [Error].
    The map is as it was. *)
Theorem load_initialize_fault p s r s' inst core e :
  loadModule p s = (r, s') ->
  AInitialize inst core (Throws e) ∈ added s s' ->
  exists h f d td rc,
    core = CppCoreAccess s /\
    destroy_calls d inst td /\
    answers (world s) (added s s') (world s') /\
    (if released d rc then
       foreign_of (added s s') =
         [ADlopen p h; ADlsym h CREATE_MODULE_FUNC_NAME f;
          ADlsym h DESTROY_MODULE_FUNC_NAME d; ACreate f (Returns inst);
          AInitialize inst core (Throws e)] ++ td ++ [ADlclose h rc] /\
       r = Undefined /\
       events_of (added s s') = []
     else
       exists n,
         foreign_of (added s s') =
           [ADlopen p h; ADlsym h CREATE_MODULE_FUNC_NAME f;
            ADlsym h DESTROY_MODULE_FUNC_NAME d; ACreate f (Returns inst);
            AInitialize inst core (Throws e)] ++ td ++
           [ADlclose h rc; AGetName inst n; AGetName inst n] /\
         r = Returns (mkModuleResult Error (initialize_failure n e)
                        (Some (set_name n (error_info p)))) /\
         events_of (added s s') =
           [(ErrorLoading, set_name n (error_info p), initialize_failure n e)]) /\
    CppLoadedModules s' = CppLoadedModules s.
Proof.
  intros Hrun Hin.
  pose proof (loadModule_answers p s) as Hans. rewrite Hrun in Hans. cbn [snd] in Hans.
  load_paths Hrun; [by apply elem_of_nil in Hin|..]; among_calls Hin;
    injection Hin as -> -> ->; eexists h, f, d, _, rc;
    (split; [done|]); (split; [done|]); (split; [done|]);
    first [rewrite Hkept | rewrite Hgone]; first [by eauto | by repeat split].
Qed.


(** ** [reloadModule], phase by phase *)

Lemma added_frames s s1 s2 t1 t2 :
  frame s s1 t1 -> frame s1 s2 t2 -> added s s2 = added s s1 ++ added s1 s2.
Proof.
  intros H1 H2.
  by rewrite (frame_added _ _ _ (frame_trans _ _ _ _ _ H1 H2)),
    (frame_added _ _ _ H1), (frame_added _ _ _ H2).
Qed.

(** X11, a reload is the internal unload, the load of the old path and
    one more event.  When the internal unload of [n] (with the [Unloaded]
    event suppressed) succeeds, [reloadModule n] goes on with [loadModule]
    on the path of the descriptor it found, makes no call of its own, and
    leaves the map the load left.  After the events of the two phases it
    broadcasts one event: [Reloaded] with the new descriptor if the load
    succeeded, and then returns [Success] with it; otherwise [ErrorLoading]
    with a descriptor that holds only [n] and the path, and the result is
    [Error] with the message of the load behind the words [Reload failed
    during load phase: ]. *)
Theorem reload_is_unload_then_load n found s ures s1 lres s2 r s3 :
  CppLoadedModules s !! n = Some found ->
  internalUnloadModule n true s = (Returns ures, s1) ->
  status ures = Success ->
  loadModule (path found) s1 = (Returns lres, s2) ->
  reloadModule n s = (r, s3) ->
  r = Returns (reload_result n (path found) lres) /\
  CppLoadedModules s3 = CppLoadedModules s2 /\
  foreign_of (added s s3) = foreign_of (added s s1) ++ foreign_of (added s1 s2) /\
  events_of (added s s3) =
    events_of (added s s1) ++ events_of (added s1 s2) ++
    [reload_event n (path found) lres].
Proof.
  intros Hn E1 Hst E2 Hrun.
  destruct (reloadModule_unloaded n found s ures s1 lres s2 Hn E1 Hst E2)
    as (s3' & t & E3 & Hm & Hf3 & Hnoise).
  rewrite E3 in Hrun. injection Hrun as <- <-.
  destruct (internalUnloadModule_frame _ _ _ _ _ E1) as [t1 Hf1].
  destruct (loadModule_frame _ _ _ _ E2) as [t2 Hf2].
  split; [done|]. split; [done|].
  rewrite (added_frames s s2 s3' _ _ (frame_trans _ _ _ _ _ Hf1 Hf2) Hf3),
    (added_frames s s1 s2 _ _ Hf1 Hf2), (frame_added _ _ _ Hf3).
  rewrite !foreign_of_app, !events_of_app, foreign_of_cons, events_of_cons.
  cbn [is_foreign event_of].
  rewrite (noise_foreign t Hnoise), (noise_events t Hnoise), app_nil_r, <- app_assoc.
  split; [done|]. by destruct (reload_event n (path found) lres) as [[??]?].
Qed.

(** X12, a reload whose library does not close.  When the internal unload
    of [n] does not succeed, [reloadModule n] never reaches the load: it
    makes no further call, leaves the map as the unload left it, which is
    as it was, and returns [Error] with the message of the unload behind
    the words [Reload failed during unload phase: ].  The failed [dlclose]
    is reported twice: the last two events are both [ErrorUnloading], the
    one of the unload and the one of the reload, whose descriptor is the
    one of the unload under the name [n] and the old path. *)
Theorem reload_stops_at_failed_unload n found s ures s1 r s2 :
  CppLoadedModules s !! n = Some found ->
  internalUnloadModule n true s = (Returns ures, s1) ->
  status ures <> Success ->
  reloadModule n s = (r, s2) ->
  exists e evs,
    let info := set_path (path found) (set_name n (set_instance nullptr found)) in
    ures = mkModuleResult Error (close_failure n e) (Some (set_instance nullptr found)) /\
    r = Returns (mkModuleResult Error
                   ("Reload failed during unload phase: " +:+ close_failure n e)
                   (Some info)) /\
    CppLoadedModules s2 = CppLoadedModules s /\
    foreign_of (added s s2) = foreign_of (added s s1) /\
    dlopen_results (added s s2) = [] /\
    events_of (added s s2) =
      evs ++
      [(ErrorUnloading, set_instance nullptr found, close_failure n e);
       (ErrorUnloading, info,
        "Failed to unload module during reload: " +:+ close_failure n e)].
Proof.
  intros Hn E1 Hst Hrun.
  destruct (reloadModule_unload_failed n found s ures s1 Hn E1 Hst)
    as (s2' & t & E2 & Hm2 & Hf2 & Hnoise).
  rewrite E2 in Hrun. injection Hrun as <- <-.
  destruct (internalUnloadModule_exact n true found s Hn)
    as (st & s1' & t1 & E1' & Hf1 & Hcalls & Hev & Hm1).
  rewrite E1' in E1. injection E1 as <- <-.
  rewrite (added_frames s s1' s2' _ _ Hf1 Hf2), (frame_added _ _ _ Hf1),
    (frame_added _ _ _ Hf2).
  rewrite <- (dlopen_results_foreign (t1 ++ _)).
  rewrite !foreign_of_app, !events_of_app, foreign_of_cons, events_of_cons.
  cbn [is_foreign event_of].
  rewrite (noise_foreign t Hnoise), (noise_events t Hnoise), app_nil_r, Hev, Hm2, Hm1.
  rewrite Hcalls.
  revert Hst. unfold unload_result, unload_map, unload_events, unload_calls.
  destruct (closed found st) eqn:Hclosed; [done|]. intros _.
  cbn [message module default].
  exists (dlerror_said st), (fault_report (shutdown_fault n) found (shutdown_step found st) ++
    fault_report (destroy_fault n) found (destroy_step found st)).
  repeat split.
  - unfold dlopen_results, call_if.
    by destruct (shutdown_step found st), (is_null (libraryHandle found)),
      (destroy_step found st), (close_step found st).
  - by rewrite <- !app_assoc.
Qed.

(** ** The steps of a run *)

Lemma basic_refl s : basic s s.
Proof. by apply (basic_silent s s []); [apply frame_refl|..]. Qed.

Lemma basic_frame s s' : basic s s' -> exists t, frame s s' t.
Proof.
  intros [p s0 res s1 E|n r s0 res s1 E|s0 s1 t Hf _ _].
  - by eapply loadModule_frame.
  - by eapply internalUnloadModule_frame.
  - by exists t.
Qed.

Lemma steps_frame s s' : rtc basic s s' -> exists t, frame s s' t.
Proof.
  induction 1 as [s|s s1 s2 H1 _ [t2 H2]].
  - exists []. apply frame_refl.
  - destruct (basic_frame _ _ H1) as [t1 Hf1]. exists (t1 ++ t2).
    by eapply frame_trans.
Qed.

Lemma reloadModule_basic n s : rtc basic s (reloadModule n s).2.
Proof.
  destruct (CppLoadedModules s !! n) as [found|] eqn:Hn.
  - destruct (internalUnloadModule_returns n true s) as (ures & s1 & E1).
    apply rtc_l with s1; [by eapply basic_unload|].
    assert (status ures = Success \/ status ures <> Success) as [Hst|Hst]
      by (destruct (status ures); auto).
    + destruct (loadModule_result (path found) s1)
        as [(lres & s2 & E2)|(s2 & E2)];
        (apply rtc_l with s2; [by eapply basic_load|]).
      * destruct (reloadModule_unloaded n found s ures s1 lres s2 Hn E1 Hst E2)
          as (s3 & t & -> & Hm & Hf & Hnoise).
        apply rtc_once. eapply basic_silent; [exact Hf| |exact Hm].
        rewrite foreign_of_cons. cbn [is_foreign]. by apply noise_foreign.
      * by rewrite (reloadModule_undefined n found s ures s1 s2 Hn E1 Hst E2).
    + destruct (reloadModule_unload_failed n found s ures s1 Hn E1 Hst)
        as (s2 & t & -> & Hm & Hf & Hnoise).
      apply rtc_once. eapply basic_silent; [exact Hf| |exact Hm].
      rewrite foreign_of_cons. cbn [is_foreign]. by apply noise_foreign.
  - by rewrite reloadModule_absent.
Qed.

Lemma run_op_basic o s : rtc basic s (run_op o s).
Proof.
  destruct o as [p|n|n| |cb]; cbn [run_op].
  - apply rtc_once. eapply basic_load. apply surjective_pairing.
  - apply rtc_once. eapply basic_unload. apply surjective_pairing.
  - apply reloadModule_basic.
  - done.
  - apply rtc_once. apply (basic_silent _ _ []); [|done..].
    split; [done|]. cbn. by rewrite app_nil_r.
Qed.

Lemma run_basic ops : forall s, rtc basic s (run ops s).
Proof.
  induction ops as [|o ops IH]; intros s; [done|].
  cbn. etrans; [apply run_op_basic|apply IH].
Qed.

Lemma steps_added s s1 s2 :
  basic s s1 -> rtc basic s1 s2 -> added s s2 = added s s1 ++ added s1 s2.
Proof.
  intros [t1 H1]%basic_frame [t2 H2]%steps_frame. by eapply added_frames.
Qed.

(** A property of the calls that holds of nothing and of two parts put
    together holds of a run of steps if it holds of each step. *)
Lemma steps_calls (Q : list Action -> Prop) :
  Q [] ->
  (forall t1 t2, Q t1 -> Q t2 -> Q (t1 ++ t2)) ->
  (forall s s', basic s s' -> Q (foreign_of (added s s'))) ->
  forall s s', rtc basic s s' -> Q (foreign_of (added s s')).
Proof.
  intros Hnil Happ Hstep s s'. induction 1 as [s|s s1 s2 H1 H2 IH].
  - unfold added. by rewrite drop_all.
  - rewrite (steps_added s s1 s2 H1 H2), foreign_of_app. apply Happ; [|done].
    by apply Hstep.
Qed.

(** What one step did, from its calls: nothing, a path through
    [loadModule] to a result, the steps of an unload of a descriptor that
    was there, or a path through [loadModule] to a step without defined
    behaviour. *)
Lemma basic_cases s s' :
  basic s s' ->
  exists t,
    frame s s' t /\
    ((foreign_of t = [] /\ CppLoadedModules s' = CppLoadedModules s) \/
     (exists p st info msg,
        load_path p (CppCoreAccess s) (CppLoadedModules s) st info msg
          (CppLoadedModules s') (foreign_of t)) \/
     (exists n info st,
        CppLoadedModules s !! n = Some info /\
        foreign_of t = unload_calls info st /\
        CppLoadedModules s' = unload_map n info st (CppLoadedModules s)) \/
     (exists p,
        load_stops p (CppCoreAccess s) (foreign_of t) /\
        CppLoadedModules s' = CppLoadedModules s)).
Proof.
  intros [p s0 res s1 E|n r s0 res s1 E|s0 s1 t Hf Hcalls Hm].
  - pose proof (loadModule_spec p s0) as HL.
    destruct (find_path p (entries (CppLoadedModules s0))).
    + rewrite HL in E. injection E as <- <-. exists []. split; [apply frame_refl|].
      by left.
    + destruct HL as (r1 & s2 & t & E2 & Hf &
        [(st & info & msg & -> & _ & Hpath)|(-> & _ & Hm & Hstop)]);
        rewrite E2 in E; injection E as <- <-; exists t; (split; [done|]).
      * right; left. by exists p, st, info, msg.
      * right; right; right. by exists p.
  - destruct (CppLoadedModules s0 !! n) as [info|] eqn:Hn.
    + destruct (internalUnloadModule_exact n r info s0 Hn)
        as (st & s2 & t & E2 & Hf & Hcalls & _ & Hm).
      rewrite E2 in E. injection E as <- <-. exists t. split; [done|].
      right; right; left. by exists n, info, st.
    + destruct (internalUnloadModule_absent n r s0 Hn)
        as (s2 & t & E2 & Hf & Hm & Hcalls & _).
      rewrite E2 in E. injection E as <- <-. exists t. split; [done|]. by left.
  - exists t. split; [done|]. by left.
Qed.

(** The cases of [unload_calls]: which pointers of the descriptor are
    null, and whether [dlsym] found the destructor symbol. *)
Ltac unload_cases info st :=
  unfold unload_calls, unload_map, closed, shutdown_step, destroy_step,
    found_destroyFunc, close_step, call_if in *;
  destruct (is_null (instance info)) eqn:?Hi,
    (is_null (libraryHandle info)) eqn:?Hh,
    (is_null (dlsym_found st)) eqn:?Hd;
  cbn [negb andb app is_null] in *;
  repeat match goal with
         | H : is_null _ = false |- _ => apply is_null_false in H
         | H : is_null _ = true |- _ => apply is_null_true in H
         end.

Ltac path_cases Hpath :=
  inversion Hpath as
    [ ?e | ?h ?d ?e ?rc ? | ?h ?f ?d ?o ?rc ? ? ? ?
    | ?h ?f ?d ?inst ?e ?td ?rc ?n ? ? ? ?Htd ?
    | ?h ?f ?d ?inst ?td ?rc ?n ? ? ? ?Htd ?Htaken
    | ?h ?f ?d ?inst ?n ?v ? ? ? ?Hfree ]; subst;
  try match goal with Htd : destroy_calls _ _ _ |- _ =>
        apply destroy_calls_cases in Htd as [[_ ->]|[?Hd%is_null_false [? ->]]] end;
  repeat match goal with
         | Hc : _ = foreign_of _ |- _ => rewrite <- Hc in *; clear Hc
         | Hm : _ = CppLoadedModules _ |- _ => rewrite <- Hm in *; clear Hm
         end.

Ltac stop_cases Hstop :=
  inversion Hstop as
    [ ?h ?f ?d ?what ?rc ? ? ?
    | ?h ?f ?d ?inst ?e ?td ?rc ? ? ? ?Htd ? ]; subst;
  try match goal with Htd : destroy_calls _ _ _ |- _ =>
        apply destroy_calls_cases in Htd as [[_ ->]|[?Hd%is_null_false [? ->]]] end;
  repeat match goal with
         | Hc : _ = foreign_of _ |- _ => rewrite <- Hc in *; clear Hc
         end.

Lemma pointers_used_app t1 t2 :
  pointers_used (t1 ++ t2) ≡ₚ pointers_used t1 ++ pointers_used t2.
Proof.
  unfold pointers_used, handles_used, functions_called, instances_used.
  rewrite !omap_app. solve_Permutation.
Qed.

Lemma pointers_used_foreign t : pointers_used (foreign_of t) = pointers_used t.
Proof.
  unfold pointers_used, handles_used, functions_called, instances_used.
  rewrite !omap_foreign; [done|by intros []..].
Qed.

(** X13, no null pointer is ever used.  In whatever state, descriptors
    with null pointers in the map included, no public operation passes a
    null handle to [dlsym] or [dlclose], calls through a null function
    pointer, or calls a method of a null instance or hands one to the
    destructor symbol. *)
Theorem never_uses_null (o : Op) s :
  Forall (fun p => p <> nullptr) (pointers_used (added s (run_op o s))).
Proof.
  rewrite <- pointers_used_foreign.
  apply (steps_calls (fun t => Forall (fun p => p <> nullptr) (pointers_used t)));
    [..|apply run_op_basic].
  - constructor.
  - intros t1 t2 H1 H2. rewrite pointers_used_app. by apply Forall_app.
  - clear s. intros s s' (t & Hf & Hcase)%basic_cases.
    rewrite (frame_added _ _ _ Hf). apply Forall_forall. intros q Hq ->. revert Hq.
    destruct Hcase as [[-> _]|[(p & st & info & msg & Hpath)|
      [(n & info & st & _ & -> & _)|(p & Hstop & _)]]].
    + by intros ?%elem_of_nil.
    + path_cases Hpath; cbn; set_solver.
    + unload_cases info st; cbn; set_solver.
    + stop_cases Hstop; cbn; set_solver.
Qed.

(** ** Pointers along a run *)

Lemma run_invariant (I : System -> Prop) :
  (forall s s', basic s s' -> I s -> I s') ->
  forall ops s, I s -> I (run ops s).
Proof.
  intros Hstep ops s Hs. pose proof (run_basic ops s) as Hrun.
  induction Hrun as [|s s1 s2 H1 _ IH]; [done|]. apply IH. by eapply Hstep.
Qed.

Lemma handles_used_foreign t : handles_used (foreign_of t) = handles_used t.
Proof. apply omap_foreign. by intros []. Qed.
Lemma functions_called_foreign t : functions_called (foreign_of t) = functions_called t.
Proof. apply omap_foreign. by intros []. Qed.
Lemma symbols_found_foreign t : symbols_found (foreign_of t) = symbols_found t.
Proof. apply omap_foreign. by intros []. Qed.
Lemma instances_made_foreign t : instances_made (foreign_of t) = instances_made t.
Proof. apply omap_foreign. by intros []. Qed.
Lemma instances_used_foreign t : instances_used (foreign_of t) = instances_used t.
Proof. apply omap_foreign. by intros []. Qed.
Lemma cores_given_foreign t : cores_given (foreign_of t) = cores_given t.
Proof. apply omap_foreign. by intros []. Qed.

Lemma handles_used_app t1 t2 : handles_used (t1 ++ t2) = handles_used t1 ++ handles_used t2.
Proof. apply omap_app. Qed.
Lemma functions_called_app t1 t2 : functions_called (t1 ++ t2) = functions_called t1 ++ functions_called t2.
Proof. apply omap_app. Qed.
Lemma symbols_found_app t1 t2 : symbols_found (t1 ++ t2) = symbols_found t1 ++ symbols_found t2.
Proof. apply omap_app. Qed.
Lemma instances_made_app t1 t2 : instances_made (t1 ++ t2) = instances_made t1 ++ instances_made t2.
Proof. apply omap_app. Qed.
Lemma instances_used_app t1 t2 : instances_used (t1 ++ t2) = instances_used t1 ++ instances_used t2.
Proof. apply omap_app. Qed.
Lemma cores_given_app t1 t2 : cores_given (t1 ++ t2) = cores_given t1 ++ cores_given t2.
Proof. apply omap_app. Qed.
Lemma dlopen_results_app t1 t2 : dlopen_results (t1 ++ t2) = dlopen_results t1 ++ dlopen_results t2.
Proof. apply omap_app. Qed.
Lemma dlclose_calls_app t1 t2 : dlclose_calls (t1 ++ t2) = dlclose_calls t1 ++ dlclose_calls t2.
Proof. apply omap_app. Qed.

(** The projections of the trace after a step, from the calls of the step. *)
Ltac project_step Ht t :=
  rewrite Ht;
  rewrite ?handles_used_app, ?functions_called_app, ?symbols_found_app,
    ?instances_made_app, ?instances_used_app, ?cores_given_app,
    ?dlopen_results_app, ?dlclose_calls_app;
  rewrite <- ?(handles_used_foreign t), <- ?(functions_called_foreign t),
    <- ?(symbols_found_foreign t), <- ?(instances_made_foreign t),
    <- ?(instances_used_foreign t), <- ?(cores_given_foreign t),
    <- ?(dlopen_results_foreign t), <- ?(dlclose_calls_foreign t).

(** X14, the loader passes on only what it was given.  Along every run
    from a fresh loader, every handle passed to [dlsym] or [dlclose] was
    returned by [dlopen], every function called was found by [dlsym],
    every instance used was returned by the factory, and every
    [initialize] received the pointer the loader was constructed with. *)
Theorem passes_on_only_what_it_was_given (ops : list Op) (w : W) (coreAccess : ptr) :
  given_only coreAccess (trace (run ops (fresh w coreAccess))).
Proof.
  pose (I := fun s : @System W =>
    CppCoreAccess s = coreAccess /\
    (forall k i, CppLoadedModules s !! k = Some i ->
       libraryHandle i ∈ dlopen_results (trace s) /\
       instance i ∈ instances_made (trace s)) /\
    given_only coreAccess (trace s)).
  enough (I (run ops (fresh w coreAccess))) as (_ & _ & H) by done.
  apply run_invariant.
  - clear. intros s s' (t & [Hc Ht] & Hcase)%basic_cases (Hcore & Hheld & Hh & Hf & Hi & Hg).
    split; [congruence|]. unfold given_only. project_step Ht t.
    rewrite Forall_app.
    destruct Hcase as [[-> ->]|[(p & st & info & msg & Hpath)|
      [(n & info & st & Hn & -> & ->)|(p & Hstop & ->)]]].
    4: { rewrite Hcore in Hstop.
         stop_cases Hstop; cbn; (split; [|split; [set_solver|split; [set_solver|split;
           [set_solver|split; [done|by repeat constructor]]]]]);
           intros k i Hki; destruct (Hheld k i Hki); set_solver. }
    + cbn. rewrite !app_nil_r. split; [done|]. repeat split; done.
    + rewrite Hcore in Hpath.
      path_cases Hpath; cbn; (split; [|split; [set_solver|split; [set_solver|split;
        [set_solver|split; [done|by repeat constructor]]]]]);
        try (intros k i Hki; destruct (Hheld k i Hki); set_solver).
      intros k i [[<- <-]|[_ Hki]]%lookup_insert_Some; [set_solver|].
      destruct (Hheld k i Hki); set_solver.
    + destruct (Hheld n info Hn) as [Hhn Hin].
      assert (forall m' : gmap string ModuleInfo, m' ⊆ CppLoadedModules s ->
        forall k i, m' !! k = Some i ->
          libraryHandle i ∈ dlopen_results (trace s) ++ [] /\
          instance i ∈ instances_made (trace s) ++ []) as Hsub.
      { intros m' Hm' k i Hki. rewrite !app_nil_r. apply (Hheld k).
        by eapply lookup_weaken. }
      unload_cases info st; cbn;
        (split; [|split; [set_solver|split; [set_solver|split;
           [set_solver|split; [done|by repeat constructor]]]]]);
        try case_bool_decide; first [apply Hsub; apply delete_subseteq | by apply Hsub].
  - repeat split; try done; cbn; set_solver.
Qed.

Lemma elem_of_handles_held (m : gmap string ModuleInfo) h :
  h ∈ handles_held m <-> exists k i, m !! k = Some i /\ libraryHandle i = h.
Proof.
  unfold handles_held. rewrite list_elem_of_fmap. split.
  - intros (i & -> & ([k i'] & -> & Hin)%list_elem_of_fmap).
    exists k, i'. split; [|done]. by apply elem_of_entries.
  - intros (k & i & Hki & <-). exists i. split; [done|].
    apply list_elem_of_fmap. exists (k, i). split; [done|]. by apply elem_of_entries.
Qed.

(** X15, no library is lost.  Along every run from a fresh loader, every
    handle [dlopen] returned is the handle of a descriptor in the map or
    has been passed to [dlclose]: a load that fails closes what it opened,
    and a descriptor leaves the map only after its handle went to
    [dlclose]. *)
Theorem no_library_is_lost (ops : list Op) (w : W) (coreAccess : ptr) h :
  let s := run ops (fresh w coreAccess) in
  h ∈ dlopen_results (trace s) ->
  h <> nullptr ->
  h ∈ dlclose_calls (trace s) \/ h ∈ handles_held (CppLoadedModules s).
Proof.
  cbn zeta. revert h.
  enough (forall h, h ∈ dlopen_results (trace (run ops (fresh w coreAccess))) ->
    h <> nullptr ->
    h ∈ dlclose_calls (trace (run ops (fresh w coreAccess))) \/
    exists k i, CppLoadedModules (run ops (fresh w coreAccess)) !! k = Some i /\
                libraryHandle i = h) as H
    by (intros h H1 H2; rewrite elem_of_handles_held; by apply H).
  apply (run_invariant (fun s => forall h,
    h ∈ dlopen_results (trace s) -> h <> nullptr ->
    h ∈ dlclose_calls (trace s) \/
    exists k i, CppLoadedModules s !! k = Some i /\ libraryHandle i = h)).
  - clear. intros s s' (t & [Hc Ht] & Hcase)%basic_cases Hinv h.
    project_step Ht t. intros [Hold|Hnew]%elem_of_app Hh.
    + (* opened before the step *)
      destruct (Hinv h Hold Hh) as [Hcl|(k & i & Hki & Hhi)]; [left; set_solver|].
      destruct Hcase as [[_ ->]|[(p & st & info & msg & Hpath)|
        [(n & info & st & Hn & -> & ->)|(p & _ & ->)]]].
      4: { right. by exists k, i. }
      * right. by exists k, i.
      * right. exists k, i. split; [|done].
        path_cases Hpath; try done.
        rewrite lookup_insert_ne; [done|]. by intros <-; rewrite Hfree in Hki.
      * destruct (decide (k = n)) as [->|Hkn].
        -- rewrite Hn in Hki. injection Hki as ->. rewrite <- Hhi in Hh.
           left. unload_cases i st; cbn; set_solver.
        -- right. exists k, i. split; [|done]. unfold unload_map.
           destruct (closed info st); [by rewrite lookup_delete_ne|done].
    + (* opened by the step *)
      destruct Hcase as [[Hcalls _]|[(p & st & info & msg & Hpath)|
        [(n & info & st & Hn & Hcalls & _)|(p & Hstop & _)]]].
      4: { stop_cases Hstop; cbn in Hnew; apply list_elem_of_singleton in Hnew as ->;
             left; apply elem_of_app; right; cbn; by constructor. }
      * rewrite Hcalls in Hnew. by apply elem_of_nil in Hnew.
      * path_cases Hpath; cbn in Hnew; apply list_elem_of_singleton in Hnew as ->;
          try done; try (left; apply elem_of_app; right; cbn; by constructor).
        right. eexists _, _. by rewrite lookup_insert_eq.
      * rewrite Hcalls in Hnew. exfalso. unload_cases info st; cbn in Hnew; set_solver.
  - cbn. by intros h ?%elem_of_nil.
Qed.

(** ** [listModules] and the order of the map *)

#[local] Instance key_le_trans : Transitive key_le.
Proof. intros a b c. unfold key_le. apply transitivity. Qed.
#[local] Instance key_le_total : Total key_le.
Proof. intros a b. unfold key_le. apply total, _. Qed.

Lemma entries_sorted (m : gmap string ModuleInfo) :
  StronglySorted (strict String.le) (entries m).*1.
Proof.
  assert (StronglySorted String.le (entries m).*1) as Hs.
  { eapply StronglySorted_fmap; [|apply (StronglySorted_merge_sort key_le); apply _].
    by intros x y. }
  pose proof (NoDup_entries_keys m) as Hnd.
  induction Hs as [|k l Hs IH Hall]; [constructor|].
  apply NoDup_cons in Hnd as [Hk Hnd]. constructor; [by apply IH|].
  apply Forall_forall. intros k' Hk'. split.
  - by eapply Forall_forall in Hall.
  - intros Hle. eapply Forall_forall in Hall; [|done].
    assert (k = k') as -> by (by apply (anti_symm String.le)). done.
Qed.

(** X16, the list of modules.  In every state a run from a fresh loader
    reaches, [listModules] returns exactly the descriptors of the map, each
    found in the map under its own name and with both pointers set, in
    strictly ascending order of names, and changes nothing, the trace
    included. *)
Theorem listModules_in_name_order (ops : list Op) (w : W) (coreAccess : ptr) :
  let s := run ops (fresh w coreAccess) in
  exists l,
    listModules s = (Returns l, s) /\
    length l = size (CppLoadedModules s) /\
    (forall info, info ∈ l <-> CppLoadedModules s !! name info = Some info) /\
    StronglySorted (strict String.le) (name <$> l) /\
    Forall (fun info => libraryHandle info <> nullptr /\ instance info <> nullptr) l.
Proof.
  cbn zeta.
  assert (registry_ok (CppLoadedModules (run ops (fresh w coreAccess)))) as Hok
    by apply run_ok, registry_ok_empty.
  set (s := run ops (fresh w coreAccess)) in *.
  exists (entries (CppLoadedModules s)).*2. split; [done|]. split; [|split; [|split]].
  - unfold entries. by rewrite length_fmap, merge_sort_Permutation, length_map_to_list.
  - intros info. rewrite list_elem_of_fmap. split.
    + intros ([k i] & -> & Hki%elem_of_entries). cbn.
      by destruct (proj1 Hok k i Hki) as [-> _].
    + intros Hi. exists (name info, info). split; [done|]. by apply elem_of_entries.
  - rewrite registry_ok_names by done. apply entries_sorted.
  - apply Forall_forall. intros info ([k i] & -> & Hki%elem_of_entries)%list_elem_of_fmap.
    by destruct (proj1 Hok k i Hki) as (_ & ? & ?).
Qed.

(** ** The order of the destructor *)







(** ** Unloading again *)


(** ** What is written to [std::cerr] *)

(** X19, what is written to [std::cerr].  Whatever a public operation or
    the destructor does, the lines it writes to [std::cerr] are the reports
    of the callbacks that threw, one line each and in the order of the
    faults; nothing else is ever written there, and no fault of a callback
    goes unreported. *)
Theorem cerr_reports_callback_faults s :
  (forall o : Op, cerr_of (added s (run_op o s)) = reports_of (added s (run_op o s))) /\
  cerr_of (added s (destructor s).2) = reports_of (added s (destructor s).2).
Proof.
  assert (forall t1 t2, cerr_of t1 = reports_of t1 -> cerr_of t2 = reports_of t2 ->
            cerr_of (t1 ++ t2) = reports_of (t1 ++ t2)) as Happ.
  { intros t1 t2 H1 H2. by rewrite cerr_of_app, reports_of_app, H1, H2. }
  assert (forall a, is_noise a = false -> cerr_of [a] = reports_of [a]) as Hone
    by (by intros []).
  assert (forall cb ty info msg r,
            cerr_of (notified cb ty info msg r) = reports_of (notified cb ty info msg r))
    as Hnote by (by intros cb ty info msg [[]|[what|what|]]).
  pose (Q := fun (_ : W) (t : list Action) (_ : W) => cerr_of t = reports_of t).
  assert (forall w, Q w [] w) as Q_nil by done.
  assert (forall w t1 w1 t2 w2, Q w t1 w1 -> Q w1 t2 w2 -> Q w (t1 ++ t2) w2) as Q_app
    by (intros; by apply Happ).
  assert (forall a w w', is_noise a = false -> answered a w w' -> Q w [a] w') as Q_one
    by (intros; by apply Hone).
  assert (forall cb ty info msg r w w', call_callback cb ty info msg w = (r, w') ->
            Q w (notified cb ty info msg r) w') as Q_notified
    by (intros; by apply Hnote).
  split.
  - intros o. by apply (emits_run_op Q).
  - apply (emits_added Q destructor s). by apply emits_destructor.
Qed.

End Properties.

(** * Runs on the concrete platform *)

Import Toy.

(** The scenario of the specification: loading ["/x/echo.so"] into a fresh
    loader succeeds with [{Echo, 1.0.0, /x/echo.so}] and one [Loaded]. *)
Example load_echo :
  let '(r, s) := loadModule "/x/echo.so" Toy.start in
  r = Returns (mkModuleResult Success "Module loaded successfully."
                 (Some Scenario.echo_info)) /\
  events_of (trace s) = [(Loaded, Scenario.echo_info, "Module loaded successfully.")] /\
  map_to_list (CppLoadedModules s) = [("Echo", Scenario.echo_info)].
Proof. vm_compute. done. Qed.

(** A missing file: [Error], one [ErrorLoading], map unchanged. *)
Example load_missing :
  let '(r, s) := loadModule "/x/missing.so" Scenario.echo_loaded in
  r = Returns (mkModuleResult Error
                 "Failed to load library: /x/missing.so (Error: no such file)"
                 (Some (error_info "/x/missing.so"))) /\
  count_events ErrorLoading (added Scenario.echo_loaded s) = 1 /\
  CppLoadedModules s = CppLoadedModules Scenario.echo_loaded.
Proof. vm_compute. done. Qed.

(** Callback 1 throws, callbacks 2 and 3 return: all three run, and the
    fault of callback 1 is one line on [std::cerr]. *)
Example broadcast_with_faulty_callback :
  let s := run [OpSubscribe 1; OpSubscribe 2; OpSubscribe 3] Toy.start in
  let '(r, s') := broadcastEvent Loaded Scenario.echo_info "hello" s in
  r = Returns tt /\
  callbacks_of (added s s') = [1; 2; 3] /\
  cerr_of (added s s') = ["Exception in ModuleEventCallback: boom"] /\
  CppEventCallbacks s' = [1; 2; 3].
Proof. vm_compute. done. Qed.

(** The run of [testModuleReload]: load, then reload by name.  Two
    [Loaded], no [Unloaded], one [Reloaded], no error event, and the module
    is still listed. *)
Example reload_echo :
  let s := run [OpLoad "/x/echo.so"; OpReload "Echo"] Toy.start in
  count_events Loaded (trace s) = 2 /\
  count_events Unloaded (trace s) = 0 /\
  count_events Reloaded (trace s) = 1 /\
  count_events ErrorLoading (trace s) = 0 /\
  count_events ErrorUnloading (trace s) = 0 /\
  (listModules s).1 =
    Returns [mkModuleInfo "Echo" "1.0.0" "/x/echo.so" 1%N 21%N].
Proof. vm_compute. done. Qed.

(** The run of [testModuleLoadUnloadList]: load, load again, unload, unload
    something else; nothing is listed at the end. *)
Example load_unload_list :
  let s1 := run [OpLoad "/x/echo.so"] Toy.start in
  let s2 := run [OpLoad "/x/echo.so"; OpUnload "Echo"] s1 in
  (loadModule "/x/echo.so" s1).1 =
    Returns (mkModuleResult Error "Module from this path is already loaded: /x/echo.so"
               (Some Scenario.echo_info)) /\
  returned_status (unloadModule "Echo" s1).1 = Some Success /\
  returned_status (unloadModule "NonExistentModule" s2).1 = Some NotFound /\
  (listModules s2).1 = Returns [].
Proof. vm_compute. done. Qed.

(** * The claims on the concrete platform *)

(** C2 at ["/x/echo.so"]: load, then unload ["Echo"]. *)
Lemma load_unload_round_trip_witness :
  (loadModule "/x/echo.so" Toy.start).1 =
    Returns (mkModuleResult Success "Module loaded successfully."
               (Some Scenario.echo_info)) /\
  close_failed
    (added Scenario.echo_loaded (unloadModule "Echo" Scenario.echo_loaded).2) = false /\
  (exists res2,
     (unloadModule "Echo" Scenario.echo_loaded).1 = Returns res2 /\
     status res2 = Success) /\
  CppLoadedModules (unloadModule "Echo" Scenario.echo_loaded).2 =
    CppLoadedModules Toy.start.
Proof.
  split; [vm_compute; reflexivity|]. split; [vm_compute; reflexivity|].
  apply (load_unload_round_trip "/x/echo.so" Toy.start
           (mkModuleResult Success "Module loaded successfully."
              (Some Scenario.echo_info))
           Scenario.echo_loaded Scenario.echo_info
           (unloadModule "Echo" Scenario.echo_loaded).1
           (unloadModule "Echo" Scenario.echo_loaded).2);
    vm_compute; reflexivity.
Defined.

(** C3 at ["/x/stuck.so"], whose [dlclose] returns -1. *)
Lemma unload_close_failure_witness :
  CppLoadedModules Scenario.stuck_loaded !! "Stuck" = Some Scenario.stuck_info /\
  close_failed
    (added Scenario.stuck_loaded (unloadModule "Stuck" Scenario.stuck_loaded).2) = true /\
  exists msg,
    (unloadModule "Stuck" Scenario.stuck_loaded).1 =
      Returns (mkModuleResult Error msg
                 (Some (set_instance nullptr Scenario.stuck_info))) /\
    last (events_of
            (added Scenario.stuck_loaded (unloadModule "Stuck" Scenario.stuck_loaded).2)) =
      Some (ErrorUnloading, set_instance nullptr Scenario.stuck_info, msg) /\
    CppLoadedModules (unloadModule "Stuck" Scenario.stuck_loaded).2 =
      CppLoadedModules Scenario.stuck_loaded /\
    CppLoadedModules (unloadModule "Stuck" Scenario.stuck_loaded).2 !! "Stuck" =
      Some Scenario.stuck_info.
Proof.
  split; [vm_compute; reflexivity|]. split; [vm_compute; reflexivity|].
  apply (unload_close_failure "Stuck" Scenario.stuck_info Scenario.stuck_loaded
           (unloadModule "Stuck" Scenario.stuck_loaded).1
           (unloadModule "Stuck" Scenario.stuck_loaded).2);
    vm_compute; reflexivity.
Defined.

(** C4, the name of a reloaded module.  The claim fails at
    ["/x/morph.so"]: the module is loaded as ["Morph"]; reloading ["Morph"]
    unloads and loads again without a fault and without any error event,
    broadcasts one [Loaded] and one [Reloaded] event and no [Unloaded], and
    returns [Success]; but the re-created instance calls itself ["Morph2"],
    and that, not ["Morph"], is the name of the returned descriptor and the
    key it is stored under. *)
Lemma reload_returns_other_name :
  CppLoadedModules Scenario.morph_loaded !! "Morph" = Some Scenario.morph_info /\
  count_events ErrorUnloading
    (added Scenario.morph_loaded (reloadModule "Morph" Scenario.morph_loaded).2) = 0 /\
  count_events ErrorLoading
    (added Scenario.morph_loaded (reloadModule "Morph" Scenario.morph_loaded).2) = 0 /\
  count_events Reloaded
    (added Scenario.morph_loaded (reloadModule "Morph" Scenario.morph_loaded).2) = 1 /\
  count_events Unloaded
    (added Scenario.morph_loaded (reloadModule "Morph" Scenario.morph_loaded).2) = 0 /\
  count_events Loaded
    (added Scenario.morph_loaded (reloadModule "Morph" Scenario.morph_loaded).2) = 1 /\
  exists info,
    (reloadModule "Morph" Scenario.morph_loaded).1 =
      Returns (mkModuleResult Success "Module reloaded successfully." (Some info)) /\
    name info = "Morph2" /\
    name info <> "Morph" /\
    CppLoadedModules (reloadModule "Morph" Scenario.morph_loaded).2 !! "Morph" = None /\
    CppLoadedModules (reloadModule "Morph" Scenario.morph_loaded).2 !! "Morph2" =
      Some info.
Proof.
  do 6 (split; [vm_compute; reflexivity|]).
  exists (mkModuleInfo "Morph2" "1.0.0" "/x/morph.so" 4%N 24%N).
  split; [vm_compute; reflexivity|]. split; [vm_compute; reflexivity|].
  split; [discriminate|]. split; vm_compute; reflexivity.
Qed.

(** C5 at ["/x/echo.so"], loaded twice. *)
Lemma load_same_path_rejected_witness :
  CppLoadedModules Scenario.echo_loaded !! "Echo" = Some Scenario.echo_info /\
  path Scenario.echo_info = "/x/echo.so" /\
  exists s',
    loadModule "/x/echo.so" Scenario.echo_loaded =
      (Returns (mkModuleResult Error
                  ("Module from this path is already loaded: " +:+ "/x/echo.so")
                  (Some Scenario.echo_info)), s') /\
    s' = Scenario.echo_loaded /\
    events_of (added Scenario.echo_loaded s') = [] /\
    filter (fun i => path i = "/x/echo.so") (entries (CppLoadedModules s')).*2 =
      [Scenario.echo_info].
Proof.
  split; [vm_compute; reflexivity|]. split; [vm_compute; reflexivity|].
  apply (load_same_path_rejected [OpLoad "/x/echo.so"] 0 77%N "Echo"
           Scenario.echo_info "/x/echo.so");
    vm_compute; reflexivity.
Defined.

(** C6 at ["/x/copy.so"], whose module also calls itself ["Echo"]. *)
Lemma load_duplicate_name_unwinds_witness :
  is_Some (CppLoadedModules Scenario.echo_loaded !! "Echo") /\
  exists h f d td rc,
    let msg :=
      "Module with name '" +:+ "Echo" +:+
      "' already loaded. Module names must be unique." in
    let errorInfo := mkModuleInfo "Echo" "" "/x/copy.so" nullptr nullptr in
    (loadModule "/x/copy.so" Scenario.echo_loaded).1 =
      Returns (mkModuleResult Error msg (Some errorInfo)) /\
    events_of (added Scenario.echo_loaded
                 (loadModule "/x/copy.so" Scenario.echo_loaded).2) =
      [(ErrorLoading, errorInfo, msg)] /\
    foreign_of (added Scenario.echo_loaded
                  (loadModule "/x/copy.so" Scenario.echo_loaded).2) =
      [ADlopen "/x/copy.so" h; ADlsym h CREATE_MODULE_FUNC_NAME f;
       ADlsym h DESTROY_MODULE_FUNC_NAME d; ACreate f (Returns 22%N);
       AInitialize 22%N 77%N (Returns tt); AGetName 22%N "Echo"] ++ td ++
      [ADlclose h rc] /\
    destroy_calls d 22%N td /\
    answers (world Scenario.echo_loaded)
      (added Scenario.echo_loaded (loadModule "/x/copy.so" Scenario.echo_loaded).2)
      (world (loadModule "/x/copy.so" Scenario.echo_loaded).2) /\
    CppLoadedModules (loadModule "/x/copy.so" Scenario.echo_loaded).2 =
      CppLoadedModules Scenario.echo_loaded.
Proof.
  split; [by eexists|].
  apply (load_duplicate_name_unwinds "/x/copy.so" Scenario.echo_loaded
           (loadModule "/x/copy.so" Scenario.echo_loaded).1
           (loadModule "/x/copy.so" Scenario.echo_loaded).2 22%N 77%N "Echo").
  - vm_compute; reflexivity.
  - vm_compute. repeat first [by left | right].
  - vm_compute. repeat first [by left | right].
  - by eexists.
Defined.

(** C7 as the specification states it fails at ["/x/stuck.so"]: the
    library does not close, the internal unload of the destructor's loop
    keeps the descriptor, and the destructor then drops it. *)
Lemma destructor_drops_unclosed_descriptor :
  CppLoadedModules Scenario.stuck_loaded !! "Stuck" = Some Scenario.stuck_info /\
  close_failed
    (added Scenario.stuck_loaded (destructor Scenario.stuck_loaded).2) = true /\
  CppLoadedModules (unload_each ["Stuck"] Scenario.stuck_loaded).2 !! "Stuck" =
    Some Scenario.stuck_info /\
  CppLoadedModules (destructor Scenario.stuck_loaded).2 !! "Stuck" = None.
Proof. repeat split; vm_compute; reflexivity. Qed.


(** C8 at a name that was never loaded. *)
Lemma unload_absent_not_found_witness :
  CppLoadedModules Scenario.echo_loaded !! "never-loaded" = None /\
  exists s',
    unloadModule "never-loaded" Scenario.echo_loaded =
      (Returns (mkModuleResult NotFound ("Module not found: " +:+ "never-loaded") None),
       s') /\
    CppLoadedModules s' = CppLoadedModules Scenario.echo_loaded /\
    events_of (added Scenario.echo_loaded s') =
      [(ErrorUnloading, set_name "never-loaded" ModuleInfo_default,
        "Module not found for unloading.")] /\
    foreign_of (added Scenario.echo_loaded s') = [].
Proof.
  split; [vm_compute; reflexivity|].
  apply (unload_absent_not_found "never-loaded" Scenario.echo_loaded). vm_compute; reflexivity.
Defined.

(** C10 at ["Echo"]. *)
Lemma unload_success_snapshot_witness :
  CppLoadedModules Scenario.echo_loaded !! "Echo" = Some Scenario.echo_info /\
  exists snapshot,
    module (mkModuleResult Success "Module unloaded successfully."
              (Some (set_libraryHandle nullptr (set_instance nullptr Scenario.echo_info)))) =
      Some snapshot /\
    last (events_of
            (added Scenario.echo_loaded (unloadModule "Echo" Scenario.echo_loaded).2)) =
      Some (Unloaded, snapshot, "Module unloaded successfully.") /\
    count_events Unloaded
      (added Scenario.echo_loaded (unloadModule "Echo" Scenario.echo_loaded).2) = 1 /\
    instance snapshot = nullptr /\
    libraryHandle snapshot = nullptr /\
    name snapshot = name Scenario.echo_info /\
    version snapshot = version Scenario.echo_info /\
    path snapshot = path Scenario.echo_info /\
    CppLoadedModules (unloadModule "Echo" Scenario.echo_loaded).2 =
      delete "Echo" (CppLoadedModules Scenario.echo_loaded).
Proof.
  split; [vm_compute; reflexivity|].
  apply (unload_success_snapshot "Echo" Scenario.echo_info Scenario.echo_loaded
           (mkModuleResult Success "Module unloaded successfully."
              (Some (set_libraryHandle nullptr (set_instance nullptr Scenario.echo_info))))
           (unloadModule "Echo" Scenario.echo_loaded).2);
    vm_compute; reflexivity.
Defined.

(** * The further properties on the concrete platforms *)

Import Faulty.


(** X2 at ["Stop"], whose [shutdown] and destructor symbol both throw:
    two faults, two [ErrorUnloading] events. *)
Lemma unload_reports_every_fault_witness :
  let s := Faulty.stop_loaded in
  let r := (unloadModule "Stop" s).1 in
  let s' := (unloadModule "Stop" s).2 in
  CppLoadedModules s !! "Stop" = Some Faulty.stop_info /\
  unloadModule "Stop" s = (r, s') /\
  faults (added s s') = 2 /\
  count_events ErrorUnloading (added s s') =
    faults (added s s') + (if close_failed (added s s') then 1 else 0).
Proof.
  intros s r s'.
  split; [vm_compute; reflexivity|]. split; [vm_compute; reflexivity|].
  split; [vm_compute; reflexivity|].
  apply (unload_reports_every_fault "Stop" Faulty.stop_info s r s');
    vm_compute; reflexivity.
Defined.

(** X4 at ["/f/throw.so"], whose factory throws. *)
Lemma failed_load_leaves_no_entry_witness :
  let p := "/f/throw.so" in
  let s := Faulty.stop_loaded in
  let res := mkModuleResult Error
               (CREATE_MODULE_FUNC_NAME +:+ " threw an exception: out of memory")
               (Some (error_info p)) in
  let s' := (loadModule p s).2 in
  loadModule p s = (Returns res, s') /\
  status res <> Success /\
  exists msg info,
    res = mkModuleResult Error msg (Some info) /\
    path info = p /\
    CppLoadedModules s' = CppLoadedModules s /\
    match find_path p (entries (CppLoadedModules s)) with
    | Some found => info = found /\ events_of (added s s') = []
    | None =>
        libraryHandle info = nullptr /\ instance info = nullptr /\
        events_of (added s s') = [(ErrorLoading, info, msg)]
    end.
Proof.
  intros p s res s'.
  split; [vm_compute; reflexivity|]. split; [discriminate|].
  apply (failed_load_leaves_no_entry p s res s'); [vm_compute; reflexivity|].
  discriminate.
Defined.

(** X5 at ["/f/null.so"], whose factory returns [nullptr]: handle 6 is
    opened and closed. *)
Lemma load_closes_what_it_opened_witness :
  let p := "/f/null.so" in
  let s := Faulty.start in
  let res := mkModuleResult Error
               (CREATE_MODULE_FUNC_NAME +:+ " returned nullptr from " +:+ p)
               (Some (error_info p)) in
  let s' := (loadModule p s).2 in
  loadModule p s = (Returns res, s') /\
  dlopen_results (added s s') = [6%N] /\
  match status res with
  | Success =>
      dlclose_calls (added s s') = [] /\
      libraryHandle <$> module res = head (dlopen_results (added s s'))
  | _ =>
      dlclose_calls (added s s') =
        filter (fun h => h <> nullptr) (dlopen_results (added s s'))
  end.
Proof.
  intros p s res s'.
  split; [vm_compute; reflexivity|]. split; [vm_compute; reflexivity|].
  apply (load_closes_what_it_opened p s res s'). vm_compute; reflexivity.
Defined.

(** X6 at a path no library is found at, with two callbacks subscribed,
    the first of which throws. *)
Lemma load_open_failure_witness :
  let p := "/x/none.so" in
  let s := run [OpSubscribe 1; OpSubscribe 2; OpLoad "/x/echo.so"] Toy.start in
  let e := Some "no such file" in
  find_path p (entries (CppLoadedModules s)) = None /\
  dlopen p (world s) = (nullptr, 1) /\
  dlerror 1 = (e, 1) /\
  exists rs s',
    let msg := "Failed to load library: " +:+ p +:+ " (Error: " +:+ cstr e +:+ ")" in
    loadModule p s = (Returns (mkModuleResult Error msg (Some (error_info p))), s') /\
    length rs = length (CppEventCallbacks s) /\
    added s s' =
      [ADlopen p nullptr; ADlerror e; ABroadcast ErrorLoading (error_info p) msg] ++
      deliveries ErrorLoading (error_info p) msg (CppEventCallbacks s) rs /\
    answers 1 (deliveries ErrorLoading (error_info p) msg (CppEventCallbacks s) rs)
      (world s') /\
    CppLoadedModules s' = CppLoadedModules s.
Proof.
  intros p s e.
  split; [vm_compute; reflexivity|]. split; [vm_compute; reflexivity|].
  split; [vm_compute; reflexivity|].
  apply (load_open_failure p s 1 e 1); vm_compute; reflexivity.
Defined.

(** X7 at ["/f/plain.so"], which exports no factory, with one callback
    subscribed. *)
Lemma load_missing_factory_witness :
  let p := "/f/plain.so" in
  let s := run [OpSubscribe 3] Faulty.start in
  let h := 5%N in
  let d := 205%N in
  let e := Some "undefined symbol" in
  let rc := 0%Z in
  find_path p (entries (CppLoadedModules s)) = None /\
  dlopen p (world s) = (h, tt) /\
  h <> nullptr /\
  dlsym h CREATE_MODULE_FUNC_NAME tt = (nullptr, tt) /\
  dlsym h DESTROY_MODULE_FUNC_NAME tt = (d, tt) /\
  dlerror tt = (e, tt) /\
  dlclose h tt = (rc, tt) /\
  exists rs s',
    let msg :=
      "Failed to find '" +:+ CREATE_MODULE_FUNC_NAME +:+ "' in " +:+ p +:+ dlsym_note e in
    loadModule p s = (Returns (mkModuleResult Error msg (Some (error_info p))), s') /\
    length rs = length (CppEventCallbacks s) /\
    added s s' =
      [ADlopen p h; ADlsym h CREATE_MODULE_FUNC_NAME nullptr;
       ADlsym h DESTROY_MODULE_FUNC_NAME d; ADlerror e; ADlclose h rc;
       ABroadcast ErrorLoading (error_info p) msg] ++
      deliveries ErrorLoading (error_info p) msg (CppEventCallbacks s) rs /\
    answers tt (deliveries ErrorLoading (error_info p) msg (CppEventCallbacks s) rs)
      (world s') /\
    CppLoadedModules s' = CppLoadedModules s.
Proof.
  intros p s h d e rc.
  split; [vm_compute; reflexivity|]. split; [vm_compute; reflexivity|].
  split; [discriminate|]. split; [vm_compute; reflexivity|].
  split; [vm_compute; reflexivity|]. split; [vm_compute; reflexivity|].
  split; [vm_compute; reflexivity|].
  apply (load_missing_factory p s h tt tt d tt e tt rc tt);
    first [discriminate | vm_compute; reflexivity].
Defined.

(** X8 at ["/f/own.so"], whose factory throws an exception of a class of
    its own and whose library closes: the load has no defined result. *)
Lemma load_factory_fault_witness :
  let p := "/f/own.so" in
  let s := Faulty.start in
  let r := (loadModule p s).1 in
  let s' := (loadModule p s).2 in
  let f := 110%N in
  let o := Throws (ModuleException "bad plugin") in
  loadModule p s = (r, s') /\
  ACreate f o ∈ added s s' /\
  create_failed o = true /\
  r = Undefined /\
  exists h d rc,
    foreign_of (added s s') =
      [ADlopen p h; ADlsym h CREATE_MODULE_FUNC_NAME f;
       ADlsym h DESTROY_MODULE_FUNC_NAME d; ACreate f o; ADlclose h rc] /\
    answers (world s) (added s s') (world s') /\
    (if what_lost o rc then
       r = Undefined /\ events_of (added s s') = []
     else
       r = Returns (mkModuleResult Error (create_failure p o) (Some (error_info p))) /\
       events_of (added s s') = [(ErrorLoading, error_info p, create_failure p o)]) /\
    CppLoadedModules s' = CppLoadedModules s.
Proof.
  intros p s r s' f o.
  split; [vm_compute; reflexivity|].
  split; [vm_compute; repeat first [by left | right]|].
  split; [reflexivity|]. split; [vm_compute; reflexivity|].
  apply (load_factory_fault p s r s' f o); [vm_compute; reflexivity| |reflexivity].
  vm_compute; repeat first [by left | right].
Defined.

(** X9 at ["/f/init.so"], whose [initialize] throws and which exports the
    destructor symbol: the instance is gone when the load asks its name. *)
Lemma load_initialize_fault_witness :
  let p := "/f/init.so" in
  let s := Faulty.start in
  let r := (loadModule p s).1 in
  let s' := (loadModule p s).2 in
  let inst := 18%N in
  let core := 55%N in
  let e := StdException "no configuration" in
  loadModule p s = (r, s') /\
  AInitialize inst core (Throws e) ∈ added s s' /\
  r = Undefined /\
  exists h f d td rc,
    core = CppCoreAccess s /\
    destroy_calls d inst td /\
    answers (world s) (added s s') (world s') /\
    (if released d rc then
       foreign_of (added s s') =
         [ADlopen p h; ADlsym h CREATE_MODULE_FUNC_NAME f;
          ADlsym h DESTROY_MODULE_FUNC_NAME d; ACreate f (Returns inst);
          AInitialize inst core (Throws e)] ++ td ++ [ADlclose h rc] /\
       r = Undefined /\
       events_of (added s s') = []
     else
       exists n,
         foreign_of (added s s') =
           [ADlopen p h; ADlsym h CREATE_MODULE_FUNC_NAME f;
            ADlsym h DESTROY_MODULE_FUNC_NAME d; ACreate f (Returns inst);
            AInitialize inst core (Throws e)] ++ td ++
           [ADlclose h rc; AGetName inst n; AGetName inst n] /\
         r = Returns (mkModuleResult Error (initialize_failure n e)
                        (Some (set_name n (error_info p)))) /\
         events_of (added s s') =
           [(ErrorLoading, set_name n (error_info p), initialize_failure n e)]) /\
    CppLoadedModules s' = CppLoadedModules s.
Proof.
  intros p s r s' inst core e.
  split; [vm_compute; reflexivity|].
  split; [vm_compute; repeat first [by left | right]|].
  split; [vm_compute; reflexivity|].
  apply (load_initialize_fault p s r s' inst core e); [vm_compute; reflexivity|].
  vm_compute; repeat first [by left | right].
Defined.

(** A library that neither exports the destructor symbol nor closes keeps
    its instance: at ["/f/kept.so"] the load that fails in [initialize]
    returns [Error] with the name the instance reports. *)
Example load_kept :
  (loadModule "/f/kept.so" Faulty.start).1 =
    Returns (mkModuleResult Error
               "Module Kept initialize() failed with unknown exception."
               (Some (set_name "Kept" (error_info "/f/kept.so")))).
Proof. vm_compute. reflexivity. Qed.


(** X11 at ["Echo"]: the library closes and loads again. *)
Lemma reload_is_unload_then_load_witness :
  let n := "Echo" in
  let found := Scenario.echo_info in
  let s := Scenario.echo_loaded in
  let ures := mkModuleResult Success "Module unloaded successfully."
                (Some (set_libraryHandle nullptr (set_instance nullptr found))) in
  let s1 := (internalUnloadModule n true s).2 in
  let lres := mkModuleResult Success "Module loaded successfully."
                (Some (mkModuleInfo "Echo" "1.0.0" "/x/echo.so" 1%N 21%N)) in
  let s2 := (loadModule (path found) s1).2 in
  let r := (reloadModule n s).1 in
  let s3 := (reloadModule n s).2 in
  CppLoadedModules s !! n = Some found /\
  internalUnloadModule n true s = (Returns ures, s1) /\
  status ures = Success /\
  loadModule (path found) s1 = (Returns lres, s2) /\
  reloadModule n s = (r, s3) /\
  r = Returns (reload_result n (path found) lres) /\
  CppLoadedModules s3 = CppLoadedModules s2 /\
  foreign_of (added s s3) = foreign_of (added s s1) ++ foreign_of (added s1 s2) /\
  events_of (added s s3) =
    events_of (added s s1) ++ events_of (added s1 s2) ++
    [reload_event n (path found) lres].
Proof.
  intros n found s ures s1 lres s2 r s3.
  split; [vm_compute; reflexivity|]. split; [vm_compute; reflexivity|].
  split; [vm_compute; reflexivity|]. split; [vm_compute; reflexivity|].
  split; [vm_compute; reflexivity|].
  apply (reload_is_unload_then_load n found s ures s1 lres s2 r s3);
    vm_compute; reflexivity.
Defined.

(** X12 at ["Stuck"], whose library does not close. *)
Lemma reload_stops_at_failed_unload_witness :
  let n := "Stuck" in
  let found := Scenario.stuck_info in
  let s := Scenario.stuck_loaded in
  let ures := (mkModuleResult Error (close_failure n (Some "no such file"))
                 (Some (set_instance nullptr found))) in
  let s1 := (internalUnloadModule n true s).2 in
  let r := (reloadModule n s).1 in
  let s2 := (reloadModule n s).2 in
  CppLoadedModules s !! n = Some found /\
  internalUnloadModule n true s = (Returns ures, s1) /\
  status ures <> Success /\
  reloadModule n s = (r, s2) /\
  exists e evs,
    let info := set_path (path found) (set_name n (set_instance nullptr found)) in
    ures = mkModuleResult Error (close_failure n e) (Some (set_instance nullptr found)) /\
    r = Returns (mkModuleResult Error
                   ("Reload failed during unload phase: " +:+ close_failure n e)
                   (Some info)) /\
    CppLoadedModules s2 = CppLoadedModules s /\
    foreign_of (added s s2) = foreign_of (added s s1) /\
    dlopen_results (added s s2) = [] /\
    events_of (added s s2) =
      evs ++
      [(ErrorUnloading, set_instance nullptr found, close_failure n e);
       (ErrorUnloading, info,
        "Failed to unload module during reload: " +:+ close_failure n e)].
Proof.
  intros n found s ures s1 r s2.
  split; [vm_compute; reflexivity|]. split; [vm_compute; reflexivity|].
  split; [discriminate|]. split; [vm_compute; reflexivity|].
  apply (reload_stops_at_failed_unload n found s ures s1 r s2);
    [vm_compute; reflexivity|vm_compute; reflexivity|discriminate|
     vm_compute; reflexivity].
Defined.

(** X15 after a load of ["/x/echo.so"], a load of ["/x/copy.so"] that is
    turned away for its name, and an unload: handle 2, opened by the
    second load, has been closed. *)
Lemma no_library_is_lost_witness :
  let ops := [OpLoad "/x/echo.so"; OpLoad "/x/copy.so"; OpUnload "Echo"] in
  let s := run ops (fresh 0 77%N) in
  let h := 2%N in
  h ∈ dlopen_results (trace s) /\
  h <> nullptr /\
  (h ∈ dlclose_calls (trace s) \/ h ∈ handles_held (CppLoadedModules s)).
Proof.
  intros ops s h.
  split; [vm_compute; repeat first [by left | right]|]. split; [discriminate|].
  apply (no_library_is_lost ops 0 77%N h); [|discriminate].
  vm_compute; repeat first [by left | right].
Defined.

